(** * WaykiChain DEX: entities (entities/dexorder.h) and transactions (tx/dextx.h)

    A shallow embedding of the DEX order records, their stream
    serialization, the order, cancel and settle transactions with their
    constructors, wire forms and signature-hash computation, and the type
    names, typedefs and field lookup of the ABI serializer
    (vm/wasm/abi_serializer.cpp), with the properties the specification
    states about them and further properties of the code. *)

From Stdlib Require Import ZArith List Bool Lia.
From Stdlib Require Import Strings.String Strings.Byte.
Import ListNotations.
Open Scope Z_scope.

(** ** Bytes and streams *)

(** A byte of the stream as the unsigned char it holds. *)
Definition Z_of_byte (b : byte) : Z := Z.of_N (Byte.to_N b).

(** The unsigned char with value [z mod 256] (a C++ conversion to [uint8_t]). *)
Definition byte_of_Z (z : Z) : byte :=
  match Byte.of_N (Z.to_N (z mod 256)) with
  | Some b => b
  | None => x00
  end.

(** Reading from a data stream: the value read and the rest of the stream,
    or [None] when the stream ends early or holds no such value. *)
Definition Reader (A : Type) : Type := list byte -> option (A * list byte).

Definition ret {A} (x : A) : Reader A := fun s => Some (x, s).

Definition bind {A B} (r : Reader A) (k : A -> Reader B) : Reader B :=
  fun s => match r s with
           | Some (x, s') => k x s'
           | None => None
           end.

Notation "x <- r ;; k" := (bind r (fun x => k))
  (at level 61, r at next level, right associativity).

(** One raw byte: [READWRITE((uint8_t&)field)]. *)
Definition WriteByte (b : byte) : list byte := [b].

Definition ReadByte : Reader byte :=
  fun s => match s with
           | [] => None
           | b :: s' => Some (b, s')
           end.

(** ** VARINT *)

(** Modelled from the spec: the VARINT macro of serialize.h, which is not
    among the sources.  "Base-128 big-endian variable-length integer, high
    bit continuation on all but the last byte.  Canonical (no redundant
    leading bytes)."  [varint_high] gives the continuation bytes of the
    digits above the last one, most significant first; the number of digits
    is bounded by the width [w] of the integer type, as a [w]-bit value has
    at most [(w + 6) / 7] base-128 digits. *)
Fixpoint varint_high (digits : nat) (n : Z) : list byte :=
  match digits with
  | O => []
  | S digits' =>
      if n <=? 0 then []
      else varint_high digits' (Z.shiftr n 7)
             ++ [byte_of_Z (Z.lor (Z.land n 127) 128)]
  end.

Definition varint_digits (w : Z) : nat := Z.to_nat ((w + 6) / 7).

Definition WriteVarInt (w : Z) (n : Z) : list byte :=
  varint_high (varint_digits w) (Z.shiftr n 7) ++ [byte_of_Z (Z.land n 127)].

(** Modelled from the spec: reading a VARINT into a [w]-bit integer.  The
    accumulator is shifted by seven bits per byte and keeps the width of the
    target type; the stream ending inside the integer is an error
    ([CodecError::Truncated]). *)
Fixpoint ReadVarInt_loop (w : Z) (acc : Z) (s : list byte) : option (Z * list byte) :=
  match s with
  | [] => None
  | b :: s' =>
      let acc' := (Z.lor (Z.shiftl acc 7) (Z.land (Z_of_byte b) 127)) mod 2 ^ w in
      if Z.testbit (Z_of_byte b) 7 then ReadVarInt_loop w acc' s'
      else Some (acc', s')
  end.

(** A leading continuation byte with no payload is a redundant leading byte
    ([CodecError::NonCanonicalVarInt]). *)
Definition ReadVarInt (w : Z) : Reader Z :=
  fun s => match s with
           | [] => None
           | b :: _ => if Byte.eqb b x80 then None else ReadVarInt_loop w 0 s
           end.

(** ** Codecs

    What [READWRITE] and [operator<<] need of a type: how a value is written
    to a stream, how it is read back, and which values of the Rocq type are
    values of the C++ type. *)
Record Codec (A : Type) : Type := mkCodec {
  Serialize : A -> list byte;
  Unserialize : Reader A;
  representable : A -> Prop
}.
Arguments mkCodec {A} _ _ _.
Arguments Serialize {A} _ _.
Arguments Unserialize {A} _ _.
Arguments representable {A} _ _.

(** Reading back what was written gives the value and leaves the rest of
    the stream. *)
Definition codec_ok {A} (c : Codec A) : Prop :=
  forall x rest, representable c x ->
    Unserialize c (Serialize c x ++ rest) = Some (x, rest).

(** [VARINT(n)] for an integer of [w] bits. *)
Definition VARINT (w : Z) : Codec Z :=
  mkCodec (WriteVarInt w) (ReadVarInt w) (fun n => 0 <= n < 2 ^ w).

(** [(uint8_t&)e]: one raw byte. *)
Definition uint8 : Codec byte := mkCodec WriteByte ReadByte (fun _ => True).

Definition ReadBytes (n : Z) : Reader (list byte) :=
  fun s => if n <=? Z.of_nat (List.length s)
           then Some (firstn (Z.to_nat n) s, skipn (Z.to_nat n) s)
           else None.

(** Modelled from the spec: strings of serialize.h, "VARINT length followed
    by raw bytes". *)
Definition WriteString (s : string) : list byte :=
  WriteVarInt 64 (Z.of_nat (String.length s)) ++ list_byte_of_string s.

Definition ReadString : Reader string :=
  n <- ReadVarInt 64 ;; bs <- ReadBytes n ;; ret (string_of_list_byte bs).

Definition string_codec : Codec string :=
  mkCodec WriteString ReadString
          (fun s => Z.of_nat (String.length s) < 2 ^ 64).

Fixpoint ReadMany {A} (r : Reader A) (n : nat) : Reader (list A) :=
  match n with
  | O => ret []
  | S n' => x <- r ;; xs <- ReadMany r n' ;; ret (x :: xs)
  end.

(** Modelled from the spec: vectors of serialize.h, "VARINT count followed
    by elements"; a count above the configured ceiling [max_size] is an
    error ([CodecError::OversizeVec]). *)
Definition vector {A} (max_size : Z) (c : Codec A) : Codec (list A) :=
  mkCodec
    (fun v => WriteVarInt 64 (Z.of_nat (List.length v)) ++ flat_map (Serialize c) v)
    (n <- ReadVarInt 64 ;;
     if n <=? max_size then ReadMany (Unserialize c) (Z.to_nat n) else fun _ => None)
    (fun v => Z.of_nat (List.length v) < 2 ^ 64
              /\ Z.of_nat (List.length v) <= max_size
              /\ Forall (representable c) v).

(** Modelled from the spec: [std::optional] in serialize.h, "one byte
    presence flag (0 or 1); if 1, followed by T". *)
Definition optional {A} (c : Codec A) : Codec (option A) :=
  mkCodec
    (fun o => match o with
              | None => [x00]
              | Some x => x01 :: Serialize c x
              end)
    (flag <- ReadByte ;;
     if Byte.eqb flag x00 then ret None
     else if Byte.eqb flag x01 then x <- Unserialize c ;; ret (Some x)
     else fun _ => None)
    (fun o => match o with
              | None => True
              | Some x => representable c x
              end).

(** [ss << x] on a [CHashWriter] or data stream whose contents so far are
    [ss]. *)
Definition stream_write {A} (c : Codec A) (ss : list byte) (x : A) : list byte :=
  ss ++ Serialize c x.

Notation "ss '<<[' c ']' x" := (stream_write c ss x)
  (at level 40, left associativity, c at level 200, x at next level).

(** ** IMPLEMENT_SERIALIZE

    Modelled from the spec: the macros [IMPLEMENT_SERIALIZE] and [READWRITE]
    of serialize.h, which is not among the sources.  The codec of the
    specification writes and reads the members of an entity in one listed
    order: one list of [READWRITE] statements gives both [Serialize] and
    [Unserialize].  A statement names a member (how to get and how to assign
    it) and the codec of its type. *)
Record Field (T : Type) : Type := READWRITE {
  field_type : Type;
  field_get : T -> field_type;
  field_set : field_type -> T -> T;
  field_codec : Codec field_type
}.
Arguments READWRITE {T field_type} _ _ _.
Arguments field_type {T} _.
Arguments field_get {T} _ _.
Arguments field_set {T} _ _ _.
Arguments field_codec {T} _.

(** Writing: every statement appends its member to the stream, in order. *)
Definition SerializeFields {T} (fields : list (Field T)) (this : T) : list byte :=
  fold_left (fun ss f => ss <<[field_codec f] field_get f this) fields [].

(** Reading: every statement reads its member from the stream and assigns
    it to the object, in order. *)
Fixpoint UnserializeFields {T} (fields : list (Field T)) (this : T) : Reader T :=
  match fields with
  | [] => ret this
  | f :: fields' =>
      v <- Unserialize (field_codec f) ;;
      UnserializeFields fields' (field_set f v this)
  end.

(** The object after every statement has assigned to it what it read from
    the serialization of [x]. *)
Definition assign_fields {T} (fields : list (Field T)) (x this : T) : T :=
  fold_left (fun o f => field_set f (field_get f x) o) fields this.

(** The members of [this] are values of their C++ types. *)
Definition fields_representable {T} (fields : list (Field T)) (this : T) : Prop :=
  Forall (fun f => representable (field_codec f) (field_get f this)) fields.

(** ** What the DEX headers take from the rest of the node *)

(** Modelled from the spec: the DEX tags of the [TxType] enumeration of
    tx.h, which is not among the sources, as the specification lists them
    under "Transaction type tags". *)
Inductive TxType : Type :=
| DEX_LIMIT_BUY_ORDER_TX
| DEX_LIMIT_SELL_ORDER_TX
| DEX_MARKET_BUY_ORDER_TX
| DEX_MARKET_SELL_ORDER_TX
| DEX_CANCEL_ORDER_TX
| DEX_TRADE_SETTLE_TX
| DEX_LIMIT_BUY_ORDER_EX_TX
| DEX_LIMIT_SELL_ORDER_EX_TX
| DEX_MARKET_BUY_ORDER_EX_TX
| DEX_MARKET_SELL_ORDER_EX_TX.

Definition TokenSymbol : Type := string.

(** [typedef uint32_t DexID] and the reserved system DEX. *)
Definition DexID : Type := Z.
Definition DEX_RESERVED_ID : DexID := 0.

(** The identity library (id.h), the hash writer (hash.h) and the constants
    of tx.h and serialize.h are not among the sources: the DEX code is
    embedded over any implementation of them.  [CRegID_ctor] and
    [CTxCord_ctor] are the default constructors, [uint256_ctor] the null
    hash; [TxType_code] is the cast [(uint8_t)nTxType]; [MAX_SIZE] is the
    ceiling on the count of a serialized vector. *)
Class External : Type := {
  CUserID : Type;
  CRegID : Type;
  CTxCord : Type;
  uint256 : Type;
  CUserID_codec : Codec CUserID;
  CRegID_codec : Codec CRegID;
  CTxCord_codec : Codec CTxCord;
  uint256_codec : Codec uint256;
  CRegID_ctor : CRegID;
  CRegID_SetEmpty : CRegID -> CRegID;
  CTxCord_ctor : CTxCord;
  CTxCord_SetEmpty : CTxCord -> CTxCord;
  uint256_ctor : uint256;
  uint256_IsNull : uint256 -> bool;
  CHashWriter_GetHash : list byte -> uint256;
  TxType_code : TxType -> byte;
  CURRENT_VERSION : Z;
  MAX_SIZE : Z
}.

(** What the round trips below need of it: the identity library reads back
    what it writes. *)
Class ExternalLaws (E : External) : Prop := {
  CRegID_codec_ok : codec_ok CRegID_codec;
  CTxCord_codec_ok : codec_ok CTxCord_codec;
  uint256_codec_ok : codec_ok uint256_codec
}.

(** ** entities/dexorder.h *)

(** [enum OrderSide: uint8_t]. *)
Definition OrderSide : Type := byte.
Definition ORDER_BUY : OrderSide := x01.
Definition ORDER_SELL : OrderSide := x02.

(** [enum OrderType: uint8_t]. *)
Definition OrderType : Type := byte.
Definition ORDER_LIMIT_PRICE : OrderType := x01.
Definition ORDER_MARKET_PRICE : OrderType := x02.

(** [enum OrderGenerateType: uint8_t]. *)
Definition OrderGenerateType : Type := byte.
Definition EMPTY_ORDER : OrderGenerateType := x00.
Definition USER_GEN_ORDER : OrderGenerateType := x01.
Definition SYSTEM_GEN_ORDER : OrderGenerateType := x02.

(** [EnumTypeMap<K, V>] (commons/types.h) is a hash map keyed by an enum
    of one byte.  The maps of this header are initialized with distinct
    keys and never changed; a map is embedded as the list of its entries,
    and [find] as the search for the key. *)
Definition EnumTypeMap (V : Type) : Type := list (byte * V).

Fixpoint EnumTypeMap_find {V} (m : EnumTypeMap V) (key : byte) : option V :=
  match m with
  | [] => None
  | (k, v) :: m' => if Byte.eqb k key then Some v else EnumTypeMap_find m' key
  end.

Definition ORDER_SIDE_NAMES : EnumTypeMap string :=
  [(ORDER_BUY, "BUY"%string); (ORDER_SELL, "SELL"%string)].

Definition CheckOrderSide (orderSide : OrderSide) : bool :=
  match EnumTypeMap_find ORDER_SIDE_NAMES orderSide with
  | Some _ => true
  | None => false
  end.

(** [None]: the assertion "not support unknown OrderSide" fails. *)
Definition GetOrderSideName (orderSide : OrderSide) : option string :=
  match EnumTypeMap_find ORDER_SIDE_NAMES orderSide with
  | Some name => Some name
  | None => None
  end.

Definition ORDER_TYPE_NAMES : EnumTypeMap string :=
  [(ORDER_LIMIT_PRICE, "LIMIT_PRICE"%string); (ORDER_MARKET_PRICE, "MARKET_PRICE"%string)].

Definition CheckOrderType (orderType : OrderType) : bool :=
  match EnumTypeMap_find ORDER_TYPE_NAMES orderType with
  | Some _ => true
  | None => false
  end.

(** [None]: the assertion "not support unknown OrderType" fails. *)
Definition GetOrderTypeName (orderType : OrderType) : option string :=
  match EnumTypeMap_find ORDER_TYPE_NAMES orderType with
  | Some name => Some name
  | None => None
  end.

Definition ORDER_GEN_TYPE_NAMES : EnumTypeMap string :=
  [(EMPTY_ORDER, "EMPTY_ORDER"%string);
   (USER_GEN_ORDER, "USER_GEN_ORDER"%string);
   (SYSTEM_GEN_ORDER, "SYSTEM_GEN_ORDER"%string)].

(** [EMPTY_STRING] is a constant of commons/types.h and is taken as an
    argument. *)
Definition GetOrderGenTypeName (EMPTY_STRING : string) (genType : OrderGenerateType)
    : string :=
  match EnumTypeMap_find ORDER_GEN_TYPE_NAMES genType with
  | Some name => name
  | None => EMPTY_STRING
  end.

Module OrderOperatorMode.

(** [enum Mode: uint8_t]. *)
Definition Mode : Type := byte.
Definition DEFAULT : Mode := x00.
Definition REQUIRE_AUTH : Mode := x01.

Record t : Type := Build { value : Mode }.

(** [OrderOperatorMode() {}], with [Mode value = DEFAULT]. *)
Definition ctor : t := Build DEFAULT.

(** [OrderOperatorMode(Mode valueIn): value(valueIn) {}]. *)
Definition of_Mode (valueIn : Mode) : t := Build valueIn.

Definition set_value (v : Mode) (this : t) : t := Build v.

Definition fields : list (Field t) :=
  [ READWRITE value set_value uint8 ].

Definition codec : Codec t :=
  mkCodec (SerializeFields fields)
          (UnserializeFields fields ctor)
          (fields_representable fields).

(** [bool operator==(const Mode &modeValue) const]. *)
Definition eqb (this : t) (modeValue : Mode) : bool := Byte.eqb (value this) modeValue.

(** [bool operator!=(const Mode &modeValue) const]. *)
Definition neqb (this : t) (modeValue : Mode) : bool :=
  negb (Byte.eqb (value this) modeValue).

End OrderOperatorMode.

Module CDEXOrderDetail.
Section WithExternal.
Context {E : External}.

Record t : Type := Build {
  mode : OrderOperatorMode.t;
  dex_id : DexID;
  operator_fee_ratio : Z;
  generate_type : OrderGenerateType;
  order_type : OrderType;
  order_side : OrderSide;
  coin_symbol : TokenSymbol;
  asset_symbol : TokenSymbol;
  coin_amount : Z;
  asset_amount : Z;
  price : Z;
  tx_cord : CTxCord;
  user_regid : CRegID;
  total_deal_coin_amount : Z;
  total_deal_asset_amount : Z
}.

(** The default member initializers. *)
Definition ctor : t :=
  {| mode := OrderOperatorMode.ctor;
     dex_id := 0;
     operator_fee_ratio := 0;
     generate_type := EMPTY_ORDER;
     order_type := ORDER_LIMIT_PRICE;
     order_side := ORDER_BUY;
     coin_symbol := EmptyString;
     asset_symbol := EmptyString;
     coin_amount := 0;
     asset_amount := 0;
     price := 0;
     tx_cord := CTxCord_ctor;
     user_regid := CRegID_ctor;
     total_deal_coin_amount := 0;
     total_deal_asset_amount := 0 |}.

(** Assignment to one member. *)
Definition set_mode v (d : t) : t :=
  let '(Build _ b c e f g h i j k l m n o p) := d in Build v b c e f g h i j k l m n o p.
Definition set_dex_id v (d : t) : t :=
  let '(Build a _ c e f g h i j k l m n o p) := d in Build a v c e f g h i j k l m n o p.
Definition set_operator_fee_ratio v (d : t) : t :=
  let '(Build a b _ e f g h i j k l m n o p) := d in Build a b v e f g h i j k l m n o p.
Definition set_generate_type v (d : t) : t :=
  let '(Build a b c _ f g h i j k l m n o p) := d in Build a b c v f g h i j k l m n o p.
Definition set_order_type v (d : t) : t :=
  let '(Build a b c e _ g h i j k l m n o p) := d in Build a b c e v g h i j k l m n o p.
Definition set_order_side v (d : t) : t :=
  let '(Build a b c e f _ h i j k l m n o p) := d in Build a b c e f v h i j k l m n o p.
Definition set_coin_symbol v (d : t) : t :=
  let '(Build a b c e f g _ i j k l m n o p) := d in Build a b c e f g v i j k l m n o p.
Definition set_asset_symbol v (d : t) : t :=
  let '(Build a b c e f g h _ j k l m n o p) := d in Build a b c e f g h v j k l m n o p.
Definition set_coin_amount v (d : t) : t :=
  let '(Build a b c e f g h i _ k l m n o p) := d in Build a b c e f g h i v k l m n o p.
Definition set_asset_amount v (d : t) : t :=
  let '(Build a b c e f g h i j _ l m n o p) := d in Build a b c e f g h i j v l m n o p.
Definition set_price v (d : t) : t :=
  let '(Build a b c e f g h i j k _ m n o p) := d in Build a b c e f g h i j k v m n o p.
Definition set_tx_cord v (d : t) : t :=
  let '(Build a b c e f g h i j k l _ n o p) := d in Build a b c e f g h i j k l v n o p.
Definition set_user_regid v (d : t) : t :=
  let '(Build a b c e f g h i j k l m _ o p) := d in Build a b c e f g h i j k l m v o p.
Definition set_total_deal_coin_amount v (d : t) : t :=
  let '(Build a b c e f g h i j k l m n _ p) := d in Build a b c e f g h i j k l m n v p.
Definition set_total_deal_asset_amount v (d : t) : t :=
  let '(Build a b c e f g h i j k l m n o _) := d in Build a b c e f g h i j k l m n o v.

(** The statements of [IMPLEMENT_SERIALIZE], [tx_cord] twice as in the
    source. *)
Definition fields : list (Field t) :=
  [ READWRITE mode set_mode OrderOperatorMode.codec;
    READWRITE dex_id set_dex_id (VARINT 32);
    READWRITE operator_fee_ratio set_operator_fee_ratio (VARINT 64);
    READWRITE generate_type set_generate_type uint8;
    READWRITE order_type set_order_type uint8;
    READWRITE order_side set_order_side uint8;
    READWRITE coin_symbol set_coin_symbol string_codec;
    READWRITE asset_symbol set_asset_symbol string_codec;
    READWRITE coin_amount set_coin_amount (VARINT 64);
    READWRITE asset_amount set_asset_amount (VARINT 64);
    READWRITE price set_price (VARINT 64);
    READWRITE tx_cord set_tx_cord CTxCord_codec;
    READWRITE user_regid set_user_regid CRegID_codec;
    READWRITE total_deal_coin_amount set_total_deal_coin_amount (VARINT 64);
    READWRITE total_deal_asset_amount set_total_deal_asset_amount (VARINT 64);
    READWRITE tx_cord set_tx_cord CTxCord_codec ].

Definition Serialize (this : t) : list byte := SerializeFields fields this.

Definition Unserialize (this : t) : Reader t := UnserializeFields fields this.

Definition IsEmpty (this : t) : bool := Byte.eqb (generate_type this) EMPTY_ORDER.

Definition SetEmpty (this : t) : t :=
  let this := set_generate_type EMPTY_ORDER this in
  let this := set_order_type ORDER_LIMIT_PRICE this in
  let this := set_order_side ORDER_BUY this in
  let this := set_coin_symbol EmptyString this in
  let this := set_asset_symbol EmptyString this in
  let this := set_coin_amount 0 this in
  let this := set_asset_amount 0 this in
  let this := set_price 0 this in
  let this := set_tx_cord (CTxCord_SetEmpty (tx_cord this)) this in
  let this := set_user_regid (CRegID_SetEmpty (user_regid this)) this in
  let this := set_total_deal_coin_amount 0 this in
  let this := set_total_deal_asset_amount 0 this in
  this.

(** The members hold values of their C++ types: [uint32_t dex_id],
    [uint64_t] amounts and ratios, strings whose length is a [size_t], and
    identifiers the identity library can write. *)
Definition well_formed (d : t) : Prop :=
  0 <= dex_id d < 2 ^ 32
  /\ 0 <= operator_fee_ratio d < 2 ^ 64
  /\ Z.of_nat (String.length (coin_symbol d)) < 2 ^ 64
  /\ Z.of_nat (String.length (asset_symbol d)) < 2 ^ 64
  /\ 0 <= coin_amount d < 2 ^ 64
  /\ 0 <= asset_amount d < 2 ^ 64
  /\ 0 <= price d < 2 ^ 64
  /\ representable CTxCord_codec (tx_cord d)
  /\ representable CRegID_codec (user_regid d)
  /\ 0 <= total_deal_coin_amount d < 2 ^ 64
  /\ 0 <= total_deal_asset_amount d < 2 ^ 64.

End WithExternal.
Arguments t {E}.
End CDEXOrderDetail.

Module CDEXActiveOrder.
Section WithExternal.
Context {E : External}.

Record t : Type := Build {
  generate_type : OrderGenerateType;
  tx_cord : CTxCord;
  total_deal_coin_amount : Z;
  total_deal_asset_amount : Z
}.

(** [CDEXActiveOrder() {}]. *)
Definition ctor : t :=
  {| generate_type := EMPTY_ORDER;
     tx_cord := CTxCord_ctor;
     total_deal_coin_amount := 0;
     total_deal_asset_amount := 0 |}.

(** [CDEXActiveOrder(OrderGenerateType generateType, const CTxCord &txCord)]. *)
Definition ctor2 (generateType : OrderGenerateType) (txCord : CTxCord) : t :=
  {| generate_type := generateType;
     tx_cord := txCord;
     total_deal_coin_amount := 0;
     total_deal_asset_amount := 0 |}.

Definition set_generate_type v (o : t) : t :=
  let '(Build _ b c d) := o in Build v b c d.
Definition set_tx_cord v (o : t) : t :=
  let '(Build a _ c d) := o in Build a v c d.
Definition set_total_deal_coin_amount v (o : t) : t :=
  let '(Build a b _ d) := o in Build a b v d.
Definition set_total_deal_asset_amount v (o : t) : t :=
  let '(Build a b c _) := o in Build a b c v.

Definition fields : list (Field t) :=
  [ READWRITE generate_type set_generate_type uint8;
    READWRITE tx_cord set_tx_cord CTxCord_codec;
    READWRITE total_deal_coin_amount set_total_deal_coin_amount (VARINT 64);
    READWRITE total_deal_asset_amount set_total_deal_asset_amount (VARINT 64) ].

Definition Serialize (this : t) : list byte := SerializeFields fields this.

Definition Unserialize (this : t) : Reader t := UnserializeFields fields this.

Definition IsEmpty (this : t) : bool := Byte.eqb (generate_type this) EMPTY_ORDER.

Definition SetEmpty (this : t) : t :=
  let this := set_generate_type EMPTY_ORDER this in
  let this := set_total_deal_coin_amount 0 this in
  let this := set_total_deal_asset_amount 0 this in
  let this := set_tx_cord (CTxCord_SetEmpty (tx_cord this)) this in
  this.

Definition well_formed (o : t) : Prop :=
  representable CTxCord_codec (tx_cord o)
  /\ 0 <= total_deal_coin_amount o < 2 ^ 64
  /\ 0 <= total_deal_asset_amount o < 2 ^ 64.

End WithExternal.
Arguments t {E}.
End CDEXActiveOrder.

Module DexOperatorDetail.
Section WithExternal.
Context {E : External}.

Record t : Type := Build {
  owner_regid : CRegID;
  match_regid : CRegID;
  name : string;
  portal_url : string;
  maker_fee_ratio : Z;
  taker_fee_ratio : Z;
  memo : string
}.

Definition ctor : t :=
  {| owner_regid := CRegID_ctor;
     match_regid := CRegID_ctor;
     name := EmptyString;
     portal_url := EmptyString;
     maker_fee_ratio := 0;
     taker_fee_ratio := 0;
     memo := EmptyString |}.

Definition set_owner_regid v (o : t) : t :=
  let '(Build _ b c d e f g) := o in Build v b c d e f g.
Definition set_match_regid v (o : t) : t :=
  let '(Build a _ c d e f g) := o in Build a v c d e f g.
Definition set_name v (o : t) : t :=
  let '(Build a b _ d e f g) := o in Build a b v d e f g.
Definition set_portal_url v (o : t) : t :=
  let '(Build a b c _ e f g) := o in Build a b c v e f g.
Definition set_maker_fee_ratio v (o : t) : t :=
  let '(Build a b c d _ f g) := o in Build a b c d v f g.
Definition set_taker_fee_ratio v (o : t) : t :=
  let '(Build a b c d e _ g) := o in Build a b c d e v g.
Definition set_memo v (o : t) : t :=
  let '(Build a b c d e f _) := o in Build a b c d e f v.

Definition fields : list (Field t) :=
  [ READWRITE owner_regid set_owner_regid CRegID_codec;
    READWRITE match_regid set_match_regid CRegID_codec;
    READWRITE name set_name string_codec;
    READWRITE portal_url set_portal_url string_codec;
    READWRITE maker_fee_ratio set_maker_fee_ratio (VARINT 64);
    READWRITE taker_fee_ratio set_taker_fee_ratio (VARINT 64);
    READWRITE memo set_memo string_codec ].

Definition Serialize (this : t) : list byte := SerializeFields fields this.

Definition Unserialize (this : t) : Reader t := UnserializeFields fields this.

Definition well_formed (o : t) : Prop :=
  representable CRegID_codec (owner_regid o)
  /\ representable CRegID_codec (match_regid o)
  /\ Z.of_nat (String.length (name o)) < 2 ^ 64
  /\ Z.of_nat (String.length (portal_url o)) < 2 ^ 64
  /\ 0 <= maker_fee_ratio o < 2 ^ 64
  /\ 0 <= taker_fee_ratio o < 2 ^ 64
  /\ Z.of_nat (String.length (memo o)) < 2 ^ 64.

(** [CRegID::IsEmpty] of the identity library. *)
Variable CRegID_IsEmpty : CRegID -> bool.

Definition IsEmpty (this : t) : bool :=
  CRegID_IsEmpty (owner_regid this) && CRegID_IsEmpty (match_regid this)
  && (String.length (name this) =? 0)%nat && (String.length (portal_url this) =? 0)%nat
  && (maker_fee_ratio this =? 0) && (taker_fee_ratio this =? 0)
  && (String.length (memo this) =? 0)%nat.

Definition SetEmpty (this : t) : t :=
  let this := set_owner_regid (CRegID_SetEmpty (owner_regid this)) this in
  let this := set_match_regid (CRegID_SetEmpty (match_regid this)) this in
  let this := set_name EmptyString this in
  let this := set_portal_url EmptyString this in
  let this := set_maker_fee_ratio 0 this in
  let this := set_taker_fee_ratio 0 this in
  let this := set_memo EmptyString this in
  this.

End WithExternal.
Arguments t {E}.
End DexOperatorDetail.

(** ** tx/dextx.h: deal items *)

Module DEXDealItem.
Section WithExternal.
Context {E : External}.

Record t : Type := Build {
  buyOrderId : uint256;
  sellOrderId : uint256;
  dealPrice : Z;
  dealCoinAmount : Z;
  dealAssetAmount : Z
}.

(** A value-initialized item, as a vector makes its elements before they
    are read. *)
Definition ctor : t :=
  {| buyOrderId := uint256_ctor;
     sellOrderId := uint256_ctor;
     dealPrice := 0;
     dealCoinAmount := 0;
     dealAssetAmount := 0 |}.

Definition set_buyOrderId v (o : t) : t :=
  let '(Build _ b c d e) := o in Build v b c d e.
Definition set_sellOrderId v (o : t) : t :=
  let '(Build a _ c d e) := o in Build a v c d e.
Definition set_dealPrice v (o : t) : t :=
  let '(Build a b _ d e) := o in Build a b v d e.
Definition set_dealCoinAmount v (o : t) : t :=
  let '(Build a b c _ e) := o in Build a b c v e.
Definition set_dealAssetAmount v (o : t) : t :=
  let '(Build a b c d _) := o in Build a b c d v.

Definition fields : list (Field t) :=
  [ READWRITE buyOrderId set_buyOrderId uint256_codec;
    READWRITE sellOrderId set_sellOrderId uint256_codec;
    READWRITE dealPrice set_dealPrice (VARINT 64);
    READWRITE dealCoinAmount set_dealCoinAmount (VARINT 64);
    READWRITE dealAssetAmount set_dealAssetAmount (VARINT 64) ].

Definition Serialize (this : t) : list byte := SerializeFields fields this.

Definition Unserialize (this : t) : Reader t := UnserializeFields fields this.

Definition codec : Codec t :=
  mkCodec Serialize (Unserialize ctor) (fields_representable fields).

Definition well_formed (o : t) : Prop :=
  representable uint256_codec (buyOrderId o)
  /\ representable uint256_codec (sellOrderId o)
  /\ 0 <= dealPrice o < 2 ^ 64
  /\ 0 <= dealCoinAmount o < 2 ^ 64
  /\ 0 <= dealAssetAmount o < 2 ^ 64.

End WithExternal.
Arguments t {E}.
End DEXDealItem.

(** ** tx/dextx.h: what it inherits from tx.h *)

(** [CHashWriter ss(SER_GETHASH, 0)]: nothing written yet. *)
Definition CHashWriter_ctor : list byte := [].

Module CBaseTx.
Section WithExternal.
Context {E : External}.

(** The members of [CBaseTx] that dextx.h reads or writes.  [sigHash] is the
    [mutable] cache of the signature hash. *)
Record t : Type := Build {
  nVersion : Z;
  nTxType : TxType;
  txUid : CUserID;
  valid_height : Z;
  fee_symbol : TokenSymbol;
  llFees : Z;
  signature : list byte;
  sigHash : uint256
}.

(** Modelled from the spec: the constructor
    [CBaseTx(nTxTypeIn, txUidIn, validHeightIn, feeSymbol, fees)] of tx.h,
    which is not among the sources.  It stores its arguments in the members
    of the common prefix "version, tx_type, valid_height, tx_uid,
    fee_symbol, fees"; the version is the current one, and the signature
    and the cached hash start empty. *)
Definition ctor (nTxTypeIn : TxType) (txUidIn : CUserID) (validHeightIn : Z)
    (feeSymbol : TokenSymbol) (fees : Z) : t :=
  {| nVersion := CURRENT_VERSION;
     nTxType := nTxTypeIn;
     txUid := txUidIn;
     valid_height := validHeightIn;
     fee_symbol := feeSymbol;
     llFees := fees;
     signature := [];
     sigHash := uint256_ctor |}.

Definition set_nVersion v (b : t) : t :=
  let '(Build _ b2 c d e f g h) := b in Build v b2 c d e f g h.
Definition set_txUid v (b : t) : t :=
  let '(Build a b2 _ d e f g h) := b in Build a b2 v d e f g h.
Definition set_valid_height v (b : t) : t :=
  let '(Build a b2 c _ e f g h) := b in Build a b2 c v e f g h.
Definition set_fee_symbol v (b : t) : t :=
  let '(Build a b2 c d _ f g h) := b in Build a b2 c d v f g h.
Definition set_llFees v (b : t) : t :=
  let '(Build a b2 c d e _ g h) := b in Build a b2 c d e v g h.
Definition set_signature v (b : t) : t :=
  let '(Build a b2 c d e f _ h) := b in Build a b2 c d e f v h.
Definition set_sigHash v (b : t) : t :=
  let '(Build a b2 c d e f g _) := b in Build a b2 c d e f g v.

(** The serialized members hold values of their C++ types that VARINT
    writes in full: a version and a height that are not negative, fees of 64
    bits, a user id the identity library can write, and a symbol and a
    signature whose sizes fit a [size_t] and the vector ceiling. *)
Definition well_formed (b : t) : Prop :=
  0 <= nVersion b < 2 ^ 32
  /\ 0 <= valid_height b < 2 ^ 32
  /\ representable CUserID_codec (txUid b)
  /\ Z.of_nat (String.length (fee_symbol b)) < 2 ^ 64
  /\ 0 <= llFees b < 2 ^ 64
  /\ Z.of_nat (List.length (signature b)) < 2 ^ 64
  /\ Z.of_nat (List.length (signature b)) <= MAX_SIZE.

End WithExternal.
Arguments t {E}.
End CBaseTx.

Module CSignaturePair.
Section WithExternal.
Context {E : External}.

(** Modelled from the spec: [CSignaturePair] of tx.h, which is not among
    the sources; the "operator_signature_pair" holds the operator's regid
    and the operator's signature. *)
Record t : Type := Build {
  regid : CRegID;
  signature : list byte
}.

(** [CSignaturePair(const CRegID &regidIn)]: the signature is still empty. *)
Definition ctor (regidIn : CRegID) : t :=
  {| regid := regidIn; signature := [] |}.

Definition set_signature v (p : t) : t :=
  let '(Build a _) := p in Build a v.

End WithExternal.
Arguments t {E}.
End CSignaturePair.

Module CDEXOrderBaseTx.
Section WithExternal.
Context {E : External}.

Record t : Type := Build {
  base :> CBaseTx.t;
  mode : OrderOperatorMode.t;
  dex_id : DexID;
  operator_fee_ratio : Z;
  order_type : OrderType;
  order_side : OrderSide;
  coin_symbol : TokenSymbol;
  asset_symbol : TokenSymbol;
  coin_amount : Z;
  asset_amount : Z;
  price : Z;
  memo : string;
  operator_signature_pair : option CSignaturePair.t
}.

(** [using CBaseTx::CBaseTx]: the inherited constructor, followed by the
    default member initializers. *)
Definition ctor (nTxTypeIn : TxType) (txUidIn : CUserID) (validHeightIn : Z)
    (feeSymbol : TokenSymbol) (fees : Z) : t :=
  {| base := CBaseTx.ctor nTxTypeIn txUidIn validHeightIn feeSymbol fees;
     mode := OrderOperatorMode.of_Mode OrderOperatorMode.DEFAULT;
     dex_id := 0;
     operator_fee_ratio := 0;
     order_type := ORDER_LIMIT_PRICE;
     order_side := ORDER_BUY;
     coin_symbol := EmptyString;
     asset_symbol := EmptyString;
     coin_amount := 0;
     asset_amount := 0;
     price := 0;
     memo := EmptyString;
     operator_signature_pair := None |}.

(** [CDEXOrderBaseTx(nTxTypeIn)], which the default constructors of the
    twelve order classes run with their tag and an empty body: the inherited
    [CBaseTx(nTxTypeIn)] followed by the default member initializers.  The
    constructor of [CBaseTx] is in tx.h; the base object it makes is taken
    as an argument. *)
Definition ctor1 (baseIn : CBaseTx.t) : t :=
  {| base := baseIn;
     mode := OrderOperatorMode.of_Mode OrderOperatorMode.DEFAULT;
     dex_id := 0;
     operator_fee_ratio := 0;
     order_type := ORDER_LIMIT_PRICE;
     order_side := ORDER_BUY;
     coin_symbol := EmptyString;
     asset_symbol := EmptyString;
     coin_amount := 0;
     asset_amount := 0;
     price := 0;
     memo := EmptyString;
     operator_signature_pair := None |}.

Definition set_base v (x : t) : t :=
  let '(Build _ b c d e f g h i j k l m) := x in Build v b c d e f g h i j k l m.
Definition set_mode v (x : t) : t :=
  let '(Build a _ c d e f g h i j k l m) := x in Build a v c d e f g h i j k l m.
Definition set_dex_id v (x : t) : t :=
  let '(Build a b _ d e f g h i j k l m) := x in Build a b v d e f g h i j k l m.
Definition set_operator_fee_ratio v (x : t) : t :=
  let '(Build a b c _ e f g h i j k l m) := x in Build a b c v e f g h i j k l m.
Definition set_order_type v (x : t) : t :=
  let '(Build a b c d _ f g h i j k l m) := x in Build a b c d v f g h i j k l m.
Definition set_order_side v (x : t) : t :=
  let '(Build a b c d e _ g h i j k l m) := x in Build a b c d e v g h i j k l m.
Definition set_coin_symbol v (x : t) : t :=
  let '(Build a b c d e f _ h i j k l m) := x in Build a b c d e f v h i j k l m.
Definition set_asset_symbol v (x : t) : t :=
  let '(Build a b c d e f g _ i j k l m) := x in Build a b c d e f g v i j k l m.
Definition set_coin_amount v (x : t) : t :=
  let '(Build a b c d e f g h _ j k l m) := x in Build a b c d e f g h v j k l m.
Definition set_asset_amount v (x : t) : t :=
  let '(Build a b c d e f g h i _ k l m) := x in Build a b c d e f g h i v k l m.
Definition set_price v (x : t) : t :=
  let '(Build a b c d e f g h i j _ l m) := x in Build a b c d e f g h i j v l m.
Definition set_memo v (x : t) : t :=
  let '(Build a b c d e f g h i j k _ m) := x in Build a b c d e f g h i j k v m.
Definition set_operator_signature_pair v (x : t) : t :=
  let '(Build a b c d e f g h i j k l _) := x in Build a b c d e f g h i j k l v.

(** Assignment to the inherited members [signature] and [sigHash]. *)
Definition set_signature (v : list byte) (x : t) : t :=
  set_base (CBaseTx.set_signature v x) x.
Definition set_sigHash (v : uint256) (x : t) : t :=
  set_base (CBaseTx.set_sigHash v x) x.

(** [const CRegID *pOperatorRegidIn]: a null pointer is [None]. *)
Definition SetOperatorRegid (pOperatorRegidIn : option CRegID) (this : t) : t :=
  match pOperatorRegidIn with
  | Some regid => set_operator_signature_pair (Some (CSignaturePair.ctor regid)) this
  | None => this
  end.

Definition GetOperatorRegid (this : t) : option CRegID :=
  let ret := None in
  match operator_signature_pair this with
  | Some sp => Some (CSignaturePair.regid sp)
  | None => ret
  end.

(** What a [const string &] parameter of a constructor is bound to: a
    string of the caller, or the member [memo] of the object that is being
    constructed. *)
Inductive StringRef : Type :=
| ref_to (s : string)
| ref_to_member_memo.

(** The string a reference denotes when the constructor body reads it. *)
Definition deref (r : StringRef) (this : t) : string :=
  match r with
  | ref_to s => s
  | ref_to_member_memo => memo this
  end.

(** The same transaction carrying other signature bytes: the user's
    [signature] and, when an operator pair is present, the [signature] of
    the pair. *)
Definition with_signatures (userSignature operatorSignature : list byte) (this : t) : t :=
  let this := set_operator_signature_pair
                (option_map (CSignaturePair.set_signature operatorSignature)
                            (operator_signature_pair this)) this in
  set_signature userSignature this.

(** Assignment to the other inherited members that are serialized. *)
Definition set_nVersion v (x : t) : t := set_base (CBaseTx.set_nVersion v x) x.
Definition set_valid_height v (x : t) : t := set_base (CBaseTx.set_valid_height v x) x.
Definition set_txUid v (x : t) : t := set_base (CBaseTx.set_txUid v x) x.
Definition set_fee_symbol v (x : t) : t := set_base (CBaseTx.set_fee_symbol v x) x.
Definition set_llFees v (x : t) : t := set_base (CBaseTx.set_llFees v x) x.

(** [(uint8_t&)mode]: the byte of the mode, read and assigned as a number. *)
Definition mode_byte (x : t) : Z := Z_of_byte (OrderOperatorMode.value (mode x)).
Definition set_mode_byte (v : Z) (x : t) : t :=
  set_mode (OrderOperatorMode.Build (byte_of_Z v)) x.

(** The members hold values of their C++ types. *)
Definition well_formed (x : t) : Prop :=
  CBaseTx.well_formed x
  /\ 0 <= dex_id x < 2 ^ 32
  /\ 0 <= operator_fee_ratio x < 2 ^ 64
  /\ Z.of_nat (String.length (coin_symbol x)) < 2 ^ 64
  /\ Z.of_nat (String.length (asset_symbol x)) < 2 ^ 64
  /\ 0 <= coin_amount x < 2 ^ 64
  /\ 0 <= asset_amount x < 2 ^ 64
  /\ 0 <= price x < 2 ^ 64
  /\ Z.of_nat (String.length (memo x)) < 2 ^ 64
  /\ representable (optional CRegID_codec) (GetOperatorRegid x).

End WithExternal.
Arguments t {E}.
End CDEXOrderBaseTx.

(** ** tx/dextx.h: order transactions

    A class of the hierarchy is a module; all of them share the members of
    [CDEXOrderBaseTx].  A constructor body is the sequence of its
    assignments. *)

Module CDEXBuyLimitOrderBaseTx.
Import CDEXOrderBaseTx.
Section WithExternal.
Context {E : External}.

Definition ctor (nTxTypeIn : TxType) (txUidIn : CUserID) (validHeightIn : Z)
    (feeSymbol : TokenSymbol) (fees : Z) (modeIn : OrderOperatorMode.t) (dexIdIn : DexID)
    (orderFeeRatioIn : Z) (coinSymbol assetSymbol : TokenSymbol) (assetAmountIn : Z) (priceIn : Z)
    (memoIn : StringRef) (pOperatorRegidIn : option CRegID) : t :=
  let this := CDEXOrderBaseTx.ctor nTxTypeIn txUidIn validHeightIn feeSymbol fees in
  let this := set_mode modeIn this in
  let this := set_dex_id dexIdIn this in
  let this := set_operator_fee_ratio orderFeeRatioIn this in
  let this := set_order_type ORDER_LIMIT_PRICE this in
  let this := set_order_side ORDER_BUY this in
  let this := set_coin_symbol coinSymbol this in
  let this := set_asset_symbol assetSymbol this in
  let this := set_coin_amount 0 this in
  let this := set_asset_amount assetAmountIn this in
  let this := set_price priceIn this in
  let this := set_memo (deref memoIn this) this in
  SetOperatorRegid pOperatorRegidIn this.

End WithExternal.
End CDEXBuyLimitOrderBaseTx.

Module CDEXBuyLimitOrderTx.
Import CDEXOrderBaseTx.
Section WithExternal.
Context {E : External}.

Definition ctor (txUidIn : CUserID) (validHeightIn : Z) (feeSymbol : TokenSymbol)
    (fees : Z) (coinSymbol assetSymbol : TokenSymbol) (assetAmountIn : Z) (priceIn : Z) : t :=
  CDEXBuyLimitOrderBaseTx.ctor DEX_LIMIT_BUY_ORDER_TX txUidIn validHeightIn feeSymbol fees
    (OrderOperatorMode.of_Mode OrderOperatorMode.DEFAULT) DEX_RESERVED_ID 0 coinSymbol
    assetSymbol assetAmountIn priceIn (ref_to EmptyString) None.

(** The contents of [ss] when [ss.GetHash()] is called. *)
Definition signature_hash_stream (this : t) : list byte :=
  CHashWriter_ctor
    <<[VARINT 32] CBaseTx.nVersion this
    <<[uint8] TxType_code (CBaseTx.nTxType this)
    <<[VARINT 32] CBaseTx.valid_height this
    <<[CUserID_codec] CBaseTx.txUid this
    <<[string_codec] CBaseTx.fee_symbol this
    <<[VARINT 64] CBaseTx.llFees this
    <<[string_codec] coin_symbol this
    <<[string_codec] asset_symbol this
    <<[VARINT 64] asset_amount this
    <<[VARINT 64] price this.

(** [TxID ComputeSignatureHash(bool recalculate = false) const]: the hash
    returned and the object with its cache. *)
Definition ComputeSignatureHash (recalculate : bool) (this : t) : uint256 * t :=
  if recalculate || uint256_IsNull (CBaseTx.sigHash this) then
    let ss := signature_hash_stream this in
    let this := set_sigHash (CHashWriter_GetHash ss) this in
    (CBaseTx.sigHash this, this)
  else (CBaseTx.sigHash this, this).

(** The statements of [IMPLEMENT_SERIALIZE]; [nVersion = this->nVersion]
    assigns the member to itself. *)
Definition fields : list (Field t) :=
  [ READWRITE (fun x : t => CBaseTx.nVersion x) set_nVersion (VARINT 32);
    READWRITE (fun x : t => CBaseTx.valid_height x) set_valid_height (VARINT 32);
    READWRITE (fun x : t => CBaseTx.txUid x) set_txUid CUserID_codec;
    READWRITE (fun x : t => CBaseTx.fee_symbol x) set_fee_symbol string_codec;
    READWRITE (fun x : t => CBaseTx.llFees x) set_llFees (VARINT 64);
    READWRITE coin_symbol set_coin_symbol string_codec;
    READWRITE asset_symbol set_asset_symbol string_codec;
    READWRITE asset_amount set_asset_amount (VARINT 64);
    READWRITE price set_price (VARINT 64);
    READWRITE (fun x : t => CBaseTx.signature x) set_signature (vector MAX_SIZE uint8) ].

Definition Serialize (this : t) : list byte := SerializeFields fields this.

Definition Unserialize (this : t) : Reader t := UnserializeFields fields this.

End WithExternal.
End CDEXBuyLimitOrderTx.

Module CDEXBuyLimitOrderExTx.
Import CDEXOrderBaseTx.
Section WithExternal.
Context {E : External}.

Definition ctor (txUidIn : CUserID) (validHeightIn : Z) (feeSymbol : TokenSymbol)
    (fees : Z) (modeIn : OrderOperatorMode.t) (dexIdIn : DexID) (orderFeeRatioIn : Z)
    (coinSymbol assetSymbol : TokenSymbol) (assetAmountIn : Z) (priceIn : Z) (memoIn : string)
    (pOperatorRegidIn : option CRegID) : t :=
  CDEXBuyLimitOrderBaseTx.ctor DEX_LIMIT_BUY_ORDER_EX_TX txUidIn validHeightIn feeSymbol fees
    modeIn dexIdIn orderFeeRatioIn coinSymbol assetSymbol assetAmountIn priceIn (ref_to memoIn)
    pOperatorRegidIn.

(** The contents of [ss] when [ss.GetHash()] is called. *)
Definition signature_hash_stream (this : t) : list byte :=
  CHashWriter_ctor
    <<[VARINT 32] CBaseTx.nVersion this
    <<[uint8] TxType_code (CBaseTx.nTxType this)
    <<[VARINT 32] CBaseTx.valid_height this
    <<[CUserID_codec] CBaseTx.txUid this
    <<[string_codec] CBaseTx.fee_symbol this
    <<[VARINT 64] CBaseTx.llFees this
    <<[VARINT 8] Z_of_byte (OrderOperatorMode.value (mode this))
    <<[VARINT 32] dex_id this
    <<[VARINT 64] operator_fee_ratio this
    <<[string_codec] coin_symbol this
    <<[string_codec] asset_symbol this
    <<[VARINT 64] asset_amount this
    <<[VARINT 64] price this
    <<[string_codec] memo this
    <<[optional CRegID_codec] GetOperatorRegid this.

(** [TxID ComputeSignatureHash(bool recalculate = false) const]: the hash
    returned and the object with its cache. *)
Definition ComputeSignatureHash (recalculate : bool) (this : t) : uint256 * t :=
  if recalculate || uint256_IsNull (CBaseTx.sigHash this) then
    let ss := signature_hash_stream this in
    let this := set_sigHash (CHashWriter_GetHash ss) this in
    (CBaseTx.sigHash this, this)
  else (CBaseTx.sigHash this, this).

(** The serialization of [CSignaturePair] is in tx.h and is taken as given. *)
Variable CSignaturePair_codec : Codec CSignaturePair.t.

(** The statements of [IMPLEMENT_SERIALIZE]; [nVersion = this->nVersion]
    assigns the member to itself. *)
Definition fields : list (Field t) :=
  [ READWRITE (fun x : t => CBaseTx.nVersion x) set_nVersion (VARINT 32);
    READWRITE (fun x : t => CBaseTx.valid_height x) set_valid_height (VARINT 32);
    READWRITE (fun x : t => CBaseTx.txUid x) set_txUid CUserID_codec;
    READWRITE (fun x : t => CBaseTx.fee_symbol x) set_fee_symbol string_codec;
    READWRITE (fun x : t => CBaseTx.llFees x) set_llFees (VARINT 64);
    READWRITE mode_byte set_mode_byte (VARINT 8);
    READWRITE dex_id set_dex_id (VARINT 32);
    READWRITE operator_fee_ratio set_operator_fee_ratio (VARINT 64);
    READWRITE coin_symbol set_coin_symbol string_codec;
    READWRITE asset_symbol set_asset_symbol string_codec;
    READWRITE asset_amount set_asset_amount (VARINT 64);
    READWRITE price set_price (VARINT 64);
    READWRITE memo set_memo string_codec;
    READWRITE operator_signature_pair set_operator_signature_pair
      (optional CSignaturePair_codec);
    READWRITE (fun x : t => CBaseTx.signature x) set_signature (vector MAX_SIZE uint8) ].

Definition Serialize (this : t) : list byte := SerializeFields fields this.

Definition Unserialize (this : t) : Reader t := UnserializeFields fields this.

End WithExternal.
End CDEXBuyLimitOrderExTx.

Module CDEXSellLimitOrderBaseTx.
Import CDEXOrderBaseTx.
Section WithExternal.
Context {E : External}.

Definition ctor (nTxTypeIn : TxType) (txUidIn : CUserID) (validHeightIn : Z)
    (feeSymbol : TokenSymbol) (fees : Z) (modeIn : OrderOperatorMode.t) (dexIdIn : DexID)
    (orderFeeRatioIn : Z) (coinSymbol assetSymbol : TokenSymbol) (assetAmountIn : Z) (priceIn : Z)
    (memoIn : StringRef) (pOperatorRegidIn : option CRegID) : t :=
  let this := CDEXOrderBaseTx.ctor nTxTypeIn txUidIn validHeightIn feeSymbol fees in
  let this := set_mode modeIn this in
  let this := set_dex_id dexIdIn this in
  let this := set_operator_fee_ratio orderFeeRatioIn this in
  let this := set_order_type ORDER_LIMIT_PRICE this in
  let this := set_order_side ORDER_SELL this in
  let this := set_coin_symbol coinSymbol this in
  let this := set_asset_symbol assetSymbol this in
  let this := set_coin_amount 0 this in
  let this := set_asset_amount assetAmountIn this in
  let this := set_price priceIn this in
  let this := set_memo (deref memoIn this) this in
  SetOperatorRegid pOperatorRegidIn this.

End WithExternal.
End CDEXSellLimitOrderBaseTx.

Module CDEXSellLimitOrderTx.
Import CDEXOrderBaseTx.
Section WithExternal.
Context {E : External}.

Definition ctor (txUidIn : CUserID) (validHeightIn : Z) (feeSymbol : TokenSymbol)
    (fees : Z) (coinSymbol assetSymbol : TokenSymbol) (assetAmount : Z) (priceIn : Z) : t :=
  CDEXSellLimitOrderBaseTx.ctor DEX_LIMIT_SELL_ORDER_TX txUidIn validHeightIn feeSymbol fees
    (OrderOperatorMode.of_Mode OrderOperatorMode.DEFAULT) DEX_RESERVED_ID 0 coinSymbol
    assetSymbol assetAmount priceIn (ref_to EmptyString) None.

(** The contents of [ss] when [ss.GetHash()] is called. *)
Definition signature_hash_stream (this : t) : list byte :=
  CHashWriter_ctor
    <<[VARINT 32] CBaseTx.nVersion this
    <<[uint8] TxType_code (CBaseTx.nTxType this)
    <<[VARINT 32] CBaseTx.valid_height this
    <<[CUserID_codec] CBaseTx.txUid this
    <<[string_codec] CBaseTx.fee_symbol this
    <<[VARINT 64] CBaseTx.llFees this
    <<[string_codec] coin_symbol this
    <<[string_codec] asset_symbol this
    <<[VARINT 64] asset_amount this
    <<[VARINT 64] price this.

(** [TxID ComputeSignatureHash(bool recalculate = false) const]: the hash
    returned and the object with its cache. *)
Definition ComputeSignatureHash (recalculate : bool) (this : t) : uint256 * t :=
  if recalculate || uint256_IsNull (CBaseTx.sigHash this) then
    let ss := signature_hash_stream this in
    let this := set_sigHash (CHashWriter_GetHash ss) this in
    (CBaseTx.sigHash this, this)
  else (CBaseTx.sigHash this, this).

(** The statements of [IMPLEMENT_SERIALIZE]; [nVersion = this->nVersion]
    assigns the member to itself. *)
Definition fields : list (Field t) :=
  [ READWRITE (fun x : t => CBaseTx.nVersion x) set_nVersion (VARINT 32);
    READWRITE (fun x : t => CBaseTx.valid_height x) set_valid_height (VARINT 32);
    READWRITE (fun x : t => CBaseTx.txUid x) set_txUid CUserID_codec;
    READWRITE (fun x : t => CBaseTx.fee_symbol x) set_fee_symbol string_codec;
    READWRITE (fun x : t => CBaseTx.llFees x) set_llFees (VARINT 64);
    READWRITE coin_symbol set_coin_symbol string_codec;
    READWRITE asset_symbol set_asset_symbol string_codec;
    READWRITE asset_amount set_asset_amount (VARINT 64);
    READWRITE price set_price (VARINT 64);
    READWRITE (fun x : t => CBaseTx.signature x) set_signature (vector MAX_SIZE uint8) ].

Definition Serialize (this : t) : list byte := SerializeFields fields this.

Definition Unserialize (this : t) : Reader t := UnserializeFields fields this.

End WithExternal.
End CDEXSellLimitOrderTx.

Module CDEXSellLimitOrderExTx.
Import CDEXOrderBaseTx.
Section WithExternal.
Context {E : External}.

Definition ctor (txUidIn : CUserID) (validHeightIn : Z) (feeSymbol : TokenSymbol)
    (fees : Z) (modeIn : OrderOperatorMode.t) (dexIdIn : DexID) (orderFeeRatioIn : Z)
    (coinSymbol assetSymbol : TokenSymbol) (assetAmount : Z) (priceIn : Z) (memoIn : string)
    (pOperatorRegidIn : option CRegID) : t :=
  CDEXSellLimitOrderBaseTx.ctor DEX_LIMIT_SELL_ORDER_EX_TX txUidIn validHeightIn feeSymbol fees
    modeIn dexIdIn orderFeeRatioIn coinSymbol assetSymbol assetAmount priceIn (ref_to memoIn)
    pOperatorRegidIn.

(** The contents of [ss] when [ss.GetHash()] is called. *)
Definition signature_hash_stream (this : t) : list byte :=
  CHashWriter_ctor
    <<[VARINT 32] CBaseTx.nVersion this
    <<[uint8] TxType_code (CBaseTx.nTxType this)
    <<[VARINT 32] CBaseTx.valid_height this
    <<[CUserID_codec] CBaseTx.txUid this
    <<[string_codec] CBaseTx.fee_symbol this
    <<[VARINT 64] CBaseTx.llFees this
    <<[VARINT 8] Z_of_byte (OrderOperatorMode.value (mode this))
    <<[VARINT 32] dex_id this
    <<[VARINT 64] operator_fee_ratio this
    <<[string_codec] coin_symbol this
    <<[string_codec] asset_symbol this
    <<[VARINT 64] asset_amount this
    <<[VARINT 64] price this
    <<[string_codec] memo this
    <<[optional CRegID_codec] GetOperatorRegid this.

(** [TxID ComputeSignatureHash(bool recalculate = false) const]: the hash
    returned and the object with its cache. *)
Definition ComputeSignatureHash (recalculate : bool) (this : t) : uint256 * t :=
  if recalculate || uint256_IsNull (CBaseTx.sigHash this) then
    let ss := signature_hash_stream this in
    let this := set_sigHash (CHashWriter_GetHash ss) this in
    (CBaseTx.sigHash this, this)
  else (CBaseTx.sigHash this, this).

(** The serialization of [CSignaturePair] is in tx.h and is taken as given. *)
Variable CSignaturePair_codec : Codec CSignaturePair.t.

(** The statements of [IMPLEMENT_SERIALIZE]; [nVersion = this->nVersion]
    assigns the member to itself. *)
Definition fields : list (Field t) :=
  [ READWRITE (fun x : t => CBaseTx.nVersion x) set_nVersion (VARINT 32);
    READWRITE (fun x : t => CBaseTx.valid_height x) set_valid_height (VARINT 32);
    READWRITE (fun x : t => CBaseTx.txUid x) set_txUid CUserID_codec;
    READWRITE (fun x : t => CBaseTx.fee_symbol x) set_fee_symbol string_codec;
    READWRITE (fun x : t => CBaseTx.llFees x) set_llFees (VARINT 64);
    READWRITE mode_byte set_mode_byte (VARINT 8);
    READWRITE dex_id set_dex_id (VARINT 32);
    READWRITE operator_fee_ratio set_operator_fee_ratio (VARINT 64);
    READWRITE coin_symbol set_coin_symbol string_codec;
    READWRITE asset_symbol set_asset_symbol string_codec;
    READWRITE asset_amount set_asset_amount (VARINT 64);
    READWRITE price set_price (VARINT 64);
    READWRITE memo set_memo string_codec;
    READWRITE operator_signature_pair set_operator_signature_pair
      (optional CSignaturePair_codec);
    READWRITE (fun x : t => CBaseTx.signature x) set_signature (vector MAX_SIZE uint8) ].

Definition Serialize (this : t) : list byte := SerializeFields fields this.

Definition Unserialize (this : t) : Reader t := UnserializeFields fields this.

End WithExternal.
End CDEXSellLimitOrderExTx.

Module CDEXBuyMarketOrderBaseTx.
Import CDEXOrderBaseTx.
Section WithExternal.
Context {E : External}.

Definition ctor (nTxTypeIn : TxType) (txUidIn : CUserID) (validHeightIn : Z)
    (feeSymbol : TokenSymbol) (fees : Z) (modeIn : OrderOperatorMode.t) (dexIdIn : DexID)
    (orderFeeRatioIn : Z) (coinSymbol assetSymbol : TokenSymbol) (coinAmountIn : Z)
    (memoIn : StringRef) (pOperatorRegidIn : option CRegID) : t :=
  let this := CDEXOrderBaseTx.ctor nTxTypeIn txUidIn validHeightIn feeSymbol fees in
  let this := set_mode modeIn this in
  let this := set_dex_id dexIdIn this in
  let this := set_operator_fee_ratio orderFeeRatioIn this in
  let this := set_order_type ORDER_MARKET_PRICE this in
  let this := set_order_side ORDER_BUY this in
  let this := set_coin_symbol coinSymbol this in
  let this := set_asset_symbol assetSymbol this in
  let this := set_coin_amount coinAmountIn this in
  let this := set_asset_amount 0 this in
  let this := set_price 0 this in
  let this := set_memo (deref memoIn this) this in
  SetOperatorRegid pOperatorRegidIn this.

End WithExternal.
End CDEXBuyMarketOrderBaseTx.

Module CDEXBuyMarketOrderTx.
Import CDEXOrderBaseTx.
Section WithExternal.
Context {E : External}.

Definition ctor (txUidIn : CUserID) (validHeightIn : Z) (feeSymbol : TokenSymbol)
    (fees : Z) (coinSymbol assetSymbol : TokenSymbol) (coinAmountIn : Z) : t :=
  CDEXBuyMarketOrderBaseTx.ctor DEX_MARKET_BUY_ORDER_TX txUidIn validHeightIn feeSymbol fees
    (OrderOperatorMode.of_Mode OrderOperatorMode.DEFAULT) DEX_RESERVED_ID 0 coinSymbol
    assetSymbol coinAmountIn (ref_to EmptyString) None.

(** The contents of [ss] when [ss.GetHash()] is called. *)
Definition signature_hash_stream (this : t) : list byte :=
  CHashWriter_ctor
    <<[VARINT 32] CBaseTx.nVersion this
    <<[uint8] TxType_code (CBaseTx.nTxType this)
    <<[VARINT 32] CBaseTx.valid_height this
    <<[CUserID_codec] CBaseTx.txUid this
    <<[string_codec] CBaseTx.fee_symbol this
    <<[VARINT 64] CBaseTx.llFees this
    <<[string_codec] coin_symbol this
    <<[string_codec] asset_symbol this
    <<[VARINT 64] coin_amount this.

(** [TxID ComputeSignatureHash(bool recalculate = false) const]: the hash
    returned and the object with its cache. *)
Definition ComputeSignatureHash (recalculate : bool) (this : t) : uint256 * t :=
  if recalculate || uint256_IsNull (CBaseTx.sigHash this) then
    let ss := signature_hash_stream this in
    let this := set_sigHash (CHashWriter_GetHash ss) this in
    (CBaseTx.sigHash this, this)
  else (CBaseTx.sigHash this, this).

(** The statements of [IMPLEMENT_SERIALIZE]; [nVersion = this->nVersion]
    assigns the member to itself. *)
Definition fields : list (Field t) :=
  [ READWRITE (fun x : t => CBaseTx.nVersion x) set_nVersion (VARINT 32);
    READWRITE (fun x : t => CBaseTx.valid_height x) set_valid_height (VARINT 32);
    READWRITE (fun x : t => CBaseTx.txUid x) set_txUid CUserID_codec;
    READWRITE (fun x : t => CBaseTx.fee_symbol x) set_fee_symbol string_codec;
    READWRITE (fun x : t => CBaseTx.llFees x) set_llFees (VARINT 64);
    READWRITE coin_symbol set_coin_symbol string_codec;
    READWRITE asset_symbol set_asset_symbol string_codec;
    READWRITE coin_amount set_coin_amount (VARINT 64);
    READWRITE (fun x : t => CBaseTx.signature x) set_signature (vector MAX_SIZE uint8) ].

Definition Serialize (this : t) : list byte := SerializeFields fields this.

Definition Unserialize (this : t) : Reader t := UnserializeFields fields this.

End WithExternal.
End CDEXBuyMarketOrderTx.

Module CDEXBuyMarketOrderExTx.
Import CDEXOrderBaseTx.
Section WithExternal.
Context {E : External}.

(** The mem-initializer passes [memo], the member of the object under
    construction, where the sibling classes pass [memoIn]. *)
Definition ctor (txUidIn : CUserID) (validHeightIn : Z) (feeSymbol : TokenSymbol)
    (fees : Z) (modeIn : OrderOperatorMode.t) (dexIdIn : DexID) (orderFeeRatioIn : Z)
    (coinSymbol assetSymbol : TokenSymbol) (coinAmountIn : Z) (memoIn : string)
    (pOperatorRegidIn : option CRegID) : t :=
  CDEXBuyMarketOrderBaseTx.ctor DEX_MARKET_BUY_ORDER_EX_TX txUidIn validHeightIn feeSymbol fees
    modeIn dexIdIn orderFeeRatioIn coinSymbol assetSymbol coinAmountIn ref_to_member_memo
    pOperatorRegidIn.

(** The contents of [ss] when [ss.GetHash()] is called. *)
Definition signature_hash_stream (this : t) : list byte :=
  CHashWriter_ctor
    <<[VARINT 32] CBaseTx.nVersion this
    <<[uint8] TxType_code (CBaseTx.nTxType this)
    <<[VARINT 32] CBaseTx.valid_height this
    <<[CUserID_codec] CBaseTx.txUid this
    <<[string_codec] CBaseTx.fee_symbol this
    <<[VARINT 64] CBaseTx.llFees this
    <<[VARINT 8] Z_of_byte (OrderOperatorMode.value (mode this))
    <<[VARINT 32] dex_id this
    <<[VARINT 64] operator_fee_ratio this
    <<[string_codec] coin_symbol this
    <<[string_codec] asset_symbol this
    <<[VARINT 64] coin_amount this
    <<[string_codec] memo this
    <<[optional CRegID_codec] GetOperatorRegid this.

(** [TxID ComputeSignatureHash(bool recalculate = false) const]: the hash
    returned and the object with its cache. *)
Definition ComputeSignatureHash (recalculate : bool) (this : t) : uint256 * t :=
  if recalculate || uint256_IsNull (CBaseTx.sigHash this) then
    let ss := signature_hash_stream this in
    let this := set_sigHash (CHashWriter_GetHash ss) this in
    (CBaseTx.sigHash this, this)
  else (CBaseTx.sigHash this, this).

(** The serialization of [CSignaturePair] is in tx.h and is taken as given. *)
Variable CSignaturePair_codec : Codec CSignaturePair.t.

(** The statements of [IMPLEMENT_SERIALIZE]; [nVersion = this->nVersion]
    assigns the member to itself. *)
Definition fields : list (Field t) :=
  [ READWRITE (fun x : t => CBaseTx.nVersion x) set_nVersion (VARINT 32);
    READWRITE (fun x : t => CBaseTx.valid_height x) set_valid_height (VARINT 32);
    READWRITE (fun x : t => CBaseTx.txUid x) set_txUid CUserID_codec;
    READWRITE mode_byte set_mode_byte (VARINT 8);
    READWRITE dex_id set_dex_id (VARINT 32);
    READWRITE operator_fee_ratio set_operator_fee_ratio (VARINT 64);
    READWRITE (fun x : t => CBaseTx.fee_symbol x) set_fee_symbol string_codec;
    READWRITE (fun x : t => CBaseTx.llFees x) set_llFees (VARINT 64);
    READWRITE coin_symbol set_coin_symbol string_codec;
    READWRITE asset_symbol set_asset_symbol string_codec;
    READWRITE coin_amount set_coin_amount (VARINT 64);
    READWRITE memo set_memo string_codec;
    READWRITE operator_signature_pair set_operator_signature_pair
      (optional CSignaturePair_codec);
    READWRITE (fun x : t => CBaseTx.signature x) set_signature (vector MAX_SIZE uint8) ].

Definition Serialize (this : t) : list byte := SerializeFields fields this.

Definition Unserialize (this : t) : Reader t := UnserializeFields fields this.

End WithExternal.
End CDEXBuyMarketOrderExTx.

Module CDEXSellMarketOrderBaseTx.
Import CDEXOrderBaseTx.
Section WithExternal.
Context {E : External}.

Definition ctor (nTxTypeIn : TxType) (txUidIn : CUserID) (validHeightIn : Z)
    (feeSymbol : TokenSymbol) (fees : Z) (modeIn : OrderOperatorMode.t) (dexIdIn : DexID)
    (orderFeeRatioIn : Z) (coinSymbol assetSymbol : TokenSymbol) (assetAmountIn : Z)
    (memoIn : StringRef) (pOperatorRegidIn : option CRegID) : t :=
  let this := CDEXOrderBaseTx.ctor nTxTypeIn txUidIn validHeightIn feeSymbol fees in
  let this := set_mode modeIn this in
  let this := set_dex_id dexIdIn this in
  let this := set_operator_fee_ratio orderFeeRatioIn this in
  let this := set_order_type ORDER_MARKET_PRICE this in
  let this := set_order_side ORDER_SELL this in
  let this := set_coin_symbol coinSymbol this in
  let this := set_asset_symbol assetSymbol this in
  let this := set_coin_amount 0 this in
  let this := set_asset_amount assetAmountIn this in
  let this := set_price 0 this in
  let this := set_memo (deref memoIn this) this in
  SetOperatorRegid pOperatorRegidIn this.

End WithExternal.
End CDEXSellMarketOrderBaseTx.

Module CDEXSellMarketOrderTx.
Import CDEXOrderBaseTx.
Section WithExternal.
Context {E : External}.

Definition ctor (txUidIn : CUserID) (validHeightIn : Z) (feeSymbol : TokenSymbol)
    (fees : Z) (coinSymbol assetSymbol : TokenSymbol) (assetAmountIn : Z) : t :=
  CDEXSellMarketOrderBaseTx.ctor DEX_MARKET_SELL_ORDER_TX txUidIn validHeightIn feeSymbol fees
    (OrderOperatorMode.of_Mode OrderOperatorMode.DEFAULT) DEX_RESERVED_ID 0 coinSymbol
    assetSymbol assetAmountIn (ref_to EmptyString) None.

(** The contents of [ss] when [ss.GetHash()] is called. *)
Definition signature_hash_stream (this : t) : list byte :=
  CHashWriter_ctor
    <<[VARINT 32] CBaseTx.nVersion this
    <<[uint8] TxType_code (CBaseTx.nTxType this)
    <<[VARINT 32] CBaseTx.valid_height this
    <<[CUserID_codec] CBaseTx.txUid this
    <<[string_codec] CBaseTx.fee_symbol this
    <<[VARINT 64] CBaseTx.llFees this
    <<[string_codec] coin_symbol this
    <<[string_codec] asset_symbol this
    <<[VARINT 64] asset_amount this.

(** [TxID ComputeSignatureHash(bool recalculate = false) const]: the hash
    returned and the object with its cache. *)
Definition ComputeSignatureHash (recalculate : bool) (this : t) : uint256 * t :=
  if recalculate || uint256_IsNull (CBaseTx.sigHash this) then
    let ss := signature_hash_stream this in
    let this := set_sigHash (CHashWriter_GetHash ss) this in
    (CBaseTx.sigHash this, this)
  else (CBaseTx.sigHash this, this).

(** The statements of [IMPLEMENT_SERIALIZE]; [nVersion = this->nVersion]
    assigns the member to itself. *)
Definition fields : list (Field t) :=
  [ READWRITE (fun x : t => CBaseTx.nVersion x) set_nVersion (VARINT 32);
    READWRITE (fun x : t => CBaseTx.valid_height x) set_valid_height (VARINT 32);
    READWRITE (fun x : t => CBaseTx.txUid x) set_txUid CUserID_codec;
    READWRITE (fun x : t => CBaseTx.fee_symbol x) set_fee_symbol string_codec;
    READWRITE (fun x : t => CBaseTx.llFees x) set_llFees (VARINT 64);
    READWRITE coin_symbol set_coin_symbol string_codec;
    READWRITE asset_symbol set_asset_symbol string_codec;
    READWRITE asset_amount set_asset_amount (VARINT 64);
    READWRITE (fun x : t => CBaseTx.signature x) set_signature (vector MAX_SIZE uint8) ].

Definition Serialize (this : t) : list byte := SerializeFields fields this.

Definition Unserialize (this : t) : Reader t := UnserializeFields fields this.

End WithExternal.
End CDEXSellMarketOrderTx.

Module CDEXSellMarketOrderExTx.
Import CDEXOrderBaseTx.
Section WithExternal.
Context {E : External}.

Definition ctor (txUidIn : CUserID) (validHeightIn : Z) (feeSymbol : TokenSymbol)
    (fees : Z) (modeIn : OrderOperatorMode.t) (dexIdIn : DexID) (orderFeeRatioIn : Z)
    (coinSymbol assetSymbol : TokenSymbol) (assetAmountIn : Z) (memoIn : string)
    (pOperatorRegidIn : option CRegID) : t :=
  CDEXSellMarketOrderBaseTx.ctor DEX_MARKET_SELL_ORDER_EX_TX txUidIn validHeightIn feeSymbol fees
    modeIn dexIdIn orderFeeRatioIn coinSymbol assetSymbol assetAmountIn (ref_to memoIn)
    pOperatorRegidIn.

(** The contents of [ss] when [ss.GetHash()] is called. *)
Definition signature_hash_stream (this : t) : list byte :=
  CHashWriter_ctor
    <<[VARINT 32] CBaseTx.nVersion this
    <<[uint8] TxType_code (CBaseTx.nTxType this)
    <<[VARINT 32] CBaseTx.valid_height this
    <<[CUserID_codec] CBaseTx.txUid this
    <<[string_codec] CBaseTx.fee_symbol this
    <<[VARINT 64] CBaseTx.llFees this
    <<[VARINT 8] Z_of_byte (OrderOperatorMode.value (mode this))
    <<[VARINT 32] dex_id this
    <<[VARINT 64] operator_fee_ratio this
    <<[string_codec] coin_symbol this
    <<[string_codec] asset_symbol this
    <<[VARINT 64] asset_amount this
    <<[string_codec] memo this
    <<[optional CRegID_codec] GetOperatorRegid this.

(** [TxID ComputeSignatureHash(bool recalculate = false) const]: the hash
    returned and the object with its cache. *)
Definition ComputeSignatureHash (recalculate : bool) (this : t) : uint256 * t :=
  if recalculate || uint256_IsNull (CBaseTx.sigHash this) then
    let ss := signature_hash_stream this in
    let this := set_sigHash (CHashWriter_GetHash ss) this in
    (CBaseTx.sigHash this, this)
  else (CBaseTx.sigHash this, this).

(** The serialization of [CSignaturePair] is in tx.h and is taken as given. *)
Variable CSignaturePair_codec : Codec CSignaturePair.t.

(** The statements of [IMPLEMENT_SERIALIZE]; [nVersion = this->nVersion]
    assigns the member to itself. *)
Definition fields : list (Field t) :=
  [ READWRITE (fun x : t => CBaseTx.nVersion x) set_nVersion (VARINT 32);
    READWRITE (fun x : t => CBaseTx.valid_height x) set_valid_height (VARINT 32);
    READWRITE (fun x : t => CBaseTx.txUid x) set_txUid CUserID_codec;
    READWRITE mode_byte set_mode_byte (VARINT 8);
    READWRITE dex_id set_dex_id (VARINT 32);
    READWRITE operator_fee_ratio set_operator_fee_ratio (VARINT 64);
    READWRITE (fun x : t => CBaseTx.fee_symbol x) set_fee_symbol string_codec;
    READWRITE (fun x : t => CBaseTx.llFees x) set_llFees (VARINT 64);
    READWRITE coin_symbol set_coin_symbol string_codec;
    READWRITE asset_symbol set_asset_symbol string_codec;
    READWRITE asset_amount set_asset_amount (VARINT 64);
    READWRITE memo set_memo string_codec;
    READWRITE operator_signature_pair set_operator_signature_pair
      (optional CSignaturePair_codec);
    READWRITE (fun x : t => CBaseTx.signature x) set_signature (vector MAX_SIZE uint8) ].

Definition Serialize (this : t) : list byte := SerializeFields fields this.

Definition Unserialize (this : t) : Reader t := UnserializeFields fields this.

End WithExternal.
End CDEXSellMarketOrderExTx.
(** ** tx/dextx.h: the cancel transaction *)

Module CDEXCancelOrderTx.
Section WithExternal.
Context {E : External}.

Record t : Type := Build {
  base :> CBaseTx.t;
  orderId : uint256
}.

Definition ctor (txUidIn : CUserID) (validHeightIn : Z) (feeSymbol : TokenSymbol)
    (fees : Z) (orderIdIn : uint256) : t :=
  {| base := CBaseTx.ctor DEX_CANCEL_ORDER_TX txUidIn validHeightIn feeSymbol fees;
     orderId := orderIdIn |}.

Definition set_base v (x : t) : t :=
  let '(Build _ b) := x in Build v b.
Definition set_orderId v (x : t) : t :=
  let '(Build a _) := x in Build a v.

(** Assignment to inherited members. *)
Definition set_nVersion v (x : t) : t := set_base (CBaseTx.set_nVersion v x) x.
Definition set_valid_height v (x : t) : t := set_base (CBaseTx.set_valid_height v x) x.
Definition set_txUid v (x : t) : t := set_base (CBaseTx.set_txUid v x) x.
Definition set_fee_symbol v (x : t) : t := set_base (CBaseTx.set_fee_symbol v x) x.
Definition set_llFees v (x : t) : t := set_base (CBaseTx.set_llFees v x) x.
Definition set_signature v (x : t) : t := set_base (CBaseTx.set_signature v x) x.
Definition set_sigHash v (x : t) : t := set_base (CBaseTx.set_sigHash v x) x.

Definition fields : list (Field t) :=
  [ READWRITE (fun x : t => CBaseTx.nVersion x) set_nVersion (VARINT 32);
    READWRITE (fun x : t => CBaseTx.valid_height x) set_valid_height (VARINT 32);
    READWRITE (fun x : t => CBaseTx.txUid x) set_txUid CUserID_codec;
    READWRITE (fun x : t => CBaseTx.fee_symbol x) set_fee_symbol string_codec;
    READWRITE (fun x : t => CBaseTx.llFees x) set_llFees (VARINT 64);
    READWRITE orderId set_orderId uint256_codec;
    READWRITE (fun x : t => CBaseTx.signature x) set_signature (vector MAX_SIZE uint8) ].

Definition Serialize (this : t) : list byte := SerializeFields fields this.

Definition Unserialize (this : t) : Reader t := UnserializeFields fields this.

(** The contents of [ss] when [ss.GetHash()] is called. *)
Definition signature_hash_stream (this : t) : list byte :=
  CHashWriter_ctor
    <<[VARINT 32] CBaseTx.nVersion this
    <<[uint8] TxType_code (CBaseTx.nTxType this)
    <<[VARINT 32] CBaseTx.valid_height this
    <<[CUserID_codec] CBaseTx.txUid this
    <<[string_codec] CBaseTx.fee_symbol this
    <<[VARINT 64] CBaseTx.llFees this
    <<[uint256_codec] orderId this.

Definition ComputeSignatureHash (recalculate : bool) (this : t) : uint256 * t :=
  if recalculate || uint256_IsNull (CBaseTx.sigHash this) then
    let ss := signature_hash_stream this in
    let this := set_sigHash (CHashWriter_GetHash ss) this in
    (CBaseTx.sigHash this, this)
  else (CBaseTx.sigHash this, this).

Definition well_formed (x : t) : Prop :=
  CBaseTx.well_formed x /\ representable uint256_codec (orderId x).

End WithExternal.
Arguments t {E}.
End CDEXCancelOrderTx.

(** ** tx/dextx.h: settle transactions *)

Module CDEXSettleBaseTx.
Section WithExternal.
Context {E : External}.

Record t : Type := Build {
  base :> CBaseTx.t;
  dex_id : DexID;
  dealItems : list DEXDealItem.t;
  memo : string
}.

Definition ctor (nTxTypeIn : TxType) (txUidIn : CUserID) (validHeightIn : Z)
    (feeSymbol : TokenSymbol) (fees : Z) (dexIdIn : DexID)
    (dealItemsIn : list DEXDealItem.t) (memoIn : string) : t :=
  {| base := CBaseTx.ctor nTxTypeIn txUidIn validHeightIn feeSymbol fees;
     dex_id := dexIdIn;
     dealItems := dealItemsIn;
     memo := memoIn |}.

Definition set_base v (x : t) : t :=
  let '(Build _ b c d) := x in Build v b c d.
Definition set_dex_id v (x : t) : t :=
  let '(Build a _ c d) := x in Build a v c d.
Definition set_dealItems v (x : t) : t :=
  let '(Build a b _ d) := x in Build a b v d.
Definition set_memo v (x : t) : t :=
  let '(Build a b c _) := x in Build a b c v.

(** Assignment to inherited members. *)
Definition set_nVersion v (x : t) : t := set_base (CBaseTx.set_nVersion v x) x.
Definition set_valid_height v (x : t) : t := set_base (CBaseTx.set_valid_height v x) x.
Definition set_txUid v (x : t) : t := set_base (CBaseTx.set_txUid v x) x.
Definition set_fee_symbol v (x : t) : t := set_base (CBaseTx.set_fee_symbol v x) x.
Definition set_llFees v (x : t) : t := set_base (CBaseTx.set_llFees v x) x.
Definition set_signature v (x : t) : t := set_base (CBaseTx.set_signature v x) x.
Definition set_sigHash v (x : t) : t := set_base (CBaseTx.set_sigHash v x) x.

Definition AddDealItem (item : DEXDealItem.t) (this : t) : t :=
  set_dealItems (dealItems this ++ [item]) this.

Definition GetDealItems (this : t) : list DEXDealItem.t := dealItems this.

(** The members hold values of their C++ types. *)
Definition well_formed (x : t) : Prop :=
  CBaseTx.well_formed x
  /\ 0 <= dex_id x < 2 ^ 32
  /\ Z.of_nat (List.length (dealItems x)) < 2 ^ 64
  /\ Z.of_nat (List.length (dealItems x)) <= MAX_SIZE
  /\ Forall DEXDealItem.well_formed (dealItems x)
  /\ Z.of_nat (String.length (memo x)) < 2 ^ 64.

End WithExternal.
Arguments t {E}.
End CDEXSettleBaseTx.

Module CDEXSettleTx.
Import CDEXSettleBaseTx.
Section WithExternal.
Context {E : External}.

Definition ctor (txUidIn : CUserID) (validHeightIn : Z) (feeSymbol : TokenSymbol)
    (fees : Z) (dealItemsIn : list DEXDealItem.t) : t :=
  CDEXSettleBaseTx.ctor DEX_TRADE_SETTLE_TX txUidIn validHeightIn feeSymbol fees
    DEX_RESERVED_ID dealItemsIn EmptyString.

(** The statements of [IMPLEMENT_SERIALIZE]; [nVersion = this->nVersion]
    assigns the member to itself. *)
Definition fields : list (Field t) :=
  [ READWRITE (fun x : t => CBaseTx.nVersion x) set_nVersion (VARINT 32);
    READWRITE (fun x : t => CBaseTx.valid_height x) set_valid_height (VARINT 32);
    READWRITE (fun x : t => CBaseTx.txUid x) set_txUid CUserID_codec;
    READWRITE (fun x : t => CBaseTx.fee_symbol x) set_fee_symbol string_codec;
    READWRITE (fun x : t => CBaseTx.llFees x) set_llFees (VARINT 64);
    READWRITE dealItems set_dealItems (vector MAX_SIZE DEXDealItem.codec);
    READWRITE (fun x : t => CBaseTx.signature x) set_signature (vector MAX_SIZE uint8) ].

Definition Serialize (this : t) : list byte := SerializeFields fields this.

Definition Unserialize (this : t) : Reader t := UnserializeFields fields this.

(** The contents of [ss] when [ss.GetHash()] is called. *)
Definition signature_hash_stream (this : t) : list byte :=
  CHashWriter_ctor
    <<[VARINT 32] CBaseTx.nVersion this
    <<[uint8] TxType_code (CBaseTx.nTxType this)
    <<[VARINT 32] CBaseTx.valid_height this
    <<[CUserID_codec] CBaseTx.txUid this
    <<[string_codec] CBaseTx.fee_symbol this
    <<[VARINT 64] CBaseTx.llFees this
    <<[vector MAX_SIZE DEXDealItem.codec] dealItems this.

Definition ComputeSignatureHash (recalculate : bool) (this : t) : uint256 * t :=
  if recalculate || uint256_IsNull (CBaseTx.sigHash this) then
    let ss := signature_hash_stream this in
    let this := set_sigHash (CHashWriter_GetHash ss) this in
    (CBaseTx.sigHash this, this)
  else (CBaseTx.sigHash this, this).

End WithExternal.
End CDEXSettleTx.

Module CDEXSettleExTx.
Import CDEXSettleBaseTx.
Section WithExternal.
Context {E : External}.

Definition ctor (txUidIn : CUserID) (validHeightIn : Z) (feeSymbol : TokenSymbol)
    (fees : Z) (dexIdIn : DexID) (dealItemsIn : list DEXDealItem.t) (memoIn : string) : t :=
  CDEXSettleBaseTx.ctor DEX_TRADE_SETTLE_TX txUidIn validHeightIn feeSymbol fees
    dexIdIn dealItemsIn memoIn.

Definition fields : list (Field t) :=
  [ READWRITE (fun x : t => CBaseTx.nVersion x) set_nVersion (VARINT 32);
    READWRITE (fun x : t => CBaseTx.valid_height x) set_valid_height (VARINT 32);
    READWRITE (fun x : t => CBaseTx.txUid x) set_txUid CUserID_codec;
    READWRITE (fun x : t => CBaseTx.fee_symbol x) set_fee_symbol string_codec;
    READWRITE (fun x : t => CBaseTx.llFees x) set_llFees (VARINT 64);
    READWRITE dex_id set_dex_id (VARINT 32);
    READWRITE dealItems set_dealItems (vector MAX_SIZE DEXDealItem.codec);
    READWRITE memo set_memo string_codec;
    READWRITE (fun x : t => CBaseTx.signature x) set_signature (vector MAX_SIZE uint8) ].

Definition Serialize (this : t) : list byte := SerializeFields fields this.

Definition Unserialize (this : t) : Reader t := UnserializeFields fields this.

(** The contents of [ss] when [ss.GetHash()] is called. *)
Definition signature_hash_stream (this : t) : list byte :=
  CHashWriter_ctor
    <<[VARINT 32] CBaseTx.nVersion this
    <<[uint8] TxType_code (CBaseTx.nTxType this)
    <<[VARINT 32] CBaseTx.valid_height this
    <<[CUserID_codec] CBaseTx.txUid this
    <<[string_codec] CBaseTx.fee_symbol this
    <<[VARINT 64] CBaseTx.llFees this
    <<[vector MAX_SIZE DEXDealItem.codec] dealItems this.

Definition ComputeSignatureHash (recalculate : bool) (this : t) : uint256 * t :=
  if recalculate || uint256_IsNull (CBaseTx.sigHash this) then
    let ss := signature_hash_stream this in
    let this := set_sigHash (CHashWriter_GetHash ss) this in
    (CBaseTx.sigHash this, this)
  else (CBaseTx.sigHash this, this).

End WithExternal.
End CDEXSettleExTx.

(** ** vm/wasm/abi_serializer.cpp: type names and typedefs

    The functions of the ABI serializer that read a type name or the
    typedef map.  [boost::starts_with] and [boost::ends_with] are the tests
    for a prefix and a suffix; [substr(0, n)] is the first [n] characters. *)

Module abi_serializer.

(** [type_name] is a [string] (abi_def.hpp). *)
Definition type_name : Type := string.

(** [boost::starts_with(input, test)]. *)
Definition starts_with (input test : string) : bool := String.prefix test input.

(** [boost::ends_with(input, test)]: the last [test.size()] characters of
    [input] are [test]. *)
Definition ends_with (input test : string) : bool :=
  (String.length test <=? String.length input)%nat
  && String.eqb (substring (String.length input - String.length test)
                           (String.length test) input) test.

Definition is_integer (type : type_name) : bool :=
  starts_with type "uint" || starts_with type "int".

Definition is_array (type : type_name) : bool := ends_with type "[]".

Definition is_optional (type : type_name) : bool := ends_with type "?".

Definition fundamental_type (type : type_name) : type_name :=
  if is_array type then substring 0 (String.length type - 2) type
  else if is_optional type then substring 0 (String.length type - 1) type
  else type.

Definition _remove_bin_extension (type : type_name) : type_name :=
  if ends_with type "$" then substring 0 (String.length type - 1) type
  else type.

(** [map<type_name, type_name>] as the list of its entries, whose keys are
    distinct in a list that stands for a map; [find] is the lookup of a key
    and [size] the number of entries. *)
Definition type_map : Type := list (type_name * type_name).

Fixpoint find (m : type_map) (key : type_name) : option type_name :=
  match m with
  | [] => None
  | (k, v) :: m' => if String.eqb k key then Some v else find m' key
  end.

Definition size (m : type_map) : nat := List.length m.

(** The loop of [resolve_type] with [i] rounds left; [second] is
    [itr->second]. *)
Fixpoint resolve_type_loop (typedefs : type_map) (i : nat) (type second : type_name)
    : type_name :=
  match i with
  | O => type
  | S i' =>
      let t := second in
      match find typedefs t with
      | None => t
      | Some second' => resolve_type_loop typedefs i' type second'
      end
  end.

Definition resolve_type (typedefs : type_map) (type : type_name) : type_name :=
  match find typedefs type with
  | Some second => resolve_type_loop typedefs (size typedefs) type second
  | None => type
  end.

(** What a call of [get_field_variant] with an index comes to: it throws a
    [pack_exception], it returns an element of the array, or it evaluates
    [a[index]] with [index] past the end of the array. *)
Inductive field_outcome (V : Type) : Type :=
| throws
| returns (v : V)
| reads_past_the_end.
Arguments throws {V}.
Arguments returns {V} _.
Arguments reads_past_the_end {V}.

(** [get_field_variant(s, v, index)]: [v] is the array the JSON value
    holds, if it holds one; [index] is a [uint32_t], and [a.size() - 1] is
    computed in [size_t], an unsigned type of [size_bits] bits. *)
Definition get_field_variant {V} (size_bits : Z) (v : option (list V)) (index : Z)
    : field_outcome V :=
  match v with
  | Some a =>
      if index >? (Z.of_nat (List.length a) - 1) mod 2 ^ size_bits then throws
      else match nth_error a (Z.to_nat index) with
           | Some x => returns x
           | None => reads_past_the_end
           end
  | None => throws
  end.
End abi_serializer.

(** ** A small implementation of the external interface

    Identifiers are pairs (height, index) written as two VARINTs, hashes are
    256-bit numbers, and the digest is a polynomial checksum.  It stands in
    for the node's libraries where a definition is run on a concrete value;
    every property below is proved for all implementations. *)

Module Fixture.

Definition pair_codec {A B} (a : Codec A) (b : Codec B) : Codec (A * B) :=
  mkCodec (fun p => Serialize a (fst p) ++ Serialize b (snd p))
          (x <- Unserialize a ;; y <- Unserialize b ;; ret (x, y))
          (fun p => representable a (fst p) /\ representable b (snd p)).

Definition id_codec : Codec (Z * Z) := pair_codec (VARINT 32) (VARINT 16).

Definition digest (s : list byte) : Z :=
  fold_left (fun h b => (h * 257 + Z_of_byte b + 1) mod 2 ^ 256) s 1.

Definition tx_type_code (ty : TxType) : byte :=
  match ty with
  | DEX_LIMIT_BUY_ORDER_TX => x54
  | DEX_LIMIT_SELL_ORDER_TX => x55
  | DEX_MARKET_BUY_ORDER_TX => x56
  | DEX_MARKET_SELL_ORDER_TX => x57
  | DEX_CANCEL_ORDER_TX => x58
  | DEX_TRADE_SETTLE_TX => x59
  | DEX_LIMIT_BUY_ORDER_EX_TX => x5a
  | DEX_LIMIT_SELL_ORDER_EX_TX => x5b
  | DEX_MARKET_BUY_ORDER_EX_TX => x5c
  | DEX_MARKET_SELL_ORDER_EX_TX => x5d
  end.

Definition external : External :=
  {| CUserID := Z * Z;
     CRegID := Z * Z;
     CTxCord := Z * Z;
     uint256 := Z;
     CUserID_codec := id_codec;
     CRegID_codec := id_codec;
     CTxCord_codec := id_codec;
     uint256_codec := VARINT 256;
     CRegID_ctor := (0, 0);
     CRegID_SetEmpty := fun _ => (0, 0);
     CTxCord_ctor := (0, 0);
     CTxCord_SetEmpty := fun _ => (0, 0);
     uint256_ctor := 0;
     uint256_IsNull := fun h => h =? 0;
     CHashWriter_GetHash := digest;
     TxType_code := tx_type_code;
     CURRENT_VERSION := 1;
     MAX_SIZE := 33554432 |}.

#[local] Existing Instance external.

(** An order record of a user's limit buy order placed on DEX 7 under
    operator authentication. *)
Definition order_detail : @CDEXOrderDetail.t external :=
  {| CDEXOrderDetail.mode := OrderOperatorMode.of_Mode OrderOperatorMode.REQUIRE_AUTH;
     CDEXOrderDetail.dex_id := 7;
     CDEXOrderDetail.operator_fee_ratio := 400000;
     CDEXOrderDetail.generate_type := USER_GEN_ORDER;
     CDEXOrderDetail.order_type := ORDER_LIMIT_PRICE;
     CDEXOrderDetail.order_side := ORDER_BUY;
     CDEXOrderDetail.coin_symbol := "WUSD"%string;
     CDEXOrderDetail.asset_symbol := "WICC"%string;
     CDEXOrderDetail.coin_amount := 5000000000;
     CDEXOrderDetail.asset_amount := 5;
     CDEXOrderDetail.price := 1000000000;
     CDEXOrderDetail.tx_cord := (1200, 3);
     CDEXOrderDetail.user_regid := (1000, 2);
     CDEXOrderDetail.total_deal_coin_amount := 300;
     CDEXOrderDetail.total_deal_asset_amount := 3 |}.

Definition active_order : @CDEXActiveOrder.t external :=
  {| CDEXActiveOrder.generate_type := USER_GEN_ORDER;
     CDEXActiveOrder.tx_cord := (1200, 3);
     CDEXActiveOrder.total_deal_coin_amount := 300;
     CDEXActiveOrder.total_deal_asset_amount := 3 |}.

Definition operator_detail : @DexOperatorDetail.t external :=
  {| DexOperatorDetail.owner_regid := (10, 1);
     DexOperatorDetail.match_regid := (10, 2);
     DexOperatorDetail.name := "dex7"%string;
     DexOperatorDetail.portal_url := "https://dex7.example"%string;
     DexOperatorDetail.maker_fee_ratio := 40000;
     DexOperatorDetail.taker_fee_ratio := 80000;
     DexOperatorDetail.memo := "seven"%string |}.

Definition deal_item : @DEXDealItem.t external :=
  {| DEXDealItem.buyOrderId := 123456789;
     DEXDealItem.sellOrderId := 987654321;
     DEXDealItem.dealPrice := 1000000000;
     DEXDealItem.dealCoinAmount := 50;
     DEXDealItem.dealAssetAmount := 5 |}.

(** Two extended settle transactions of the matcher (10, 2) that differ in
    dex_id and memo only, and the basic one with the same deal item. *)
Definition settle_ex_1 : @CDEXSettleBaseTx.t external :=
  CDEXSettleExTx.ctor (10, 2) 1500 "WICC"%string 10000 7 [deal_item] "batch one"%string.

Definition settle_ex_2 : @CDEXSettleBaseTx.t external :=
  CDEXSettleExTx.ctor (10, 2) 1500 "WICC"%string 10000 8 [deal_item] "batch two"%string.

Definition settle_basic : @CDEXSettleBaseTx.t external :=
  CDEXSettleTx.ctor (10, 2) 1500 "WICC"%string 10000 [deal_item].

(** An extended limit buy order co-signed by the operator (10, 1). *)
Definition limit_buy_ex : @CDEXOrderBaseTx.t external :=
  CDEXBuyLimitOrderExTx.ctor (1000, 2) 1500 "WICC"%string 10000
    (OrderOperatorMode.of_Mode OrderOperatorMode.REQUIRE_AUTH) 7 400000
    "WUSD"%string "WICC"%string 5 1000000000 "limit buy"%string (Some (10, 1)).

(** A cancel transaction, and basic orders of the user (1000, 2). *)
Definition cancel : @CDEXCancelOrderTx.t external :=
  CDEXCancelOrderTx.ctor (1000, 2) 1500 "WICC"%string 10000 123456789.

Definition limit_buy : @CDEXOrderBaseTx.t external :=
  CDEXBuyLimitOrderTx.ctor (1000, 2) 1500 "WICC"%string 10000
    "WUSD"%string "WICC"%string 5 1000000000.

Definition limit_sell : @CDEXOrderBaseTx.t external :=
  CDEXSellLimitOrderTx.ctor (1000, 2) 1500 "WICC"%string 10000
    "WUSD"%string "WICC"%string 5 1000000000.

Definition market_buy : @CDEXOrderBaseTx.t external :=
  CDEXBuyMarketOrderTx.ctor (1000, 2) 1500 "WICC"%string 10000
    "WUSD"%string "WICC"%string 5000000000.

(** The extended limit buy order with signatures in place. *)
Definition limit_buy_ex_signed : @CDEXOrderBaseTx.t external :=
  CDEXOrderBaseTx.with_signatures [x30; x45; x02] [x30; x44] limit_buy_ex.

(** A signature pair on the wire: the regid, then the signature. *)
Definition set_regid (v : Z * Z) (p : @CSignaturePair.t external) : CSignaturePair.t :=
  CSignaturePair.Build v (CSignaturePair.signature p).

Definition signature_pair_fields : list (Field (@CSignaturePair.t external)) :=
  [ READWRITE CSignaturePair.regid set_regid id_codec;
    READWRITE CSignaturePair.signature CSignaturePair.set_signature
      (vector 33554432 uint8) ].

Definition signature_pair_codec : Codec (@CSignaturePair.t external) :=
  mkCodec (SerializeFields signature_pair_fields)
          (UnserializeFields signature_pair_fields (CSignaturePair.ctor (0, 0)))
          (fields_representable signature_pair_fields).

(** The settle transaction after its hash has been computed. *)
Definition settle_ex_hashed : @CDEXSettleBaseTx.t external :=
  snd (CDEXSettleExTx.ComputeSignatureHash false settle_ex_1).

(** [CRegID::IsEmpty] for the regids of this implementation. *)
Definition regid_is_empty (r : Z * Z) : bool := (fst r =? 0) && (snd r =? 0).

(** The extended limit buy order after its hash has been computed. *)
Definition limit_buy_ex_hashed : @CDEXOrderBaseTx.t external :=
  snd (CDEXBuyLimitOrderExTx.ComputeSignatureHash false limit_buy_ex).

(** Another cancel transaction, of the user (1000, 3). *)
Definition cancel_other : @CDEXCancelOrderTx.t external :=
  CDEXCancelOrderTx.ctor (1000, 3) 1600 "WUSD"%string 20000 987654321.

(** A base object for a default-constructed transaction of type [tag]. *)
Definition default_base (tag : TxType) : @CBaseTx.t external :=
  CBaseTx.ctor tag (0, 0) 0 EmptyString 0.

(** Typedefs of an ABI: owner is an account_name, which is a name. *)
Definition typedefs : abi_serializer.type_map :=
  [ ("account_name", "name"); ("owner", "account_name") ]%string.

Definition typedef_rank (type : abi_serializer.type_name) : nat :=
  if String.eqb type "owner" then 2
  else if String.eqb type "account_name" then 1
  else 0.

End Fixture.

(** ** The specification's vocabulary *)

Section Vocabulary.
Context {E : External}.
Import (coercions) CDEXOrderBaseTx CDEXSettleBaseTx.

(** The preimage the specification gives for a basic limit order. *)
Definition basic_limit_preimage (tx : CDEXOrderBaseTx.t) : list byte :=
  WriteVarInt 32 (CBaseTx.nVersion tx)
  ++ WriteByte (TxType_code (CBaseTx.nTxType tx))
  ++ WriteVarInt 32 (CBaseTx.valid_height tx)
  ++ Serialize CUserID_codec (CBaseTx.txUid tx)
  ++ WriteString (CBaseTx.fee_symbol tx)
  ++ WriteVarInt 64 (CBaseTx.llFees tx)
  ++ WriteString (CDEXOrderBaseTx.coin_symbol tx)
  ++ WriteString (CDEXOrderBaseTx.asset_symbol tx)
  ++ WriteVarInt 64 (CDEXOrderBaseTx.asset_amount tx)
  ++ WriteVarInt 64 (CDEXOrderBaseTx.price tx).

(** The signature hash of an order class, given by the bytes it hashes and
    its [ComputeSignatureHash], leaves out the signatures: a transaction
    that differs only in signature bytes hashes the same bytes and gets the
    same hash. *)
Definition excludes_signatures (stream : CDEXOrderBaseTx.t -> list byte)
    (ComputeSignatureHash : bool -> CDEXOrderBaseTx.t -> uint256 * CDEXOrderBaseTx.t)
    : Prop :=
  forall tx userSignature operatorSignature recalculate,
    stream (CDEXOrderBaseTx.with_signatures userSignature operatorSignature tx)
    = stream tx
    /\ fst (ComputeSignatureHash recalculate
              (CDEXOrderBaseTx.with_signatures userSignature operatorSignature tx))
       = fst (ComputeSignatureHash recalculate tx).

(** When it computes the hash, [ComputeSignatureHash] returns the digest of
    the bytes of [stream]. *)
Definition returns_digest_of (stream : CDEXOrderBaseTx.t -> list byte)
    (ComputeSignatureHash : bool -> CDEXOrderBaseTx.t -> uint256 * CDEXOrderBaseTx.t)
    : Prop :=
  forall tx recalculate,
    fst (ComputeSignatureHash recalculate tx)
    = if recalculate || uint256_IsNull (CBaseTx.sigHash tx)
      then CHashWriter_GetHash (stream tx)
      else CBaseTx.sigHash tx.

(** The signature hash takes in the operator regid: two transactions that
    differ only in their operator pairs, the regids of the pairs being
    different, hash different bytes; whenever the hash is computed (on
    [recalculate], or with no hash cached), the hashes returned for them
    are the digests of these different bytes. *)
Definition includes_operator_regid (stream : CDEXOrderBaseTx.t -> list byte)
    (ComputeSignatureHash : bool -> CDEXOrderBaseTx.t -> uint256 * CDEXOrderBaseTx.t)
    : Prop :=
  forall tx pair1 pair2,
    let tx1 := CDEXOrderBaseTx.set_operator_signature_pair pair1 tx in
    let tx2 := CDEXOrderBaseTx.set_operator_signature_pair pair2 tx in
    representable (optional CRegID_codec) (CDEXOrderBaseTx.GetOperatorRegid tx1) ->
    representable (optional CRegID_codec) (CDEXOrderBaseTx.GetOperatorRegid tx2) ->
    CDEXOrderBaseTx.GetOperatorRegid tx1 <> CDEXOrderBaseTx.GetOperatorRegid tx2 ->
    stream tx1 <> stream tx2
    /\ (forall recalculate,
          recalculate || uint256_IsNull (CBaseTx.sigHash tx) = true ->
          fst (ComputeSignatureHash recalculate tx1) = CHashWriter_GetHash (stream tx1)
          /\ fst (ComputeSignatureHash recalculate tx2) = CHashWriter_GetHash (stream tx2)).

End Vocabulary.

(** ** Further vocabulary *)

Section CoverageVocabulary.
Context {E : External}.

(** The signature-hash cache of a class, given by the member [sigHash], the
    assignment to it and [ComputeSignatureHash]: a call changes no member
    but [sigHash], which then holds the hash returned; a following call
    without [recalculate] returns the same hash and the same object, and
    one with [recalculate] the hash a recalculation would have given
    before. *)
Definition cache_transparent {T : Type} (sigHash : T -> uint256)
    (set_sigHash : uint256 -> T -> T)
    (ComputeSignatureHash : bool -> T -> uint256 * T) : Prop :=
  forall recalculate tx,
    let h := fst (ComputeSignatureHash recalculate tx) in
    let tx' := snd (ComputeSignatureHash recalculate tx) in
    tx' = set_sigHash h tx
    /\ sigHash tx' = h
    /\ ComputeSignatureHash false tx' = (h, tx')
    /\ fst (ComputeSignatureHash true tx') = fst (ComputeSignatureHash true tx).

(** Two transactions have the same common prefix of hashed members; of the
    type tag the hash sees the byte [(uint8_t)nTxType]. *)
Definition same_prefix (b1 b2 : CBaseTx.t) : Prop :=
  CBaseTx.nVersion b1 = CBaseTx.nVersion b2
  /\ TxType_code (CBaseTx.nTxType b1) = TxType_code (CBaseTx.nTxType b2)
  /\ CBaseTx.valid_height b1 = CBaseTx.valid_height b2
  /\ CBaseTx.txUid b1 = CBaseTx.txUid b2
  /\ CBaseTx.fee_symbol b1 = CBaseTx.fee_symbol b2
  /\ CBaseTx.llFees b1 = CBaseTx.llFees b2.

(** The base object after its serialized members were read from the wire
    form of [x] into [this]: the type tag and the cached hash are not on
    the wire. *)
Definition received_base (x this : CBaseTx.t) : CBaseTx.t :=
  {| CBaseTx.nVersion := CBaseTx.nVersion x;
     CBaseTx.nTxType := CBaseTx.nTxType this;
     CBaseTx.txUid := CBaseTx.txUid x;
     CBaseTx.valid_height := CBaseTx.valid_height x;
     CBaseTx.fee_symbol := CBaseTx.fee_symbol x;
     CBaseTx.llFees := CBaseTx.llFees x;
     CBaseTx.signature := CBaseTx.signature x;
     CBaseTx.sigHash := CBaseTx.sigHash this |}.

(** The members of the extended order classes that are hashed beside the
    prefix, the symbols and the amounts. *)
Definition same_operator_terms (tx1 tx2 : CDEXOrderBaseTx.t) : Prop :=
  CDEXOrderBaseTx.mode tx1 = CDEXOrderBaseTx.mode tx2
  /\ CDEXOrderBaseTx.dex_id tx1 = CDEXOrderBaseTx.dex_id tx2
  /\ CDEXOrderBaseTx.operator_fee_ratio tx1 = CDEXOrderBaseTx.operator_fee_ratio tx2
  /\ CDEXOrderBaseTx.memo tx1 = CDEXOrderBaseTx.memo tx2
  /\ CDEXOrderBaseTx.GetOperatorRegid tx1 = CDEXOrderBaseTx.GetOperatorRegid tx2.

End CoverageVocabulary.

(** ** Proof automation *)

Create HintDb codec_db.

(** Every statement of a field list has a codec that reads back what it
    writes. *)
Ltac fields_ok :=
  repeat (apply Forall_cons;
          [cbn [field_codec];
           first [ solve [auto with codec_db]
                 | apply CRegID_codec_ok | apply CTxCord_codec_ok
                 | apply uint256_codec_ok ]|]);
  apply Forall_nil.

(** The members named by a field list are representable. *)
Ltac fields_rep :=
  unfold fields_representable;
  repeat (apply Forall_cons;
          [cbn [field_codec field_get representable VARINT uint8 string_codec];
           first [exact I | assumption | lia | idtac]|]);
  try apply Forall_nil.

(** Deciding the ranges of a concrete record. *)
Ltac decide_well_formed :=
  vm_compute; repeat split; first [reflexivity | discriminate | exact I].

(** The laws of the identity library, for [auto]. *)
#[export] Hint Extern 1 (codec_ok CRegID_codec) => apply CRegID_codec_ok : codec_db.
#[export] Hint Extern 1 (codec_ok CTxCord_codec) => apply CTxCord_codec_ok : codec_db.
#[export] Hint Extern 1 (codec_ok uint256_codec) => apply uint256_codec_ok : codec_db.

(** The side conditions of a step through a stream: the codec reads back
    what it writes, and the member is a value of its C++ type. *)
Ltac codec_side :=
  first [ solve [auto with codec_db]
        | assumption
        | cbn [representable VARINT uint8 string_codec]; first [exact I | assumption | lia] ].

(** An equation [H] between two streams written by [<<], as an equation
    between right-nested concatenations that end in the empty stream. *)
Ltac flatten_streams H :=
  apply (f_equal (fun l : list byte => l ++ [])) in H; cbv beta in H;
  unfold stream_write, CHashWriter_ctor in H; cbn [app] in H;
  rewrite <- !app_assoc in H.

(** From an equation between two flattened streams to the equations between
    the members written, one by one; [inj] is the lemma that a codec which
    reads back what it writes writes different values differently. *)
Ltac peel_stream inj H :=
  repeat (apply inj in H; [destruct H as [? H] | codec_side ..]).

Ltac split_hyps := repeat match goal with H : _ /\ _ |- _ => destruct H end.

(** Deciding the ranges of a concrete record that holds a vector. *)
Ltac decide_ranges :=
  repeat first [split | apply Forall_cons | apply Forall_nil];
  vm_compute; first [reflexivity | discriminate | exact I].

(** * Properties *)

(** ** Bytes *)

Lemma Z_of_byte_range (b : byte) : 0 <= Z_of_byte b < 256.
Proof.
  unfold Z_of_byte. pose proof (Byte.to_N_bounded b). lia.
Qed.

Lemma Z_of_byte_of_Z (z : Z) : Z_of_byte (byte_of_Z z) = z mod 256.
Proof.
  unfold Z_of_byte, byte_of_Z.
  assert (Hr : 0 <= z mod 256 < 256) by (apply Z.mod_pos_bound; lia).
  destruct (Byte.of_N (Z.to_N (z mod 256))) eqn:Hb.
  - apply Byte.to_of_N in Hb. rewrite Hb. lia.
  - apply Byte.of_N_None_iff in Hb. lia.
Qed.

Lemma Z_of_byte_small (z : Z) : 0 <= z < 256 -> Z_of_byte (byte_of_Z z) = z.
Proof.
  intros Hz. rewrite Z_of_byte_of_Z. apply Z.mod_small, Hz.
Qed.

Lemma byte_eqb_neq (a b : byte) : a <> b -> Byte.eqb a b = false.
Proof.
  intros Hne. destruct (Byte.eqb a b) eqn:Heq; [|reflexivity].
  apply Byte.byte_dec_bl in Heq. contradiction.
Qed.

(** ** Seven-bit digits *)

Lemma low7_range (n : Z) : 0 <= Z.land n 127 < 128.
Proof.
  change 127 with (Z.ones 7). rewrite Z.land_ones by lia.
  apply Z.mod_pos_bound. lia.
Qed.

Lemma small_bits_above (d k : Z) : 0 <= d < 128 -> 7 <= k -> Z.testbit d k = false.
Proof.
  intros Hd Hk. destruct (Z.eq_dec d 0) as [->|Hnz]; [apply Z.bits_0|].
  apply Z.bits_above_log2; [lia|].
  apply Z.lt_le_trans with 7; [|exact Hk]. apply Z.log2_lt_pow2; lia.
Qed.

Lemma lor_continuation (d : Z) : 0 <= d < 128 -> Z.lor d 128 = d + 128.
Proof.
  intros Hd.
  assert (Hdisj : Z.land d 128 = 0).
  { apply Z.bits_inj'. intros k Hk. rewrite Z.land_spec, Z.bits_0.
    destruct (Z.eq_dec k 7) as [->|Hne].
    - rewrite small_bits_above by lia. reflexivity.
    - change 128 with (2 ^ 7). rewrite Z.pow2_bits_false by lia.
      apply andb_false_r. }
  rewrite <- Z.lxor_lor by exact Hdisj.
  rewrite <- Z.add_nocarry_lxor by exact Hdisj. reflexivity.
Qed.

Lemma shiftl7_lor (acc d : Z) : 0 <= d < 128 -> Z.lor (Z.shiftl acc 7) d = acc * 128 + d.
Proof.
  intros Hd.
  assert (Hdisj : Z.land (Z.shiftl acc 7) d = 0).
  { apply Z.bits_inj'. intros k Hk. rewrite Z.land_spec, Z.bits_0.
    destruct (Z_lt_dec k 7) as [Hlt|Hge].
    - rewrite Z.shiftl_spec_low by lia. reflexivity.
    - rewrite (small_bits_above d k) by lia. apply andb_false_r. }
  rewrite <- Z.lxor_lor by exact Hdisj.
  rewrite <- Z.add_nocarry_lxor by exact Hdisj.
  rewrite Z.shiftl_mul_pow2 by lia. reflexivity.
Qed.

Lemma split7 (n : Z) : Z.shiftr n 7 * 128 + Z.land n 127 = n.
Proof.
  rewrite Z.shiftr_div_pow2 by lia. change 127 with (Z.ones 7).
  rewrite Z.land_ones by lia. change (2 ^ 7) with 128.
  pose proof (Z.div_mod n 128). lia.
Qed.

Lemma shiftr7_range (n : Z) (k : nat) :
  0 <= n < 128 ^ Z.of_nat (S k) -> 0 <= Z.shiftr n 7 < 128 ^ Z.of_nat k.
Proof.
  intros Hn. rewrite Z.shiftr_div_pow2 by lia. change (2 ^ 7) with 128. split.
  - apply Z.div_pos; lia.
  - apply Z.div_lt_upper_bound; [lia|].
    rewrite Nat2Z.inj_succ, Z.pow_succ_r in Hn by lia. lia.
Qed.

Lemma shiftr7_le (n : Z) : 0 <= n -> Z.shiftr n 7 <= n.
Proof.
  intros Hn. rewrite Z.shiftr_div_pow2 by lia. change (2 ^ 7) with 128.
  apply Z.div_le_upper_bound; lia.
Qed.

Lemma testbit7_continuation (d : Z) : 0 <= d < 128 -> Z.testbit (d + 128) 7 = true.
Proof.
  intros Hd. rewrite <- lor_continuation by exact Hd. rewrite Z.lor_spec.
  change 128 with (2 ^ 7). rewrite Z.pow2_bits_true by lia. apply orb_true_r.
Qed.

Lemma land127_small (d : Z) : 0 <= d < 128 -> Z.land d 127 = d.
Proof.
  intros Hd. change 127 with (Z.ones 7). rewrite Z.land_ones by lia.
  apply Z.mod_small. lia.
Qed.

Lemma land127_continuation (d : Z) : 0 <= d < 128 -> Z.land (d + 128) 127 = d.
Proof.
  intros Hd. change 127 with (Z.ones 7). rewrite Z.land_ones by lia.
  change (2 ^ 7) with 128. replace (d + 128) with (d + 1 * 128) by lia.
  rewrite Z.mod_add by lia. apply Z.mod_small. lia.
Qed.

(** ** VARINT reads back what it writes *)

Lemma varint_high_0 (digits : nat) : varint_high digits 0 = [].
Proof.
  destruct digits; reflexivity.
Qed.

(** One continuation byte takes the accumulator from [n >> 7] to [n]. *)
Lemma ReadVarInt_loop_continuation (w n : Z) (rest : list byte) :
  0 <= n < 2 ^ w ->
  ReadVarInt_loop w (Z.shiftr n 7) (byte_of_Z (Z.lor (Z.land n 127) 128) :: rest)
  = ReadVarInt_loop w n rest.
Proof.
  intros Hn. pose proof (low7_range n) as Hl. cbn [ReadVarInt_loop].
  rewrite lor_continuation by exact Hl.
  rewrite Z_of_byte_small by lia.
  rewrite testbit7_continuation, land127_continuation by exact Hl.
  rewrite shiftl7_lor by exact Hl. rewrite split7.
  rewrite Z.mod_small by lia. reflexivity.
Qed.

(** The last byte ends the integer. *)
Lemma ReadVarInt_loop_last (w n : Z) (rest : list byte) :
  0 <= n < 2 ^ w ->
  ReadVarInt_loop w (Z.shiftr n 7) (byte_of_Z (Z.land n 127) :: rest) = Some (n, rest).
Proof.
  intros Hn. pose proof (low7_range n) as Hl. cbn [ReadVarInt_loop].
  rewrite Z_of_byte_small by lia.
  rewrite small_bits_above, land127_small by lia.
  rewrite shiftl7_lor by exact Hl. rewrite split7.
  rewrite Z.mod_small by lia. reflexivity.
Qed.

Lemma ReadVarInt_loop_high (w : Z) (digits : nat) : forall m rest,
  0 <= m < 128 ^ Z.of_nat digits -> m < 2 ^ w ->
  ReadVarInt_loop w 0 (varint_high digits m ++ rest) = ReadVarInt_loop w m rest.
Proof.
  induction digits as [|digits IH]; intros m rest Hm Hw.
  - change (128 ^ Z.of_nat 0) with 1 in Hm. assert (m = 0) by lia. subst m. reflexivity.
  - cbn [varint_high]. destruct (m <=? 0) eqn:Hle.
    + apply Z.leb_le in Hle. assert (m = 0) by lia. subst m. reflexivity.
    + apply Z.leb_gt in Hle. rewrite <- app_assoc.
      pose proof (shiftr7_range _ _ Hm) as Hs. pose proof (shiftr7_le m) as Hs'.
      rewrite IH by lia. apply ReadVarInt_loop_continuation. lia.
Qed.

(** The first byte written is never a continuation byte without payload. *)
Lemma varint_high_head (digits : nat) : forall m,
  0 < m < 128 ^ Z.of_nat digits ->
  exists b tl, varint_high digits m = b :: tl /\ b <> x80.
Proof.
  induction digits as [|digits IH]; intros m Hm.
  - change (128 ^ Z.of_nat 0) with 1 in Hm. lia.
  - cbn [varint_high]. destruct (m <=? 0) eqn:Hle; [apply Z.leb_le in Hle; lia|].
    assert (Hs : 0 <= Z.shiftr m 7 < 128 ^ Z.of_nat digits) by (apply shiftr7_range; lia).
    destruct (Z.eq_dec (Z.shiftr m 7) 0) as [Hz|Hnz].
    + rewrite Hz, varint_high_0. eexists. exists []. split; [reflexivity|].
      intros Habs. apply (f_equal Z_of_byte) in Habs.
      pose proof (low7_range m) as Hl. pose proof (split7 m) as Hsplit.
      rewrite lor_continuation in Habs by exact Hl.
      rewrite Z_of_byte_small in Habs by lia.
      change (Z_of_byte x80) with 128 in Habs. lia.
    + destruct (IH (Z.shiftr m 7)) as (b & tl & Heq & Hb); [lia|].
      rewrite Heq. exists b. eexists. split; [reflexivity|exact Hb].
Qed.

Lemma varint_digits_enough (w n : Z) :
  0 <= n < 2 ^ w -> 0 <= Z.shiftr n 7 < 128 ^ Z.of_nat (varint_digits w).
Proof.
  intros Hn.
  assert (Hw : 0 <= w).
  { destruct (Z_lt_dec w 0) as [Hneg|]; [|lia].
    rewrite Z.pow_neg_r in Hn by exact Hneg. lia. }
  pose proof (shiftr7_le n) as Hle. split.
  - rewrite Z.shiftr_div_pow2 by lia. apply Z.div_pos; lia.
  - unfold varint_digits.
    assert (Hk : 0 <= (w + 6) / 7) by (apply Z.div_pos; lia).
    rewrite Z2Nat.id by exact Hk.
    change 128 with (2 ^ 7). rewrite <- Z.pow_mul_r by lia.
    apply Z.le_lt_trans with n; [lia|].
    apply Z.lt_le_trans with (2 ^ w); [lia|].
    apply Z.pow_le_mono_r; [lia|].
    pose proof (Z.div_mod (w + 6) 7). pose proof (Z.mod_pos_bound (w + 6) 7). lia.
Qed.

Lemma VARINT_ok (w : Z) : codec_ok (VARINT w).
Proof.
  intros n rest Hn. cbn [VARINT representable Serialize Unserialize] in *.
  pose proof (varint_digits_enough _ _ Hn) as Hd.
  unfold WriteVarInt, ReadVarInt. rewrite <- app_assoc.
  assert (Hloop : ReadVarInt_loop w 0
            (varint_high (varint_digits w) (Z.shiftr n 7)
               ++ [byte_of_Z (Z.land n 127)] ++ rest) = Some (n, rest)).
  { pose proof (shiftr7_le n) as Hle.
    rewrite ReadVarInt_loop_high by lia. apply ReadVarInt_loop_last, Hn. }
  destruct (Z.eq_dec (Z.shiftr n 7) 0) as [Hz|Hnz].
  - rewrite Hz, varint_high_0 in *. cbn [app] in *.
    rewrite byte_eqb_neq; [exact Hloop|].
    intros Habs. apply (f_equal Z_of_byte) in Habs.
    pose proof (low7_range n) as Hl. rewrite Z_of_byte_small in Habs by lia.
    change (Z_of_byte x80) with 128 in Habs. lia.
  - destruct (varint_high_head (varint_digits w) (Z.shiftr n 7)) as (b & tl & Heq & Hb);
      [lia|].
    rewrite Heq in *. cbn [app] in *. rewrite byte_eqb_neq by exact Hb. exact Hloop.
Qed.

Lemma WriteVarInt_nonempty (w n : Z) : (0 < List.length (WriteVarInt w n))%nat.
Proof.
  unfold WriteVarInt. rewrite length_app. simpl. lia.
Qed.

(** ** The other primitive codecs *)

Lemma uint8_ok : codec_ok uint8.
Proof.
  intros b rest _. reflexivity.
Qed.

Lemma length_list_byte_of_string (s : string) :
  List.length (list_byte_of_string s) = String.length s.
Proof.
  unfold list_byte_of_string. rewrite length_map.
  induction s as [|c s IH]; [reflexivity|]. cbn. now rewrite IH.
Qed.

Lemma ReadBytes_app (bs rest : list byte) :
  ReadBytes (Z.of_nat (List.length bs)) (bs ++ rest) = Some (bs, rest).
Proof.
  unfold ReadBytes. rewrite length_app, Nat2Z.id.
  destruct (Z.leb_spec (Z.of_nat (List.length bs))
              (Z.of_nat (List.length bs + List.length rest))) as [_|Hlt]; [|lia].
  rewrite firstn_app, Nat.sub_diag, firstn_all, firstn_O, app_nil_r.
  rewrite skipn_app, Nat.sub_diag, skipn_all, skipn_O. reflexivity.
Qed.

Lemma string_codec_ok : codec_ok string_codec.
Proof.
  intros s rest Hs. cbn [string_codec representable Serialize Unserialize] in *.
  unfold ReadString, WriteString, bind. rewrite <- app_assoc.
  pose proof (VARINT_ok 64 (Z.of_nat (String.length s)) (list_byte_of_string s ++ rest)) as Hlen.
  cbn [VARINT representable Serialize Unserialize] in Hlen. rewrite Hlen by lia.
  rewrite <- length_list_byte_of_string, ReadBytes_app.
  unfold ret. now rewrite string_of_list_byte_of_string.
Qed.

Lemma optional_ok {A} (c : Codec A) : codec_ok c -> codec_ok (optional c).
Proof.
  intros Hc [x|] rest Hx; cbn [optional representable Serialize Unserialize] in *.
  - unfold bind, ReadByte. cbn [app].
    change (Byte.eqb x01 x00) with false. change (Byte.eqb x01 x01) with true.
    cbv beta iota. rewrite Hc by exact Hx. reflexivity.
  - reflexivity.
Qed.

(** A codec that reads back what it writes writes different values
    differently, whatever follows them in the stream. *)
Lemma codec_ok_inj {A} (c : Codec A) (x y : A) (s t : list byte) :
  codec_ok c -> representable c x -> representable c y ->
  Serialize c x ++ s = Serialize c y ++ t -> x = y /\ s = t.
Proof.
  intros Hc Hx Hy Heq.
  pose proof (Hc x s Hx) as Hrx. rewrite Heq, (Hc y t Hy) in Hrx.
  injection Hrx as -> ->. split; reflexivity.
Qed.

(** ** IMPLEMENT_SERIALIZE: writing is concatenation, reading inverts it *)

Lemma fold_stream_write {T} (fields : list (Field T)) (this : T) : forall ss,
  fold_left (fun ss f => ss <<[field_codec f] field_get f this) fields ss
  = ss ++ flat_map (fun f => Serialize (field_codec f) (field_get f this)) fields.
Proof.
  induction fields as [|f fields IH]; intros ss; cbn [fold_left flat_map].
  - now rewrite app_nil_r.
  - rewrite IH. unfold stream_write. now rewrite app_assoc.
Qed.

Lemma SerializeFields_flat_map {T} (fields : list (Field T)) (this : T) :
  SerializeFields fields this
  = flat_map (fun f => Serialize (field_codec f) (field_get f this)) fields.
Proof.
  unfold SerializeFields. now rewrite fold_stream_write.
Qed.

Lemma UnserializeFields_flat_map {T} (fields : list (Field T)) (x : T) :
  Forall (fun f => codec_ok (field_codec f)) fields ->
  fields_representable fields x ->
  forall this rest,
    UnserializeFields fields this
      (flat_map (fun f => Serialize (field_codec f) (field_get f x)) fields ++ rest)
    = Some (assign_fields fields x this, rest).
Proof.
  unfold fields_representable.
  induction fields as [|f fields IH]; intros Hok Hrep this rest.
  - reflexivity.
  - inversion Hok as [|? ? Hf Hok']; subst. inversion Hrep as [|? ? Hx Hrep']; subst.
    cbn [flat_map UnserializeFields assign_fields fold_left]. unfold bind.
    rewrite <- app_assoc, Hf by exact Hx. now apply IH.
Qed.

Lemma UnserializeFields_SerializeFields {T} (fields : list (Field T)) (x this : T)
    (rest : list byte) :
  Forall (fun f => codec_ok (field_codec f)) fields ->
  fields_representable fields x ->
  UnserializeFields fields this (SerializeFields fields x ++ rest)
  = Some (assign_fields fields x this, rest).
Proof.
  intros Hok Hrep. rewrite SerializeFields_flat_map.
  now apply UnserializeFields_flat_map.
Qed.

Lemma OrderOperatorMode_codec_ok : codec_ok OrderOperatorMode.codec.
Proof.
  intros [v] rest Hv. cbn [OrderOperatorMode.codec Serialize Unserialize].
  rewrite UnserializeFields_SerializeFields.
  - reflexivity.
  - constructor; [exact uint8_ok | constructor].
  - exact Hv.
Qed.

(** ** The implementation of the external interface used in examples *)

Lemma pair_codec_ok {A B} (a : Codec A) (b : Codec B) :
  codec_ok a -> codec_ok b -> codec_ok (Fixture.pair_codec a b).
Proof.
  intros Ha Hb [x y] rest [Hx Hy].
  cbn [Fixture.pair_codec Serialize Unserialize fst snd] in *. unfold bind.
  rewrite <- app_assoc, Ha, Hb by assumption. reflexivity.
Qed.

Lemma Fixture_laws : ExternalLaws Fixture.external.
Proof.
  split; cbn.
  - apply pair_codec_ok; apply VARINT_ok.
  - apply pair_codec_ok; apply VARINT_ok.
  - apply VARINT_ok.
Qed.

#[export] Hint Resolve VARINT_ok uint8_ok string_codec_ok OrderOperatorMode_codec_ok
  : codec_db.

(** ** entities/dexorder.h *)

Section Entities.
Context {E : External}.

Lemma OrderOperatorMode_Serialize (m : OrderOperatorMode.t) :
  Serialize OrderOperatorMode.codec m = WriteByte (OrderOperatorMode.value m).
Proof.
  cbn [OrderOperatorMode.codec Serialize]. rewrite SerializeFields_flat_map.
  cbn [OrderOperatorMode.fields flat_map field_codec field_get uint8 Serialize].
  apply app_nil_r.
Qed.

(** C2: for every [CDEXOrderDetail], the serialization is the concatenation
    of the members in the order mode, dex_id, operator_fee_ratio,
    generate_type, order_type, order_side, coin_symbol, asset_symbol,
    coin_amount, asset_amount, price, tx_cord, user_regid,
    total_deal_coin_amount, total_deal_asset_amount, and then tx_cord a
    second time. *)
Theorem CDEXOrderDetail_Serialize_order (d : CDEXOrderDetail.t) :
  CDEXOrderDetail.Serialize d
  = WriteByte (OrderOperatorMode.value (CDEXOrderDetail.mode d))
    ++ WriteVarInt 32 (CDEXOrderDetail.dex_id d)
    ++ WriteVarInt 64 (CDEXOrderDetail.operator_fee_ratio d)
    ++ WriteByte (CDEXOrderDetail.generate_type d)
    ++ WriteByte (CDEXOrderDetail.order_type d)
    ++ WriteByte (CDEXOrderDetail.order_side d)
    ++ WriteString (CDEXOrderDetail.coin_symbol d)
    ++ WriteString (CDEXOrderDetail.asset_symbol d)
    ++ WriteVarInt 64 (CDEXOrderDetail.coin_amount d)
    ++ WriteVarInt 64 (CDEXOrderDetail.asset_amount d)
    ++ WriteVarInt 64 (CDEXOrderDetail.price d)
    ++ Serialize CTxCord_codec (CDEXOrderDetail.tx_cord d)
    ++ Serialize CRegID_codec (CDEXOrderDetail.user_regid d)
    ++ WriteVarInt 64 (CDEXOrderDetail.total_deal_coin_amount d)
    ++ WriteVarInt 64 (CDEXOrderDetail.total_deal_asset_amount d)
    ++ Serialize CTxCord_codec (CDEXOrderDetail.tx_cord d).
Proof.
  unfold CDEXOrderDetail.Serialize. rewrite SerializeFields_flat_map.
  cbn [CDEXOrderDetail.fields flat_map field_codec field_get].
  rewrite OrderOperatorMode_Serialize.
  cbn [VARINT uint8 string_codec Serialize].
  rewrite app_nil_r. reflexivity.
Qed.

(** *** Round trips *)

Section RoundTrip.
Context {L : ExternalLaws E}.

Lemma CDEXOrderDetail_roundtrip (this x : CDEXOrderDetail.t) (rest : list byte) :
  CDEXOrderDetail.well_formed x ->
  CDEXOrderDetail.Unserialize this (CDEXOrderDetail.Serialize x ++ rest) = Some (x, rest).
Proof.
  intros Hwf. unfold CDEXOrderDetail.well_formed in Hwf.
  unfold CDEXOrderDetail.Unserialize, CDEXOrderDetail.Serialize.
  rewrite UnserializeFields_SerializeFields.
  - destruct x, this. reflexivity.
  - unfold CDEXOrderDetail.fields. fields_ok.
  - unfold CDEXOrderDetail.fields. fields_rep; tauto.
Qed.

Lemma CDEXActiveOrder_roundtrip (this x : CDEXActiveOrder.t) (rest : list byte) :
  CDEXActiveOrder.well_formed x ->
  CDEXActiveOrder.Unserialize this (CDEXActiveOrder.Serialize x ++ rest) = Some (x, rest).
Proof.
  intros Hwf. unfold CDEXActiveOrder.well_formed in Hwf.
  unfold CDEXActiveOrder.Unserialize, CDEXActiveOrder.Serialize.
  rewrite UnserializeFields_SerializeFields.
  - destruct x, this. reflexivity.
  - unfold CDEXActiveOrder.fields. fields_ok.
  - unfold CDEXActiveOrder.fields. fields_rep; tauto.
Qed.

Lemma DexOperatorDetail_roundtrip (this x : DexOperatorDetail.t) (rest : list byte) :
  DexOperatorDetail.well_formed x ->
  DexOperatorDetail.Unserialize this (DexOperatorDetail.Serialize x ++ rest) = Some (x, rest).
Proof.
  intros Hwf. unfold DexOperatorDetail.well_formed in Hwf.
  unfold DexOperatorDetail.Unserialize, DexOperatorDetail.Serialize.
  rewrite UnserializeFields_SerializeFields.
  - destruct x, this. reflexivity.
  - unfold DexOperatorDetail.fields. fields_ok.
  - unfold DexOperatorDetail.fields. fields_rep; tauto.
Qed.

Lemma DEXDealItem_roundtrip (this x : DEXDealItem.t) (rest : list byte) :
  DEXDealItem.well_formed x ->
  DEXDealItem.Unserialize this (DEXDealItem.Serialize x ++ rest) = Some (x, rest).
Proof.
  intros Hwf. unfold DEXDealItem.well_formed in Hwf.
  unfold DEXDealItem.Unserialize, DEXDealItem.Serialize.
  rewrite UnserializeFields_SerializeFields.
  - destruct x, this. reflexivity.
  - unfold DEXDealItem.fields. fields_ok.
  - unfold DEXDealItem.fields. fields_rep; tauto.
Qed.

(** In the order record the second [tx_cord] read overwrites the first with
    the same value. *)
Lemma CDEXOrderDetail_assign_fields (x this : CDEXOrderDetail.t) :
  assign_fields CDEXOrderDetail.fields x this = x.
Proof.
  destruct x, this. reflexivity.
Qed.

(** C8: for every DEX entity [x] whose members hold values of their C++
    types, reading the serialization of [x] into any object gives [x] again
    and leaves the rest of the stream; this holds for the order record,
    whose [tx_cord] is written and read twice, for the active order, for the
    operator record and for the deal item. *)
Theorem dex_entities_roundtrip :
  (forall (this x : CDEXOrderDetail.t) rest, CDEXOrderDetail.well_formed x ->
     CDEXOrderDetail.Unserialize this (CDEXOrderDetail.Serialize x ++ rest) = Some (x, rest))
  /\ (forall (this x : CDEXActiveOrder.t) rest, CDEXActiveOrder.well_formed x ->
     CDEXActiveOrder.Unserialize this (CDEXActiveOrder.Serialize x ++ rest) = Some (x, rest))
  /\ (forall (this x : DexOperatorDetail.t) rest, DexOperatorDetail.well_formed x ->
     DexOperatorDetail.Unserialize this (DexOperatorDetail.Serialize x ++ rest) = Some (x, rest))
  /\ (forall (this x : DEXDealItem.t) rest, DEXDealItem.well_formed x ->
     DEXDealItem.Unserialize this (DEXDealItem.Serialize x ++ rest) = Some (x, rest)).
Proof.
  split; [|split; [|split]].
  - exact CDEXOrderDetail_roundtrip.
  - exact CDEXActiveOrder_roundtrip.
  - exact DexOperatorDetail_roundtrip.
  - exact DEXDealItem_roundtrip.
Qed.

End RoundTrip.

(** *** SetEmpty *)

(** C10: [SetEmpty] leaves [mode], [dex_id] and [operator_fee_ratio] as they
    were and resets every other member; the result passes [IsEmpty], and it
    differs from a default-constructed record whenever one of the three
    members it keeps was not at its default. *)
Theorem CDEXOrderDetail_SetEmpty_frame (d : CDEXOrderDetail.t) :
  (CDEXOrderDetail.mode (CDEXOrderDetail.SetEmpty d) = CDEXOrderDetail.mode d
   /\ CDEXOrderDetail.dex_id (CDEXOrderDetail.SetEmpty d) = CDEXOrderDetail.dex_id d
   /\ CDEXOrderDetail.operator_fee_ratio (CDEXOrderDetail.SetEmpty d)
      = CDEXOrderDetail.operator_fee_ratio d)
  /\ CDEXOrderDetail.SetEmpty d
     = {| CDEXOrderDetail.mode := CDEXOrderDetail.mode d;
          CDEXOrderDetail.dex_id := CDEXOrderDetail.dex_id d;
          CDEXOrderDetail.operator_fee_ratio := CDEXOrderDetail.operator_fee_ratio d;
          CDEXOrderDetail.generate_type := EMPTY_ORDER;
          CDEXOrderDetail.order_type := ORDER_LIMIT_PRICE;
          CDEXOrderDetail.order_side := ORDER_BUY;
          CDEXOrderDetail.coin_symbol := EmptyString;
          CDEXOrderDetail.asset_symbol := EmptyString;
          CDEXOrderDetail.coin_amount := 0;
          CDEXOrderDetail.asset_amount := 0;
          CDEXOrderDetail.price := 0;
          CDEXOrderDetail.tx_cord := CTxCord_SetEmpty (CDEXOrderDetail.tx_cord d);
          CDEXOrderDetail.user_regid := CRegID_SetEmpty (CDEXOrderDetail.user_regid d);
          CDEXOrderDetail.total_deal_coin_amount := 0;
          CDEXOrderDetail.total_deal_asset_amount := 0 |}
  /\ CDEXOrderDetail.IsEmpty (CDEXOrderDetail.SetEmpty d) = true
  /\ (CDEXOrderDetail.mode d <> OrderOperatorMode.ctor
      \/ CDEXOrderDetail.dex_id d <> 0
      \/ CDEXOrderDetail.operator_fee_ratio d <> 0 ->
      CDEXOrderDetail.SetEmpty d <> CDEXOrderDetail.ctor).
Proof.
  destruct d as [m dex ratio gen ty side cs asy ca aa p cord regid tc ta].
  unfold CDEXOrderDetail.SetEmpty. cbn.
  split; [repeat split|]. split; [reflexivity|]. split; [reflexivity|].
  intros Hkept Heq. unfold CDEXOrderDetail.ctor in Heq.
  injection Heq as Hm Hdex Hratio _ _.
  destruct Hkept as [Hne|[Hne|Hne]]; apply Hne; assumption.
Qed.

End Entities.

(** The order record of the fixture is not at its defaults, so emptying it
    does not give the default record. *)
Lemma CDEXOrderDetail_SetEmpty_frame_witness :
  CDEXOrderDetail.IsEmpty (CDEXOrderDetail.SetEmpty Fixture.order_detail) = true
  /\ CDEXOrderDetail.SetEmpty Fixture.order_detail <> @CDEXOrderDetail.ctor Fixture.external.
Proof.
  destruct (@CDEXOrderDetail_SetEmpty_frame Fixture.external Fixture.order_detail)
    as (_ & _ & Hempty & Hne).
  split; [exact Hempty|].
  apply Hne. right. left. cbn. lia.
Defined.

(** The serializations of the fixture's records, followed by one more byte,
    read back. *)
Lemma dex_entities_roundtrip_witness :
  CDEXOrderDetail.Unserialize CDEXOrderDetail.ctor
    (CDEXOrderDetail.Serialize Fixture.order_detail ++ [xff])
  = Some (Fixture.order_detail, [xff])
  /\ CDEXActiveOrder.Unserialize CDEXActiveOrder.ctor
       (CDEXActiveOrder.Serialize Fixture.active_order ++ [xff])
     = Some (Fixture.active_order, [xff])
  /\ DexOperatorDetail.Unserialize DexOperatorDetail.ctor
       (DexOperatorDetail.Serialize Fixture.operator_detail ++ [xff])
     = Some (Fixture.operator_detail, [xff])
  /\ DEXDealItem.Unserialize DEXDealItem.ctor
       (DEXDealItem.Serialize Fixture.deal_item ++ [xff])
     = Some (Fixture.deal_item, [xff]).
Proof.
  destruct (@dex_entities_roundtrip Fixture.external Fixture_laws)
    as (Hdetail & Hactive & Hoperator & Hitem).
  split; [|split; [|split]].
  - apply Hdetail. decide_well_formed.
  - apply Hactive. decide_well_formed.
  - apply Hoperator. decide_well_formed.
  - apply Hitem. decide_well_formed.
Defined.

(** ** tx/dextx.h: constructors *)

Section Constructors.
Context {E : External}.

(** C6: a transaction built by a market-order base constructor, or by a
    constructor of a derived class through it, has the market-order shape
    for all arguments: a buy has asset_amount = 0, price = 0 and the
    coin_amount of its argument; a sell has coin_amount = 0, price = 0 and
    the asset_amount of its argument. *)
Theorem market_order_ctor_shape
    (nTxTypeIn : TxType) (txUidIn : CUserID) (validHeightIn : Z)
    (feeSymbol : TokenSymbol) (fees : Z) (modeIn : OrderOperatorMode.t) (dexIdIn : DexID)
    (orderFeeRatioIn : Z) (coinSymbol assetSymbol : TokenSymbol) (amountIn : Z)
    (memoRef : CDEXOrderBaseTx.StringRef) (memoIn : string)
    (pOperatorRegidIn : option CRegID) :
  let buy := CDEXBuyMarketOrderBaseTx.ctor nTxTypeIn txUidIn validHeightIn feeSymbol fees
               modeIn dexIdIn orderFeeRatioIn coinSymbol assetSymbol amountIn memoRef
               pOperatorRegidIn in
  let buy_basic := CDEXBuyMarketOrderTx.ctor txUidIn validHeightIn feeSymbol fees
               coinSymbol assetSymbol amountIn in
  let buy_ex := CDEXBuyMarketOrderExTx.ctor txUidIn validHeightIn feeSymbol fees
               modeIn dexIdIn orderFeeRatioIn coinSymbol assetSymbol amountIn memoIn
               pOperatorRegidIn in
  let sell := CDEXSellMarketOrderBaseTx.ctor nTxTypeIn txUidIn validHeightIn feeSymbol fees
               modeIn dexIdIn orderFeeRatioIn coinSymbol assetSymbol amountIn memoRef
               pOperatorRegidIn in
  let sell_basic := CDEXSellMarketOrderTx.ctor txUidIn validHeightIn feeSymbol fees
               coinSymbol assetSymbol amountIn in
  let sell_ex := CDEXSellMarketOrderExTx.ctor txUidIn validHeightIn feeSymbol fees
               modeIn dexIdIn orderFeeRatioIn coinSymbol assetSymbol amountIn memoIn
               pOperatorRegidIn in
  Forall (fun tx => CDEXOrderBaseTx.order_type tx = ORDER_MARKET_PRICE
                    /\ CDEXOrderBaseTx.order_side tx = ORDER_BUY
                    /\ CDEXOrderBaseTx.coin_amount tx = amountIn
                    /\ CDEXOrderBaseTx.asset_amount tx = 0
                    /\ CDEXOrderBaseTx.price tx = 0)
         [buy; buy_basic; buy_ex]
  /\ Forall (fun tx => CDEXOrderBaseTx.order_type tx = ORDER_MARKET_PRICE
                       /\ CDEXOrderBaseTx.order_side tx = ORDER_SELL
                       /\ CDEXOrderBaseTx.coin_amount tx = 0
                       /\ CDEXOrderBaseTx.asset_amount tx = amountIn
                       /\ CDEXOrderBaseTx.price tx = 0)
            [sell; sell_basic; sell_ex].
Proof.
  intros buy buy_basic buy_ex sell sell_basic sell_ex.
  subst buy buy_basic buy_ex sell sell_basic sell_ex.
  unfold CDEXBuyMarketOrderTx.ctor, CDEXBuyMarketOrderExTx.ctor,
    CDEXSellMarketOrderTx.ctor, CDEXSellMarketOrderExTx.ctor,
    CDEXBuyMarketOrderBaseTx.ctor, CDEXSellMarketOrderBaseTx.ctor.
  split; repeat apply Forall_cons; try apply Forall_nil;
    destruct pOperatorRegidIn; cbn; repeat split.
Qed.

(** C7: a transaction built by a constructor of a basic order class has
    mode = DEFAULT, operator_fee_ratio = 0, dex_id = DEX_RESERVED_ID = 0, an
    empty memo and no operator signature pair, for all arguments. *)
Theorem basic_order_ctor_defaults
    (txUidIn : CUserID) (validHeightIn : Z) (feeSymbol : TokenSymbol) (fees : Z)
    (coinSymbol assetSymbol : TokenSymbol) (amountIn priceIn : Z) :
  Forall (fun tx => OrderOperatorMode.eqb (CDEXOrderBaseTx.mode tx) OrderOperatorMode.DEFAULT = true
                    /\ CDEXOrderBaseTx.mode tx = OrderOperatorMode.of_Mode OrderOperatorMode.DEFAULT
                    /\ CDEXOrderBaseTx.operator_fee_ratio tx = 0
                    /\ CDEXOrderBaseTx.dex_id tx = DEX_RESERVED_ID
                    /\ DEX_RESERVED_ID = 0
                    /\ CDEXOrderBaseTx.memo tx = EmptyString
                    /\ CDEXOrderBaseTx.operator_signature_pair tx = None
                    /\ CDEXOrderBaseTx.GetOperatorRegid tx = None)
    [ CDEXBuyLimitOrderTx.ctor txUidIn validHeightIn feeSymbol fees coinSymbol assetSymbol
        amountIn priceIn;
      CDEXSellLimitOrderTx.ctor txUidIn validHeightIn feeSymbol fees coinSymbol assetSymbol
        amountIn priceIn;
      CDEXBuyMarketOrderTx.ctor txUidIn validHeightIn feeSymbol fees coinSymbol assetSymbol
        amountIn;
      CDEXSellMarketOrderTx.ctor txUidIn validHeightIn feeSymbol fees coinSymbol assetSymbol
        amountIn ].
Proof.
  unfold CDEXBuyLimitOrderTx.ctor, CDEXSellLimitOrderTx.ctor,
    CDEXBuyMarketOrderTx.ctor, CDEXSellMarketOrderTx.ctor,
    CDEXBuyLimitOrderBaseTx.ctor, CDEXSellLimitOrderBaseTx.ctor,
    CDEXBuyMarketOrderBaseTx.ctor, CDEXSellMarketOrderBaseTx.ctor.
  repeat apply Forall_cons; try apply Forall_nil; cbn; repeat split.
Qed.

(** The base constructor reads [memoIn] after the member [memo] has been
    initialized to the empty string. *)
Lemma CDEXBuyMarketOrderBaseTx_ctor_memo
    (nTxTypeIn : TxType) (txUidIn : CUserID) (validHeightIn : Z)
    (feeSymbol : TokenSymbol) (fees : Z) (modeIn : OrderOperatorMode.t) (dexIdIn : DexID)
    (orderFeeRatioIn : Z) (coinSymbol assetSymbol : TokenSymbol) (coinAmountIn : Z)
    (memoIn : CDEXOrderBaseTx.StringRef) (pOperatorRegidIn : option CRegID) :
  CDEXOrderBaseTx.memo
    (CDEXBuyMarketOrderBaseTx.ctor nTxTypeIn txUidIn validHeightIn feeSymbol fees modeIn
       dexIdIn orderFeeRatioIn coinSymbol assetSymbol coinAmountIn memoIn pOperatorRegidIn)
  = match memoIn with
    | CDEXOrderBaseTx.ref_to s => s
    | CDEXOrderBaseTx.ref_to_member_memo => EmptyString
    end.
Proof.
  unfold CDEXBuyMarketOrderBaseTx.ctor.
  destruct pOperatorRegidIn, memoIn; reflexivity.
Qed.

(** C3: the constructor of [CDEXBuyMarketOrderExTx] passes the member [memo]
    to the base-class constructor where its parameter [memoIn] is at hand:
    for every invocation the memo of the constructed transaction is the
    member's own (empty) value, and the transaction built does not depend
    on [memoIn] at all.  The sell-side sibling stores [memoIn]. *)
Theorem CDEXBuyMarketOrderExTx_ctor_memo
    (txUidIn : CUserID) (validHeightIn : Z) (feeSymbol : TokenSymbol) (fees : Z)
    (modeIn : OrderOperatorMode.t) (dexIdIn : DexID) (orderFeeRatioIn : Z)
    (coinSymbol assetSymbol : TokenSymbol) (amountIn : Z) (memoIn memoIn' : string)
    (pOperatorRegidIn : option CRegID) :
  CDEXBuyMarketOrderExTx.ctor txUidIn validHeightIn feeSymbol fees modeIn dexIdIn
    orderFeeRatioIn coinSymbol assetSymbol amountIn memoIn pOperatorRegidIn
  = CDEXBuyMarketOrderBaseTx.ctor DEX_MARKET_BUY_ORDER_EX_TX txUidIn validHeightIn
      feeSymbol fees modeIn dexIdIn orderFeeRatioIn coinSymbol assetSymbol amountIn
      CDEXOrderBaseTx.ref_to_member_memo pOperatorRegidIn
  /\ CDEXOrderBaseTx.memo
       (CDEXBuyMarketOrderExTx.ctor txUidIn validHeightIn feeSymbol fees modeIn dexIdIn
          orderFeeRatioIn coinSymbol assetSymbol amountIn memoIn pOperatorRegidIn)
     = EmptyString
  /\ CDEXBuyMarketOrderExTx.ctor txUidIn validHeightIn feeSymbol fees modeIn dexIdIn
       orderFeeRatioIn coinSymbol assetSymbol amountIn memoIn pOperatorRegidIn
     = CDEXBuyMarketOrderExTx.ctor txUidIn validHeightIn feeSymbol fees modeIn dexIdIn
         orderFeeRatioIn coinSymbol assetSymbol amountIn memoIn' pOperatorRegidIn
  /\ CDEXOrderBaseTx.memo
       (CDEXSellMarketOrderExTx.ctor txUidIn validHeightIn feeSymbol fees modeIn dexIdIn
          orderFeeRatioIn coinSymbol assetSymbol amountIn memoIn pOperatorRegidIn)
     = memoIn.
Proof.
  split; [reflexivity|]. split; [|split].
  - unfold CDEXBuyMarketOrderExTx.ctor.
    now rewrite CDEXBuyMarketOrderBaseTx_ctor_memo.
  - reflexivity.
  - unfold CDEXSellMarketOrderExTx.ctor, CDEXSellMarketOrderBaseTx.ctor.
    destruct pOperatorRegidIn; reflexivity.
Qed.

End Constructors.

(** ** tx/dextx.h: signature hashes of the order transactions *)

Section OrderSignatureHash.
Context {E : External}.
Import (coercions) CDEXOrderBaseTx.

Lemma codec_ok_inj_nil {A} (c : Codec A) (x y : A) :
  codec_ok c -> representable c x -> representable c y ->
  Serialize c x = Serialize c y -> x = y.
Proof.
  intros Hc Hx Hy Heq.
  apply (codec_ok_inj c x y [] [] Hc Hx Hy). now rewrite !app_nil_r.
Qed.

Lemma CDEXBuyLimitOrderTx_stream (tx : CDEXOrderBaseTx.t) :
  CDEXBuyLimitOrderTx.signature_hash_stream tx = basic_limit_preimage tx.
Proof.
  unfold CDEXBuyLimitOrderTx.signature_hash_stream, basic_limit_preimage,
    stream_write, CHashWriter_ctor.
  cbn [VARINT uint8 string_codec Serialize app].
  rewrite <- !app_assoc. reflexivity.
Qed.

Lemma CDEXSellLimitOrderTx_stream (tx : CDEXOrderBaseTx.t) :
  CDEXSellLimitOrderTx.signature_hash_stream tx = basic_limit_preimage tx.
Proof.
  unfold CDEXSellLimitOrderTx.signature_hash_stream, basic_limit_preimage,
    stream_write, CHashWriter_ctor.
  cbn [VARINT uint8 string_codec Serialize app].
  rewrite <- !app_assoc. reflexivity.
Qed.

Lemma sigHash_set_sigHash (h : uint256) (tx : CDEXOrderBaseTx.t) :
  CBaseTx.sigHash (CDEXOrderBaseTx.set_sigHash h tx) = h.
Proof.
  destruct tx as [[] ]. reflexivity.
Qed.

(** C5: for every basic limit buy and basic limit sell order, the bytes
    hashed are exactly VARINT(version), the type tag as one byte,
    VARINT(valid_height), tx_uid, fee_symbol, VARINT(fees), coin_symbol,
    asset_symbol, VARINT(asset_amount), VARINT(price), in this order and
    nothing else; [ComputeSignatureHash] returns the digest of these bytes
    when it computes the hash, and the cached hash otherwise. *)
Theorem basic_limit_order_preimage (tx : CDEXOrderBaseTx.t) (recalculate : bool) :
  CDEXBuyLimitOrderTx.signature_hash_stream tx
  = WriteVarInt 32 (CBaseTx.nVersion tx)
    ++ [TxType_code (CBaseTx.nTxType tx)]
    ++ WriteVarInt 32 (CBaseTx.valid_height tx)
    ++ Serialize CUserID_codec (CBaseTx.txUid tx)
    ++ WriteString (CBaseTx.fee_symbol tx)
    ++ WriteVarInt 64 (CBaseTx.llFees tx)
    ++ WriteString (CDEXOrderBaseTx.coin_symbol tx)
    ++ WriteString (CDEXOrderBaseTx.asset_symbol tx)
    ++ WriteVarInt 64 (CDEXOrderBaseTx.asset_amount tx)
    ++ WriteVarInt 64 (CDEXOrderBaseTx.price tx)
  /\ CDEXSellLimitOrderTx.signature_hash_stream tx
     = CDEXBuyLimitOrderTx.signature_hash_stream tx
  /\ fst (CDEXBuyLimitOrderTx.ComputeSignatureHash recalculate tx)
     = (if recalculate || uint256_IsNull (CBaseTx.sigHash tx)
        then CHashWriter_GetHash (CDEXBuyLimitOrderTx.signature_hash_stream tx)
        else CBaseTx.sigHash tx)
  /\ fst (CDEXSellLimitOrderTx.ComputeSignatureHash recalculate tx)
     = (if recalculate || uint256_IsNull (CBaseTx.sigHash tx)
        then CHashWriter_GetHash (CDEXSellLimitOrderTx.signature_hash_stream tx)
        else CBaseTx.sigHash tx).
Proof.
  split; [exact (CDEXBuyLimitOrderTx_stream tx)|].
  split; [now rewrite CDEXBuyLimitOrderTx_stream, CDEXSellLimitOrderTx_stream|].
  unfold CDEXBuyLimitOrderTx.ComputeSignatureHash,
    CDEXSellLimitOrderTx.ComputeSignatureHash.
  destruct (recalculate || uint256_IsNull (CBaseTx.sigHash tx)); cbn [fst].
  - now rewrite !sigHash_set_sigHash.
  - split; reflexivity.
Qed.

(** *** Extended orders *)

Lemma GetOperatorRegid_with_signatures (u o : list byte) (tx : CDEXOrderBaseTx.t) :
  CDEXOrderBaseTx.GetOperatorRegid (CDEXOrderBaseTx.with_signatures u o tx)
  = CDEXOrderBaseTx.GetOperatorRegid tx.
Proof.
  destruct tx as [[] ? ? ? ? ? ? ? ? ? ? ? [[]|]]; reflexivity.
Qed.

Lemma sigHash_with_signatures (u o : list byte) (tx : CDEXOrderBaseTx.t) :
  CBaseTx.sigHash (CDEXOrderBaseTx.with_signatures u o tx) = CBaseTx.sigHash tx.
Proof.
  destruct tx as [[] ]. reflexivity.
Qed.

Lemma sigHash_set_operator_signature_pair p (tx : CDEXOrderBaseTx.t) :
  CBaseTx.sigHash (CDEXOrderBaseTx.set_operator_signature_pair p tx) = CBaseTx.sigHash tx.
Proof.
  destruct tx as [[] ]. reflexivity.
Qed.

(** Two optional regids that are written alike after the same bytes are
    equal. *)
Lemma operator_regid_written_apart {L : ExternalLaws E} (ss : list byte)
    (r1 r2 : option CRegID) :
  representable (optional CRegID_codec) r1 ->
  representable (optional CRegID_codec) r2 ->
  ss <<[optional CRegID_codec] r1 = ss <<[optional CRegID_codec] r2 -> r1 = r2.
Proof.
  unfold stream_write. intros H1 H2 Heq. apply app_inv_head in Heq.
  apply (codec_ok_inj_nil (optional CRegID_codec)); try assumption.
  apply optional_ok, CRegID_codec_ok.
Qed.

(** What the four classes have in common: a hash that is the digest of the
    stream, and a stream that does not read the signatures. *)
Lemma excludes_signatures_intro
    (stream : CDEXOrderBaseTx.t -> list byte)
    (ComputeSignatureHash : bool -> CDEXOrderBaseTx.t -> uint256 * CDEXOrderBaseTx.t) :
  returns_digest_of stream ComputeSignatureHash ->
  (forall u o tx, stream (CDEXOrderBaseTx.with_signatures u o tx) = stream tx) ->
  excludes_signatures stream ComputeSignatureHash.
Proof.
  intros Hdigest Hstream tx u o recalculate.
  split; [apply Hstream|].
  rewrite !Hdigest, sigHash_with_signatures, Hstream. reflexivity.
Qed.

(** ... and a stream that ends with the operator regid, written after bytes
    that do not depend on the operator pair. *)
Lemma includes_operator_regid_intro {L : ExternalLaws E}
    (stream before : CDEXOrderBaseTx.t -> list byte)
    (ComputeSignatureHash : bool -> CDEXOrderBaseTx.t -> uint256 * CDEXOrderBaseTx.t) :
  returns_digest_of stream ComputeSignatureHash ->
  (forall tx, stream tx
              = before tx <<[optional CRegID_codec] CDEXOrderBaseTx.GetOperatorRegid tx) ->
  (forall p tx, before (CDEXOrderBaseTx.set_operator_signature_pair p tx) = before tx) ->
  includes_operator_regid stream ComputeSignatureHash.
Proof.
  intros Hdigest Hshape Hbefore tx pair1 pair2 tx1 tx2 Hrep1 Hrep2 Hne.
  split.
  - intros Heq. apply Hne. rewrite !Hshape in Heq. subst tx1 tx2.
    rewrite !Hbefore in Heq. now apply operator_regid_written_apart in Heq.
  - intros recalculate Hcomputed. subst tx1 tx2.
    rewrite !Hdigest, !sigHash_set_operator_signature_pair, Hcomputed.
    split; reflexivity.
Qed.

(** The body shared by every [ComputeSignatureHash]: the cache, or the
    digest of the stream. *)
Lemma cached_hash_value (stream : CDEXOrderBaseTx.t -> list byte) (recalculate : bool)
    (tx : CDEXOrderBaseTx.t) :
  fst (if recalculate || uint256_IsNull (CBaseTx.sigHash tx)
       then let ss := stream tx in
            let this := CDEXOrderBaseTx.set_sigHash (CHashWriter_GetHash ss) tx in
            (CBaseTx.sigHash this, this)
       else (CBaseTx.sigHash tx, tx))
  = if recalculate || uint256_IsNull (CBaseTx.sigHash tx)
    then CHashWriter_GetHash (stream tx)
    else CBaseTx.sigHash tx.
Proof.
  destruct (recalculate || uint256_IsNull (CBaseTx.sigHash tx)); cbn [fst].
  - apply sigHash_set_sigHash.
  - reflexivity.
Qed.

Lemma CDEXBuyLimitOrderExTx_returns_digest :
  returns_digest_of CDEXBuyLimitOrderExTx.signature_hash_stream
    CDEXBuyLimitOrderExTx.ComputeSignatureHash.
Proof.
  intros tx recalculate.
  exact (cached_hash_value CDEXBuyLimitOrderExTx.signature_hash_stream recalculate tx).
Qed.

Lemma CDEXBuyLimitOrderExTx_excludes_signatures :
  excludes_signatures CDEXBuyLimitOrderExTx.signature_hash_stream
    CDEXBuyLimitOrderExTx.ComputeSignatureHash.
Proof.
  apply excludes_signatures_intro; [exact CDEXBuyLimitOrderExTx_returns_digest|].
  intros u o tx. unfold CDEXBuyLimitOrderExTx.signature_hash_stream.
  rewrite GetOperatorRegid_with_signatures. destruct tx as [[] ]. reflexivity.
Qed.

Lemma CDEXBuyLimitOrderExTx_includes_operator_regid {L : ExternalLaws E} :
  includes_operator_regid CDEXBuyLimitOrderExTx.signature_hash_stream
    CDEXBuyLimitOrderExTx.ComputeSignatureHash.
Proof.
  eapply includes_operator_regid_intro; [exact CDEXBuyLimitOrderExTx_returns_digest| |].
  - intros tx. unfold CDEXBuyLimitOrderExTx.signature_hash_stream. reflexivity.
  - intros p [[] ]. reflexivity.
Qed.

Lemma CDEXSellLimitOrderExTx_returns_digest :
  returns_digest_of CDEXSellLimitOrderExTx.signature_hash_stream
    CDEXSellLimitOrderExTx.ComputeSignatureHash.
Proof.
  intros tx recalculate.
  exact (cached_hash_value CDEXSellLimitOrderExTx.signature_hash_stream recalculate tx).
Qed.

Lemma CDEXSellLimitOrderExTx_excludes_signatures :
  excludes_signatures CDEXSellLimitOrderExTx.signature_hash_stream
    CDEXSellLimitOrderExTx.ComputeSignatureHash.
Proof.
  apply excludes_signatures_intro; [exact CDEXSellLimitOrderExTx_returns_digest|].
  intros u o tx. unfold CDEXSellLimitOrderExTx.signature_hash_stream.
  rewrite GetOperatorRegid_with_signatures. destruct tx as [[] ]. reflexivity.
Qed.

Lemma CDEXSellLimitOrderExTx_includes_operator_regid {L : ExternalLaws E} :
  includes_operator_regid CDEXSellLimitOrderExTx.signature_hash_stream
    CDEXSellLimitOrderExTx.ComputeSignatureHash.
Proof.
  eapply includes_operator_regid_intro; [exact CDEXSellLimitOrderExTx_returns_digest| |].
  - intros tx. unfold CDEXSellLimitOrderExTx.signature_hash_stream. reflexivity.
  - intros p [[] ]. reflexivity.
Qed.

Lemma CDEXBuyMarketOrderExTx_returns_digest :
  returns_digest_of CDEXBuyMarketOrderExTx.signature_hash_stream
    CDEXBuyMarketOrderExTx.ComputeSignatureHash.
Proof.
  intros tx recalculate.
  exact (cached_hash_value CDEXBuyMarketOrderExTx.signature_hash_stream recalculate tx).
Qed.

Lemma CDEXBuyMarketOrderExTx_excludes_signatures :
  excludes_signatures CDEXBuyMarketOrderExTx.signature_hash_stream
    CDEXBuyMarketOrderExTx.ComputeSignatureHash.
Proof.
  apply excludes_signatures_intro; [exact CDEXBuyMarketOrderExTx_returns_digest|].
  intros u o tx. unfold CDEXBuyMarketOrderExTx.signature_hash_stream.
  rewrite GetOperatorRegid_with_signatures. destruct tx as [[] ]. reflexivity.
Qed.

Lemma CDEXBuyMarketOrderExTx_includes_operator_regid {L : ExternalLaws E} :
  includes_operator_regid CDEXBuyMarketOrderExTx.signature_hash_stream
    CDEXBuyMarketOrderExTx.ComputeSignatureHash.
Proof.
  eapply includes_operator_regid_intro; [exact CDEXBuyMarketOrderExTx_returns_digest| |].
  - intros tx. unfold CDEXBuyMarketOrderExTx.signature_hash_stream. reflexivity.
  - intros p [[] ]. reflexivity.
Qed.

Lemma CDEXSellMarketOrderExTx_returns_digest :
  returns_digest_of CDEXSellMarketOrderExTx.signature_hash_stream
    CDEXSellMarketOrderExTx.ComputeSignatureHash.
Proof.
  intros tx recalculate.
  exact (cached_hash_value CDEXSellMarketOrderExTx.signature_hash_stream recalculate tx).
Qed.

Lemma CDEXSellMarketOrderExTx_excludes_signatures :
  excludes_signatures CDEXSellMarketOrderExTx.signature_hash_stream
    CDEXSellMarketOrderExTx.ComputeSignatureHash.
Proof.
  apply excludes_signatures_intro; [exact CDEXSellMarketOrderExTx_returns_digest|].
  intros u o tx. unfold CDEXSellMarketOrderExTx.signature_hash_stream.
  rewrite GetOperatorRegid_with_signatures. destruct tx as [[] ]. reflexivity.
Qed.

Lemma CDEXSellMarketOrderExTx_includes_operator_regid {L : ExternalLaws E} :
  includes_operator_regid CDEXSellMarketOrderExTx.signature_hash_stream
    CDEXSellMarketOrderExTx.ComputeSignatureHash.
Proof.
  eapply includes_operator_regid_intro; [exact CDEXSellMarketOrderExTx_returns_digest| |].
  - intros tx. unfold CDEXSellMarketOrderExTx.signature_hash_stream. reflexivity.
  - intros p [[] ]. reflexivity.
Qed.

(** C4: for each of the four extended order classes (limit buy, limit
    sell, market buy, market sell), the bytes hashed leave out the user
    signature and the signature of the operator pair, so transactions that
    differ only in signature bytes get the same hash; they take in the
    operator regid of [GetOperatorRegid], so transactions that differ in it
    hash different bytes, of which the hashes are the digests whenever they
    are computed. *)
Theorem extended_order_hash_signatures_and_operator {L : ExternalLaws E} :
  (excludes_signatures CDEXBuyLimitOrderExTx.signature_hash_stream
     CDEXBuyLimitOrderExTx.ComputeSignatureHash
   /\ includes_operator_regid CDEXBuyLimitOrderExTx.signature_hash_stream
        CDEXBuyLimitOrderExTx.ComputeSignatureHash)
  /\ (excludes_signatures CDEXSellLimitOrderExTx.signature_hash_stream
     CDEXSellLimitOrderExTx.ComputeSignatureHash
   /\ includes_operator_regid CDEXSellLimitOrderExTx.signature_hash_stream
        CDEXSellLimitOrderExTx.ComputeSignatureHash)
  /\ (excludes_signatures CDEXBuyMarketOrderExTx.signature_hash_stream
     CDEXBuyMarketOrderExTx.ComputeSignatureHash
   /\ includes_operator_regid CDEXBuyMarketOrderExTx.signature_hash_stream
        CDEXBuyMarketOrderExTx.ComputeSignatureHash)
  /\ (excludes_signatures CDEXSellMarketOrderExTx.signature_hash_stream
     CDEXSellMarketOrderExTx.ComputeSignatureHash
   /\ includes_operator_regid CDEXSellMarketOrderExTx.signature_hash_stream
        CDEXSellMarketOrderExTx.ComputeSignatureHash).
Proof.
  split; [|split; [|split]]; split.
  - apply CDEXBuyLimitOrderExTx_excludes_signatures.
  - apply CDEXBuyLimitOrderExTx_includes_operator_regid.
  - apply CDEXSellLimitOrderExTx_excludes_signatures.
  - apply CDEXSellLimitOrderExTx_includes_operator_regid.
  - apply CDEXBuyMarketOrderExTx_excludes_signatures.
  - apply CDEXBuyMarketOrderExTx_includes_operator_regid.
  - apply CDEXSellMarketOrderExTx_excludes_signatures.
  - apply CDEXSellMarketOrderExTx_includes_operator_regid.
Qed.

End OrderSignatureHash.

(** ** tx/dextx.h: settle transactions *)

Section SettleSignatureHash.
Context {E : External}.
Import (coercions) CDEXSettleBaseTx.

Lemma settle_sigHash_set_sigHash (h : uint256) (tx : CDEXSettleBaseTx.t) :
  CBaseTx.sigHash (CDEXSettleBaseTx.set_sigHash h tx) = h.
Proof.
  destruct tx as [[] ]. reflexivity.
Qed.

Lemma CDEXSettleTx_ComputeSignatureHash_value (recalculate : bool) (tx : CDEXSettleBaseTx.t) :
  fst (CDEXSettleTx.ComputeSignatureHash recalculate tx)
  = if recalculate || uint256_IsNull (CBaseTx.sigHash tx)
    then CHashWriter_GetHash (CDEXSettleTx.signature_hash_stream tx)
    else CBaseTx.sigHash tx.
Proof.
  unfold CDEXSettleTx.ComputeSignatureHash.
  destruct (recalculate || uint256_IsNull (CBaseTx.sigHash tx)); cbn [fst].
  - apply settle_sigHash_set_sigHash.
  - reflexivity.
Qed.

Lemma CDEXSettleExTx_ComputeSignatureHash_value (recalculate : bool) (tx : CDEXSettleBaseTx.t) :
  fst (CDEXSettleExTx.ComputeSignatureHash recalculate tx)
  = if recalculate || uint256_IsNull (CBaseTx.sigHash tx)
    then CHashWriter_GetHash (CDEXSettleExTx.signature_hash_stream tx)
    else CBaseTx.sigHash tx.
Proof.
  unfold CDEXSettleExTx.ComputeSignatureHash.
  destruct (recalculate || uint256_IsNull (CBaseTx.sigHash tx)); cbn [fst].
  - apply settle_sigHash_set_sigHash.
  - reflexivity.
Qed.

(** The bytes hashed for a settle transaction, basic or extended. *)
Lemma settle_stream (tx : CDEXSettleBaseTx.t) :
  CDEXSettleExTx.signature_hash_stream tx
  = WriteVarInt 32 (CBaseTx.nVersion tx)
    ++ [TxType_code (CBaseTx.nTxType tx)]
    ++ WriteVarInt 32 (CBaseTx.valid_height tx)
    ++ Serialize CUserID_codec (CBaseTx.txUid tx)
    ++ WriteString (CBaseTx.fee_symbol tx)
    ++ WriteVarInt 64 (CBaseTx.llFees tx)
    ++ Serialize (vector MAX_SIZE DEXDealItem.codec) (CDEXSettleBaseTx.dealItems tx)
  /\ CDEXSettleTx.signature_hash_stream tx = CDEXSettleExTx.signature_hash_stream tx.
Proof.
  split; [|reflexivity].
  unfold CDEXSettleExTx.signature_hash_stream, stream_write, CHashWriter_ctor.
  cbn [VARINT uint8 string_codec Serialize app].
  rewrite <- !app_assoc. reflexivity.
Qed.

(** The bytes hashed depend on the common prefix and the deal items only. *)
Lemma settle_stream_agree (tx1 tx2 : CDEXSettleBaseTx.t) :
  CBaseTx.nVersion tx1 = CBaseTx.nVersion tx2 ->
  CBaseTx.nTxType tx1 = CBaseTx.nTxType tx2 ->
  CBaseTx.valid_height tx1 = CBaseTx.valid_height tx2 ->
  CBaseTx.txUid tx1 = CBaseTx.txUid tx2 ->
  CBaseTx.fee_symbol tx1 = CBaseTx.fee_symbol tx2 ->
  CBaseTx.llFees tx1 = CBaseTx.llFees tx2 ->
  CDEXSettleBaseTx.dealItems tx1 = CDEXSettleBaseTx.dealItems tx2 ->
  CDEXSettleExTx.signature_hash_stream tx1 = CDEXSettleExTx.signature_hash_stream tx2.
Proof.
  intros Hv Hty Hh Hu Hs Hf Hi.
  destruct (settle_stream tx1) as [-> _]. destruct (settle_stream tx2) as [-> _].
  now rewrite Hv, Hty, Hh, Hu, Hs, Hf, Hi.
Qed.

(** The wire form of the extended settle transaction. *)
Lemma CDEXSettleExTx_Serialize_wire (tx : CDEXSettleBaseTx.t) :
  CDEXSettleExTx.Serialize tx
  = WriteVarInt 32 (CBaseTx.nVersion tx)
    ++ WriteVarInt 32 (CBaseTx.valid_height tx)
    ++ Serialize CUserID_codec (CBaseTx.txUid tx)
    ++ WriteString (CBaseTx.fee_symbol tx)
    ++ WriteVarInt 64 (CBaseTx.llFees tx)
    ++ WriteVarInt 32 (CDEXSettleBaseTx.dex_id tx)
    ++ Serialize (vector MAX_SIZE DEXDealItem.codec) (CDEXSettleBaseTx.dealItems tx)
    ++ WriteString (CDEXSettleBaseTx.memo tx)
    ++ Serialize (vector MAX_SIZE uint8) (CBaseTx.signature tx).
Proof.
  unfold CDEXSettleExTx.Serialize. rewrite SerializeFields_flat_map.
  cbn [CDEXSettleExTx.fields flat_map field_codec field_get].
  cbn [VARINT string_codec Serialize]. rewrite app_nil_r. reflexivity.
Qed.

(** The wire form of the basic settle transaction. *)
Lemma CDEXSettleTx_Serialize_wire (tx : CDEXSettleBaseTx.t) :
  CDEXSettleTx.Serialize tx
  = WriteVarInt 32 (CBaseTx.nVersion tx)
    ++ WriteVarInt 32 (CBaseTx.valid_height tx)
    ++ Serialize CUserID_codec (CBaseTx.txUid tx)
    ++ WriteString (CBaseTx.fee_symbol tx)
    ++ WriteVarInt 64 (CBaseTx.llFees tx)
    ++ Serialize (vector MAX_SIZE DEXDealItem.codec) (CDEXSettleBaseTx.dealItems tx)
    ++ Serialize (vector MAX_SIZE uint8) (CBaseTx.signature tx).
Proof.
  unfold CDEXSettleTx.Serialize. rewrite SerializeFields_flat_map.
  cbn [CDEXSettleTx.fields flat_map field_codec field_get].
  cbn [VARINT string_codec Serialize]. rewrite app_nil_r. reflexivity.
Qed.

(** C1: the signature hash of an extended settle transaction is computed
    over the common prefix (version, tx_type, valid_height, tx_uid,
    fee_symbol, fees) and the deal items only.  Giving a transaction another
    dex_id and another memo changes neither the bytes hashed nor the hash
    [ComputeSignatureHash] returns; two transactions that agree on the
    prefix and the deal items hash the same bytes, get the same hash
    whenever it is computed (on [recalculate], or with no hash cached), and
    return the same hash from equal cache states.  Yet
    dex_id and memo are on the wire: the serializations of two such
    transactions are equal only if their dex_id and memo are. *)
Theorem CDEXSettleExTx_hash_ignores_dex_id_and_memo :
  (forall (tx : CDEXSettleBaseTx.t) (dexId : DexID) (memoText : string) recalculate,
     let tx' := CDEXSettleBaseTx.set_memo memoText (CDEXSettleBaseTx.set_dex_id dexId tx) in
     CDEXSettleExTx.signature_hash_stream tx' = CDEXSettleExTx.signature_hash_stream tx
     /\ fst (CDEXSettleExTx.ComputeSignatureHash recalculate tx')
        = fst (CDEXSettleExTx.ComputeSignatureHash recalculate tx))
  /\ (forall tx1 tx2 : CDEXSettleBaseTx.t,
        CBaseTx.nVersion tx1 = CBaseTx.nVersion tx2 ->
        CBaseTx.nTxType tx1 = CBaseTx.nTxType tx2 ->
        CBaseTx.valid_height tx1 = CBaseTx.valid_height tx2 ->
        CBaseTx.txUid tx1 = CBaseTx.txUid tx2 ->
        CBaseTx.fee_symbol tx1 = CBaseTx.fee_symbol tx2 ->
        CBaseTx.llFees tx1 = CBaseTx.llFees tx2 ->
        CDEXSettleBaseTx.dealItems tx1 = CDEXSettleBaseTx.dealItems tx2 ->
        CDEXSettleExTx.signature_hash_stream tx1 = CDEXSettleExTx.signature_hash_stream tx2
        /\ (forall recalculate1 recalculate2,
              recalculate1 || uint256_IsNull (CBaseTx.sigHash tx1) = true ->
              recalculate2 || uint256_IsNull (CBaseTx.sigHash tx2) = true ->
              fst (CDEXSettleExTx.ComputeSignatureHash recalculate1 tx1)
              = fst (CDEXSettleExTx.ComputeSignatureHash recalculate2 tx2))
        /\ (CBaseTx.sigHash tx1 = CBaseTx.sigHash tx2 ->
            forall recalculate,
              fst (CDEXSettleExTx.ComputeSignatureHash recalculate tx1)
              = fst (CDEXSettleExTx.ComputeSignatureHash recalculate tx2))
        /\ (representable (VARINT 32) (CDEXSettleBaseTx.dex_id tx1) ->
            representable (VARINT 32) (CDEXSettleBaseTx.dex_id tx2) ->
            representable string_codec (CDEXSettleBaseTx.memo tx1) ->
            representable string_codec (CDEXSettleBaseTx.memo tx2) ->
            CDEXSettleExTx.Serialize tx1 = CDEXSettleExTx.Serialize tx2 ->
            CDEXSettleBaseTx.dex_id tx1 = CDEXSettleBaseTx.dex_id tx2
            /\ CDEXSettleBaseTx.memo tx1 = CDEXSettleBaseTx.memo tx2)).
Proof.
  split.
  - intros tx dexId memoText recalculate tx'.
    assert (Hstream : CDEXSettleExTx.signature_hash_stream tx'
                      = CDEXSettleExTx.signature_hash_stream tx).
    { subst tx'. destruct tx as [[] ]. reflexivity. }
    split; [exact Hstream|].
    rewrite !CDEXSettleExTx_ComputeSignatureHash_value, Hstream.
    subst tx'. destruct tx as [[] ]. reflexivity.
  - intros tx1 tx2 Hv Hty Hh Hu Hs Hf Hi.
    pose proof (settle_stream_agree tx1 tx2 Hv Hty Hh Hu Hs Hf Hi) as Hstream.
    split; [exact Hstream|]. split; [|split].
    + intros recalculate1 recalculate2 Hc1 Hc2.
      rewrite !CDEXSettleExTx_ComputeSignatureHash_value. now rewrite Hc1, Hc2, Hstream.
    + intros Hcache recalculate.
      rewrite !CDEXSettleExTx_ComputeSignatureHash_value. now rewrite Hstream, Hcache.
    + intros Hd1 Hd2 Hm1 Hm2 Hwire.
      rewrite !CDEXSettleExTx_Serialize_wire in Hwire.
      rewrite Hv, Hh, Hu, Hs, Hf, Hi in Hwire.
      do 5 apply app_inv_head in Hwire.
      apply (codec_ok_inj (VARINT 32)) in Hwire; try assumption; [|apply VARINT_ok].
      destruct Hwire as [Hdex Hwire]. split; [exact Hdex|].
      apply app_inv_head in Hwire.
      apply (codec_ok_inj string_codec) in Hwire; try assumption; [|apply string_codec_ok].
      apply Hwire.
Qed.

(** C9: the constructors of [CDEXSettleTx] and [CDEXSettleExTx] both set the
    type tag DEX_TRADE_SETTLE_TX, and the transactions they build from the
    same tx_uid, valid_height, fee_symbol, fees and deal items have the same
    [CBaseTx] part and get the same signature hash while their
    serializations differ.  In general a basic and an extended settle
    transaction carrying that tag and agreeing on version, valid_height,
    tx_uid, fee_symbol, fees and deal items hash the same bytes, get the
    same hash whenever it is computed (on [recalculate], or with no hash
    cached), and return the same hash from equal cache states; signatures
    apart, the extended serialization is longer by the
    bytes of dex_id and memo, so with equal signatures the two differ. *)
Theorem settle_basic_and_extended_same_hash :
  (forall txUidIn validHeightIn feeSymbol fees dexIdIn dealItemsIn memoIn recalculate,
     let basic := CDEXSettleTx.ctor txUidIn validHeightIn feeSymbol fees dealItemsIn in
     let extended := CDEXSettleExTx.ctor txUidIn validHeightIn feeSymbol fees dexIdIn
                       dealItemsIn memoIn in
     CBaseTx.nTxType basic = DEX_TRADE_SETTLE_TX
     /\ CBaseTx.nTxType extended = DEX_TRADE_SETTLE_TX
     /\ CDEXSettleBaseTx.base basic = CDEXSettleBaseTx.base extended
     /\ CDEXSettleTx.signature_hash_stream basic
        = CDEXSettleExTx.signature_hash_stream extended
     /\ fst (CDEXSettleTx.ComputeSignatureHash recalculate basic)
        = fst (CDEXSettleExTx.ComputeSignatureHash recalculate extended)
     /\ CDEXSettleTx.Serialize basic <> CDEXSettleExTx.Serialize extended)
  /\ (forall basic extended : CDEXSettleBaseTx.t,
        CBaseTx.nTxType basic = DEX_TRADE_SETTLE_TX ->
        CBaseTx.nTxType extended = DEX_TRADE_SETTLE_TX ->
        CBaseTx.nVersion basic = CBaseTx.nVersion extended ->
        CBaseTx.valid_height basic = CBaseTx.valid_height extended ->
        CBaseTx.txUid basic = CBaseTx.txUid extended ->
        CBaseTx.fee_symbol basic = CBaseTx.fee_symbol extended ->
        CBaseTx.llFees basic = CBaseTx.llFees extended ->
        CDEXSettleBaseTx.dealItems basic = CDEXSettleBaseTx.dealItems extended ->
        CDEXSettleTx.signature_hash_stream basic
        = CDEXSettleExTx.signature_hash_stream extended
        /\ (forall recalculate1 recalculate2,
              recalculate1 || uint256_IsNull (CBaseTx.sigHash basic) = true ->
              recalculate2 || uint256_IsNull (CBaseTx.sigHash extended) = true ->
              fst (CDEXSettleTx.ComputeSignatureHash recalculate1 basic)
              = fst (CDEXSettleExTx.ComputeSignatureHash recalculate2 extended))
        /\ (CBaseTx.sigHash basic = CBaseTx.sigHash extended ->
            forall recalculate,
              fst (CDEXSettleTx.ComputeSignatureHash recalculate basic)
              = fst (CDEXSettleExTx.ComputeSignatureHash recalculate extended))
        /\ (List.length (CDEXSettleExTx.Serialize extended)
            + List.length (Serialize (vector MAX_SIZE uint8) (CBaseTx.signature basic))
            = List.length (CDEXSettleTx.Serialize basic)
              + List.length (Serialize (vector MAX_SIZE uint8) (CBaseTx.signature extended))
              + List.length (WriteVarInt 32 (CDEXSettleBaseTx.dex_id extended))
              + List.length (WriteString (CDEXSettleBaseTx.memo extended)))%nat
        /\ (CBaseTx.signature basic = CBaseTx.signature extended ->
            CDEXSettleTx.Serialize basic <> CDEXSettleExTx.Serialize extended)).
Proof.
  assert (Hgeneral : forall basic extended : CDEXSettleBaseTx.t,
    CBaseTx.nTxType basic = CBaseTx.nTxType extended ->
    CBaseTx.nVersion basic = CBaseTx.nVersion extended ->
    CBaseTx.valid_height basic = CBaseTx.valid_height extended ->
    CBaseTx.txUid basic = CBaseTx.txUid extended ->
    CBaseTx.fee_symbol basic = CBaseTx.fee_symbol extended ->
    CBaseTx.llFees basic = CBaseTx.llFees extended ->
    CDEXSettleBaseTx.dealItems basic = CDEXSettleBaseTx.dealItems extended ->
    CDEXSettleTx.signature_hash_stream basic
    = CDEXSettleExTx.signature_hash_stream extended
    /\ (CBaseTx.sigHash basic = CBaseTx.sigHash extended ->
        forall recalculate,
          fst (CDEXSettleTx.ComputeSignatureHash recalculate basic)
          = fst (CDEXSettleExTx.ComputeSignatureHash recalculate extended))
    /\ (List.length (CDEXSettleExTx.Serialize extended)
        + List.length (Serialize (vector MAX_SIZE uint8) (CBaseTx.signature basic))
        = List.length (CDEXSettleTx.Serialize basic)
          + List.length (Serialize (vector MAX_SIZE uint8) (CBaseTx.signature extended))
          + List.length (WriteVarInt 32 (CDEXSettleBaseTx.dex_id extended))
          + List.length (WriteString (CDEXSettleBaseTx.memo extended)))%nat).
  { intros basic extended Hty Hv Hh Hu Hs Hf Hi.
    assert (Hstream : CDEXSettleTx.signature_hash_stream basic
                      = CDEXSettleExTx.signature_hash_stream extended).
    { destruct (settle_stream basic) as [_ ->].
      now apply settle_stream_agree. }
    split; [exact Hstream|]. split.
    - intros Hcache recalculate.
      rewrite CDEXSettleTx_ComputeSignatureHash_value,
        CDEXSettleExTx_ComputeSignatureHash_value.
      now rewrite Hstream, Hcache.
    - rewrite CDEXSettleExTx_Serialize_wire, CDEXSettleTx_Serialize_wire.
      rewrite Hv, Hh, Hu, Hs, Hf, Hi. rewrite !length_app. lia. }
  assert (Hlonger : forall basic extended : CDEXSettleBaseTx.t,
    (List.length (CDEXSettleExTx.Serialize extended)
     + List.length (Serialize (vector MAX_SIZE uint8) (CBaseTx.signature basic))
     = List.length (CDEXSettleTx.Serialize basic)
       + List.length (Serialize (vector MAX_SIZE uint8) (CBaseTx.signature extended))
       + List.length (WriteVarInt 32 (CDEXSettleBaseTx.dex_id extended))
       + List.length (WriteString (CDEXSettleBaseTx.memo extended)))%nat ->
    CBaseTx.signature basic = CBaseTx.signature extended ->
    CDEXSettleTx.Serialize basic <> CDEXSettleExTx.Serialize extended).
  { intros basic extended Hlen Hsig Heq. rewrite Heq, Hsig in Hlen.
    pose proof (WriteVarInt_nonempty 32 (CDEXSettleBaseTx.dex_id extended)). lia. }
  split.
  - intros txUidIn validHeightIn feeSymbol fees dexIdIn dealItemsIn memoIn recalculate
      basic extended.
    destruct (Hgeneral basic extended) as (Hstream & Hhash & Hlen); try reflexivity.
    split; [reflexivity|]. split; [reflexivity|]. split; [reflexivity|].
    split; [exact Hstream|]. split; [apply Hhash; reflexivity|].
    apply Hlonger; [exact Hlen | reflexivity].
  - intros basic extended Htb Hte Hv Hh Hu Hs Hf Hi.
    destruct (Hgeneral basic extended) as (Hstream & Hhash & Hlen);
      try assumption; [congruence|].
    split; [exact Hstream|]. split; [|split; [|split]].
    + intros recalculate1 recalculate2 Hc1 Hc2.
      rewrite CDEXSettleTx_ComputeSignatureHash_value,
        CDEXSettleExTx_ComputeSignatureHash_value.
      now rewrite Hc1, Hc2, Hstream.
    + exact Hhash.
    + exact Hlen.
    + now apply Hlonger.
Qed.

End SettleSignatureHash.

(** ** The theorems at the fixture's transactions *)

(** The two extended settle transactions of the fixture differ in dex_id and
    memo and get the same signature hash; their serializations differ. *)
Lemma CDEXSettleExTx_hash_ignores_dex_id_and_memo_witness :
  CDEXSettleBaseTx.dex_id Fixture.settle_ex_1 <> CDEXSettleBaseTx.dex_id Fixture.settle_ex_2
  /\ CDEXSettleBaseTx.memo Fixture.settle_ex_1 <> CDEXSettleBaseTx.memo Fixture.settle_ex_2
  /\ fst (CDEXSettleExTx.ComputeSignatureHash false Fixture.settle_ex_1)
     = fst (CDEXSettleExTx.ComputeSignatureHash false Fixture.settle_ex_2)
  /\ CDEXSettleExTx.Serialize Fixture.settle_ex_1
     <> CDEXSettleExTx.Serialize Fixture.settle_ex_2.
Proof.
  destruct (@CDEXSettleExTx_hash_ignores_dex_id_and_memo Fixture.external) as [_ Hpair].
  destruct (Hpair Fixture.settle_ex_1 Fixture.settle_ex_2
              eq_refl eq_refl eq_refl eq_refl eq_refl eq_refl eq_refl)
    as (_ & _ & Hcache & Hwire).
  split; [cbn; lia|]. split; [discriminate|]. split; [apply Hcache; reflexivity|].
  intros Heq. apply Hwire in Heq; [destruct Heq as [Hdex _]; cbn in Hdex; lia| | | | ];
    decide_well_formed.
Defined.

(** The extended limit buy order of the fixture: other signature bytes give
    the same hash, another operator regid gives other bytes to hash. *)
Lemma extended_order_hash_signatures_and_operator_witness :
  fst (CDEXBuyLimitOrderExTx.ComputeSignatureHash false
         (CDEXOrderBaseTx.with_signatures [x01; x02] [x03] Fixture.limit_buy_ex))
  = fst (CDEXBuyLimitOrderExTx.ComputeSignatureHash false Fixture.limit_buy_ex)
  /\ CDEXBuyLimitOrderExTx.signature_hash_stream
       (CDEXOrderBaseTx.set_operator_signature_pair
          (Some (@CSignaturePair.ctor Fixture.external (10, 1))) Fixture.limit_buy_ex)
     <> CDEXBuyLimitOrderExTx.signature_hash_stream
          (CDEXOrderBaseTx.set_operator_signature_pair
             (Some (@CSignaturePair.ctor Fixture.external (10, 2))) Fixture.limit_buy_ex).
Proof.
  destruct (@extended_order_hash_signatures_and_operator Fixture.external Fixture_laws)
    as ((Hexcludes & Hincludes) & _).
  split.
  - apply Hexcludes.
  - apply Hincludes; [decide_well_formed | decide_well_formed | discriminate].
Defined.

(** The basic and the extended settle transaction of the fixture get the
    same hash, and the extended serialization is longer. *)
Lemma settle_basic_and_extended_same_hash_witness :
  fst (CDEXSettleTx.ComputeSignatureHash true Fixture.settle_basic)
  = fst (CDEXSettleExTx.ComputeSignatureHash true Fixture.settle_ex_1)
  /\ CDEXSettleTx.Serialize Fixture.settle_basic
     <> CDEXSettleExTx.Serialize Fixture.settle_ex_1.
Proof.
  destruct (@settle_basic_and_extended_same_hash Fixture.external) as [_ Hpair].
  destruct (Hpair Fixture.settle_basic Fixture.settle_ex_1
              eq_refl eq_refl eq_refl eq_refl eq_refl eq_refl eq_refl eq_refl)
    as (_ & Hhash & _ & _ & Hwire).
  split; [apply Hhash; reflexivity|]. apply Hwire. reflexivity.
Defined.

(** ** Running the definitions *)

Example WriteVarInt_vectors :
  map (WriteVarInt 64) [0; 127; 128; 300; 16384]
  = [[x00]; [x7f]; [x81; x00]; [x82; x2c]; [x81; x80; x00]].
Proof.
  vm_compute. reflexivity.
Qed.

(** A redundant leading byte and a stream that ends inside the integer are
    refused; what follows the integer is left in the stream. *)
Example ReadVarInt_vectors :
  map (ReadVarInt 64) [[x80; x01]; [x81]; [x81; x00; xff]]
  = [None; None; Some (128, [xff])].
Proof.
  vm_compute. reflexivity.
Qed.

(** The order record of the fixture on the wire: mode, dex_id,
    operator_fee_ratio, three enum bytes, two symbols, three amounts,
    tx_cord, user_regid, two totals, and tx_cord again. *)
Example order_detail_wire :
  @CDEXOrderDetail.Serialize Fixture.external Fixture.order_detail
  = [x01] ++ [x07] ++ [x98; xb5; x00] ++ [x01] ++ [x01] ++ [x01]
    ++ WriteString "WUSD" ++ WriteString "WICC"
    ++ [x92; xd0; x97; xe4; x00] ++ [x05] ++ [x83; xdc; xeb; x94; x00]
    ++ [x89; x30; x03] ++ [x87; x68; x02] ++ [x82; x2c] ++ [x03]
    ++ [x89; x30; x03].
Proof.
  vm_compute. reflexivity.
Qed.

(** The buy-market constructor drops the memo it is given; the sell-market
    one keeps it. *)
Example market_order_ex_memo :
  CDEXOrderBaseTx.memo
    (@CDEXBuyMarketOrderExTx.ctor Fixture.external (1000, 2) 1500 "WICC"%string 10000
       (OrderOperatorMode.of_Mode OrderOperatorMode.REQUIRE_AUTH) 7 400000
       "WUSD"%string "WICC"%string 5 "market buy"%string (Some (10, 1)))
  = EmptyString
  /\ CDEXOrderBaseTx.memo
       (@CDEXSellMarketOrderExTx.ctor Fixture.external (1000, 2) 1500 "WICC"%string 10000
          (OrderOperatorMode.of_Mode OrderOperatorMode.REQUIRE_AUTH) 7 400000
          "WUSD"%string "WICC"%string 5 "market sell"%string (Some (10, 1)))
     = "market sell"%string.
Proof.
  split; vm_compute; reflexivity.
Qed.

(** A second call returns the hash the first call cached, also after the
    deal items have changed; only [recalculate] brings it up to date. *)
Example ComputeSignatureHash_cache :
  let (h1, tx1) := CDEXSettleExTx.ComputeSignatureHash false Fixture.settle_ex_1 in
  let tx2 := CDEXSettleBaseTx.AddDealItem Fixture.deal_item tx1 in
  fst (CDEXSettleExTx.ComputeSignatureHash false tx2) = h1
  /\ fst (CDEXSettleExTx.ComputeSignatureHash true tx2) <> h1.
Proof.
  vm_compute. split; [reflexivity | discriminate].
Qed.

(** * Further properties of the code *)

(** ** Vectors and the remaining primitive codecs *)

Lemma byte_of_Z_of_byte (b : byte) : byte_of_Z (Z_of_byte b) = b.
Proof.
  pose proof (Z_of_byte_range b) as Hr.
  unfold byte_of_Z. rewrite Z.mod_small by exact Hr.
  unfold Z_of_byte. rewrite N2Z.id, Byte.of_to_N. reflexivity.
Qed.

(** Reading as many elements as were written gives them back. *)
Lemma ReadMany_flat_map {A} (c : Codec A) (v : list A) (rest : list byte) :
  codec_ok c -> Forall (representable c) v ->
  ReadMany (Unserialize c) (List.length v) (flat_map (Serialize c) v ++ rest)
  = Some (v, rest).
Proof.
  intros Hc. induction v as [|x v IH]; intros Hv.
  - reflexivity.
  - inversion Hv as [|? ? Hx Hv']; subst.
    cbn [List.length ReadMany flat_map]. unfold bind.
    rewrite <- app_assoc, Hc by exact Hx. rewrite IH by exact Hv'. reflexivity.
Qed.

(** A vector within the ceiling, of elements that are read back as
    written, is read back as written. *)
Lemma vector_ok {A} (max_size : Z) (c : Codec A) : codec_ok c -> codec_ok (vector max_size c).
Proof.
  intros Hc v rest (Hlen & Hmax & Hv).
  cbn [vector Serialize Unserialize]. unfold bind. rewrite <- app_assoc.
  pose proof (VARINT_ok 64 (Z.of_nat (List.length v)) (flat_map (Serialize c) v ++ rest))
    as Hn.
  cbn [VARINT representable Serialize Unserialize] in Hn. rewrite Hn by lia.
  destruct (Z.leb_spec (Z.of_nat (List.length v)) max_size) as [_|Hgt]; [|lia].
  rewrite Nat2Z.id. now apply ReadMany_flat_map.
Qed.

#[export] Hint Extern 1 (codec_ok (vector _ _)) => apply vector_ok : codec_db.
#[export] Hint Extern 1 (codec_ok (optional _)) => apply optional_ok : codec_db.

Lemma Forall_True {A} (l : list A) : Forall (fun _ => True) l.
Proof.
  induction l; constructor; auto.
Qed.

(** Every byte is a value of [uint8_t]: a signature is representable when
    its size is. *)
Lemma signature_representable (max_size : Z) (sig : list byte) :
  Z.of_nat (List.length sig) < 2 ^ 64 -> Z.of_nat (List.length sig) <= max_size ->
  representable (vector max_size uint8) sig.
Proof.
  intros H1 H2. cbn [vector representable]. repeat split; try assumption.
  apply Forall_True.
Qed.

Section DealItems.
Context {E : External} {L : ExternalLaws E}.

Lemma DEXDealItem_representable (x : DEXDealItem.t) :
  DEXDealItem.well_formed x -> representable DEXDealItem.codec x.
Proof.
  unfold DEXDealItem.well_formed. intros Hwf.
  cbn [DEXDealItem.codec representable]. unfold DEXDealItem.fields. fields_rep; tauto.
Qed.

Lemma DEXDealItem_codec_ok : codec_ok DEXDealItem.codec.
Proof.
  intros x rest Hx. cbn [DEXDealItem.codec Serialize Unserialize representable] in *.
  unfold DEXDealItem.Unserialize, DEXDealItem.Serialize.
  rewrite UnserializeFields_SerializeFields.
  - destruct x. reflexivity.
  - unfold DEXDealItem.fields. fields_ok.
  - exact Hx.
Qed.

Lemma dealItems_representable (max_size : Z) (items : list DEXDealItem.t) :
  Z.of_nat (List.length items) < 2 ^ 64 -> Z.of_nat (List.length items) <= max_size ->
  Forall DEXDealItem.well_formed items ->
  representable (vector max_size DEXDealItem.codec) items.
Proof.
  intros H1 H2 H3. cbn [vector representable]. repeat split; try assumption.
  revert H3. apply Forall_impl. exact DEXDealItem_representable.
Qed.

End DealItems.

#[export] Hint Resolve DEXDealItem_codec_ok : codec_db.


(** ** entities/dexorder.h: names of the enumerators *)

(** X1: [CheckOrderSide] accepts exactly ORDER_BUY and ORDER_SELL, and
    [CheckOrderType] exactly ORDER_LIMIT_PRICE and ORDER_MARKET_PRICE;
    [GetOrderSideName] and [GetOrderTypeName] fail their assertion exactly
    on the values the checks reject, and two values the checks accept have
    different names; [GetOrderGenTypeName] returns [EMPTY_STRING] for every
    value that is none of the three enumerators. *)
Theorem order_enum_names_follow_checks :
  (forall side : OrderSide,
     (CheckOrderSide side = true <-> side = ORDER_BUY \/ side = ORDER_SELL)
     /\ (GetOrderSideName side = None <-> CheckOrderSide side = false))
  /\ (forall ty : OrderType,
        (CheckOrderType ty = true <-> ty = ORDER_LIMIT_PRICE \/ ty = ORDER_MARKET_PRICE)
        /\ (GetOrderTypeName ty = None <-> CheckOrderType ty = false))
  /\ (forall s1 s2 : OrderSide,
        CheckOrderSide s1 = true -> GetOrderSideName s1 = GetOrderSideName s2 -> s1 = s2)
  /\ (forall t1 t2 : OrderType,
        CheckOrderType t1 = true -> GetOrderTypeName t1 = GetOrderTypeName t2 -> t1 = t2)
  /\ (forall (EMPTY_STRING : string) (genType : OrderGenerateType),
        genType <> EMPTY_ORDER -> genType <> USER_GEN_ORDER -> genType <> SYSTEM_GEN_ORDER ->
        GetOrderGenTypeName EMPTY_STRING genType = EMPTY_STRING).
Proof.
  split; [|split; [|split; [|split]]].
  - intros side. destruct side; cbv; (split; split; intros H;
      first [reflexivity | discriminate | (left; reflexivity) | (right; reflexivity)
            | (destruct H as [H|H]; discriminate H)]).
  - intros ty. destruct ty; cbv; (split; split; intros H;
      first [reflexivity | discriminate | (left; reflexivity) | (right; reflexivity)
            | (destruct H as [H|H]; discriminate H)]).
  - intros s1 s2 Hc. destruct s1; try discriminate Hc;
      destruct s2; cbv; intros H; first [reflexivity | discriminate H].
  - intros t1 t2 Hc. destruct t1; try discriminate Hc;
      destruct t2; cbv; intros H; first [reflexivity | discriminate H].
  - intros ES g H0 H1 H2. destruct g; try reflexivity; exfalso;
      first [apply H0; reflexivity | apply H1; reflexivity | apply H2; reflexivity].
Qed.

(** ** entities/dexorder.h: injective serialization, SetEmpty and IsEmpty *)

Section MoreEntities.
Context {E : External}.

(** What is read back as written is written apart. *)
Lemma roundtrip_inj {T} (Serialize : T -> list byte) (Unserialize : T -> Reader T)
    (well_formed : T -> Prop) :
  (forall this x rest, well_formed x -> Unserialize this (Serialize x ++ rest) = Some (x, rest)) ->
  forall x y s t, well_formed x -> well_formed y ->
    Serialize x ++ s = Serialize y ++ t -> x = y /\ s = t.
Proof.
  intros Hrt x y s t Hx Hy Heq.
  pose proof (Hrt x x s Hx) as H1. rewrite Heq, (Hrt x y t Hy) in H1.
  injection H1 as -> ->. split; reflexivity.
Qed.

(** X18: the serializations of two DEX entities whose members hold values
    of their C++ types, each followed by any bytes, are equal only if the
    entities are equal and the bytes that follow are: no serialization of
    an order record, active order, operator record or deal item is a
    proper prefix of another. *)
Theorem dex_entities_written_apart {L : ExternalLaws E} (s t : list byte) :
  (forall x y : CDEXOrderDetail.t,
     CDEXOrderDetail.well_formed x -> CDEXOrderDetail.well_formed y ->
     CDEXOrderDetail.Serialize x ++ s = CDEXOrderDetail.Serialize y ++ t -> x = y /\ s = t)
  /\ (forall x y : CDEXActiveOrder.t,
        CDEXActiveOrder.well_formed x -> CDEXActiveOrder.well_formed y ->
        CDEXActiveOrder.Serialize x ++ s = CDEXActiveOrder.Serialize y ++ t -> x = y /\ s = t)
  /\ (forall x y : DexOperatorDetail.t,
        DexOperatorDetail.well_formed x -> DexOperatorDetail.well_formed y ->
        DexOperatorDetail.Serialize x ++ s = DexOperatorDetail.Serialize y ++ t
        -> x = y /\ s = t)
  /\ (forall x y : DEXDealItem.t,
        DEXDealItem.well_formed x -> DEXDealItem.well_formed y ->
        DEXDealItem.Serialize x ++ s = DEXDealItem.Serialize y ++ t -> x = y /\ s = t).
Proof.
  split; [|split; [|split]]; intros x y.
  - apply (roundtrip_inj _ CDEXOrderDetail.Unserialize). exact CDEXOrderDetail_roundtrip.
  - apply (roundtrip_inj _ CDEXActiveOrder.Unserialize). exact CDEXActiveOrder_roundtrip.
  - apply (roundtrip_inj _ DexOperatorDetail.Unserialize). exact DexOperatorDetail_roundtrip.
  - apply (roundtrip_inj _ DEXDealItem.Unserialize). exact DEXDealItem_roundtrip.
Qed.

(** X19: [CDEXActiveOrder::SetEmpty] resets every member: the result is
    EMPTY_ORDER with zero totals and the emptied tx_cord, it passes
    [IsEmpty], it depends on the tx_cord of the object only, and it is the
    default-constructed object when emptying the tx_cord gives the default
    tx_cord.  An object built by the two-argument constructor passes
    [IsEmpty] exactly when it was given EMPTY_ORDER. *)
Theorem CDEXActiveOrder_SetEmpty_resets_all (o : CDEXActiveOrder.t) :
  CDEXActiveOrder.SetEmpty o
  = {| CDEXActiveOrder.generate_type := EMPTY_ORDER;
       CDEXActiveOrder.tx_cord := CTxCord_SetEmpty (CDEXActiveOrder.tx_cord o);
       CDEXActiveOrder.total_deal_coin_amount := 0;
       CDEXActiveOrder.total_deal_asset_amount := 0 |}
  /\ CDEXActiveOrder.IsEmpty (CDEXActiveOrder.SetEmpty o) = true
  /\ CDEXActiveOrder.IsEmpty CDEXActiveOrder.ctor = true
  /\ (CTxCord_SetEmpty (CDEXActiveOrder.tx_cord o) = CTxCord_ctor ->
      CDEXActiveOrder.SetEmpty o = CDEXActiveOrder.ctor)
  /\ (forall generateType txCord,
        CDEXActiveOrder.IsEmpty (CDEXActiveOrder.ctor2 generateType txCord) = true
        <-> generateType = EMPTY_ORDER)
  /\ (forall o' : CDEXActiveOrder.t,
        CDEXActiveOrder.tx_cord o' = CDEXActiveOrder.tx_cord o ->
        CDEXActiveOrder.SetEmpty o' = CDEXActiveOrder.SetEmpty o).
Proof.
  destruct o as [g c tc ta]. unfold CDEXActiveOrder.SetEmpty, CDEXActiveOrder.IsEmpty. cbn.
  split; [reflexivity|]. split; [reflexivity|]. split; [reflexivity|].
  split; [|split].
  - intros ->. reflexivity.
  - intros generateType _. split.
    + intros H. now apply Byte.byte_dec_bl in H.
    + intros ->. reflexivity.
  - intros [g' c' tc' ta']. cbn. intros ->. reflexivity.
Qed.

Lemma length_eqb_0 (s : string) : (String.length s =? 0)%nat = true <-> s = EmptyString.
Proof.
  destruct s; cbn; split; intros H; first [reflexivity | discriminate H].
Qed.

(** X20: [DexOperatorDetail::IsEmpty] holds exactly when both regids are
    empty, the three strings are empty and both fee ratios are 0.
    [SetEmpty] empties both regids and resets the other five members; its
    result passes [IsEmpty] exactly when the two emptied regids pass
    [CRegID::IsEmpty]. *)
Theorem DexOperatorDetail_IsEmpty_SetEmpty (CRegID_IsEmpty : CRegID -> bool)
    (o : DexOperatorDetail.t) :
  (DexOperatorDetail.IsEmpty CRegID_IsEmpty o = true
   <-> CRegID_IsEmpty (DexOperatorDetail.owner_regid o) = true
       /\ CRegID_IsEmpty (DexOperatorDetail.match_regid o) = true
       /\ DexOperatorDetail.name o = EmptyString
       /\ DexOperatorDetail.portal_url o = EmptyString
       /\ DexOperatorDetail.maker_fee_ratio o = 0
       /\ DexOperatorDetail.taker_fee_ratio o = 0
       /\ DexOperatorDetail.memo o = EmptyString)
  /\ DexOperatorDetail.SetEmpty o
     = {| DexOperatorDetail.owner_regid := CRegID_SetEmpty (DexOperatorDetail.owner_regid o);
          DexOperatorDetail.match_regid := CRegID_SetEmpty (DexOperatorDetail.match_regid o);
          DexOperatorDetail.name := EmptyString;
          DexOperatorDetail.portal_url := EmptyString;
          DexOperatorDetail.maker_fee_ratio := 0;
          DexOperatorDetail.taker_fee_ratio := 0;
          DexOperatorDetail.memo := EmptyString |}
  /\ (DexOperatorDetail.IsEmpty CRegID_IsEmpty (DexOperatorDetail.SetEmpty o) = true
      <-> CRegID_IsEmpty (CRegID_SetEmpty (DexOperatorDetail.owner_regid o)) = true
          /\ CRegID_IsEmpty (CRegID_SetEmpty (DexOperatorDetail.match_regid o)) = true)
  /\ (DexOperatorDetail.IsEmpty CRegID_IsEmpty DexOperatorDetail.ctor
      = CRegID_IsEmpty CRegID_ctor).
Proof.
  destruct o as [ow ma na po mk tk me].
  unfold DexOperatorDetail.IsEmpty, DexOperatorDetail.SetEmpty. cbn.
  split; [|split; [reflexivity|split]].
  - rewrite !andb_true_iff, !length_eqb_0, !Z.eqb_eq. tauto.
  - rewrite !andb_true_r. apply andb_true_iff.
  - destruct (CRegID_IsEmpty CRegID_ctor); reflexivity.
Qed.

End MoreEntities.

(** ** tx/dextx.h: constructors and the operator regid *)

Section MoreConstructors.
Context {E : External}.
Import (coercions) CDEXOrderBaseTx.

(** X2: a transaction built by a limit-order base constructor, or by a
    constructor of a derived class through it, has the limit-order shape
    for all arguments: order_type = ORDER_LIMIT_PRICE, the side of its
    class, coin_amount = 0, and the asset_amount and the price of its
    arguments.  The sell constructor differs from the buy constructor in
    the side only. *)
Theorem limit_order_ctor_shape
    (nTxTypeIn : TxType) (txUidIn : CUserID) (validHeightIn : Z)
    (feeSymbol : TokenSymbol) (fees : Z) (modeIn : OrderOperatorMode.t) (dexIdIn : DexID)
    (orderFeeRatioIn : Z) (coinSymbol assetSymbol : TokenSymbol) (assetAmountIn priceIn : Z)
    (memoRef : CDEXOrderBaseTx.StringRef) (memoIn : string)
    (pOperatorRegidIn : option CRegID) :
  let buy := CDEXBuyLimitOrderBaseTx.ctor nTxTypeIn txUidIn validHeightIn feeSymbol fees
               modeIn dexIdIn orderFeeRatioIn coinSymbol assetSymbol assetAmountIn priceIn
               memoRef pOperatorRegidIn in
  let buy_basic := CDEXBuyLimitOrderTx.ctor txUidIn validHeightIn feeSymbol fees
               coinSymbol assetSymbol assetAmountIn priceIn in
  let buy_ex := CDEXBuyLimitOrderExTx.ctor txUidIn validHeightIn feeSymbol fees
               modeIn dexIdIn orderFeeRatioIn coinSymbol assetSymbol assetAmountIn priceIn
               memoIn pOperatorRegidIn in
  let sell := CDEXSellLimitOrderBaseTx.ctor nTxTypeIn txUidIn validHeightIn feeSymbol fees
               modeIn dexIdIn orderFeeRatioIn coinSymbol assetSymbol assetAmountIn priceIn
               memoRef pOperatorRegidIn in
  let sell_basic := CDEXSellLimitOrderTx.ctor txUidIn validHeightIn feeSymbol fees
               coinSymbol assetSymbol assetAmountIn priceIn in
  let sell_ex := CDEXSellLimitOrderExTx.ctor txUidIn validHeightIn feeSymbol fees
               modeIn dexIdIn orderFeeRatioIn coinSymbol assetSymbol assetAmountIn priceIn
               memoIn pOperatorRegidIn in
  Forall (fun tx => CDEXOrderBaseTx.order_type tx = ORDER_LIMIT_PRICE
                    /\ CDEXOrderBaseTx.order_side tx = ORDER_BUY
                    /\ CDEXOrderBaseTx.coin_amount tx = 0
                    /\ CDEXOrderBaseTx.asset_amount tx = assetAmountIn
                    /\ CDEXOrderBaseTx.price tx = priceIn)
         [buy; buy_basic; buy_ex]
  /\ Forall (fun tx => CDEXOrderBaseTx.order_type tx = ORDER_LIMIT_PRICE
                       /\ CDEXOrderBaseTx.order_side tx = ORDER_SELL
                       /\ CDEXOrderBaseTx.coin_amount tx = 0
                       /\ CDEXOrderBaseTx.asset_amount tx = assetAmountIn
                       /\ CDEXOrderBaseTx.price tx = priceIn)
            [sell; sell_basic; sell_ex]
  /\ CDEXOrderBaseTx.set_order_side ORDER_SELL buy = sell.
Proof.
  intros buy buy_basic buy_ex sell sell_basic sell_ex.
  subst buy buy_basic buy_ex sell sell_basic sell_ex.
  unfold CDEXBuyLimitOrderTx.ctor, CDEXBuyLimitOrderExTx.ctor,
    CDEXSellLimitOrderTx.ctor, CDEXSellLimitOrderExTx.ctor,
    CDEXBuyLimitOrderBaseTx.ctor, CDEXSellLimitOrderBaseTx.ctor.
  split; [|split]; repeat apply Forall_cons; try apply Forall_nil;
    destruct pOperatorRegidIn; cbn; repeat split.
Qed.

(** X3: every order built by one of the twelve constructors passes
    [CheckOrderSide] and [CheckOrderType], and [GetOrderSideName] and
    [GetOrderTypeName] give the side and the type of its class.  An order
    made by the one-argument constructor has the names BUY and LIMIT_PRICE,
    whatever its class. *)
Theorem constructed_orders_pass_checks
    (nTxTypeIn : TxType) (txUidIn : CUserID) (validHeightIn : Z)
    (feeSymbol : TokenSymbol) (fees : Z) (modeIn : OrderOperatorMode.t) (dexIdIn : DexID)
    (orderFeeRatioIn : Z) (coinSymbol assetSymbol : TokenSymbol) (amountIn priceIn : Z)
    (memoRef : CDEXOrderBaseTx.StringRef) (memoIn : string)
    (pOperatorRegidIn : option CRegID) :
  let named (side type : string) (tx : CDEXOrderBaseTx.t) :=
    CheckOrderSide (CDEXOrderBaseTx.order_side tx) = true
    /\ CheckOrderType (CDEXOrderBaseTx.order_type tx) = true
    /\ GetOrderSideName (CDEXOrderBaseTx.order_side tx) = Some side
    /\ GetOrderTypeName (CDEXOrderBaseTx.order_type tx) = Some type in
  Forall (named "BUY" "LIMIT_PRICE")%string
    [ CDEXBuyLimitOrderBaseTx.ctor nTxTypeIn txUidIn validHeightIn feeSymbol fees modeIn
        dexIdIn orderFeeRatioIn coinSymbol assetSymbol amountIn priceIn memoRef
        pOperatorRegidIn;
      CDEXBuyLimitOrderTx.ctor txUidIn validHeightIn feeSymbol fees coinSymbol assetSymbol
        amountIn priceIn;
      CDEXBuyLimitOrderExTx.ctor txUidIn validHeightIn feeSymbol fees modeIn dexIdIn
        orderFeeRatioIn coinSymbol assetSymbol amountIn priceIn memoIn pOperatorRegidIn ]
  /\ Forall (named "SELL" "LIMIT_PRICE")%string
    [ CDEXSellLimitOrderBaseTx.ctor nTxTypeIn txUidIn validHeightIn feeSymbol fees modeIn
        dexIdIn orderFeeRatioIn coinSymbol assetSymbol amountIn priceIn memoRef
        pOperatorRegidIn;
      CDEXSellLimitOrderTx.ctor txUidIn validHeightIn feeSymbol fees coinSymbol assetSymbol
        amountIn priceIn;
      CDEXSellLimitOrderExTx.ctor txUidIn validHeightIn feeSymbol fees modeIn dexIdIn
        orderFeeRatioIn coinSymbol assetSymbol amountIn priceIn memoIn pOperatorRegidIn ]
  /\ Forall (named "BUY" "MARKET_PRICE")%string
    [ CDEXBuyMarketOrderBaseTx.ctor nTxTypeIn txUidIn validHeightIn feeSymbol fees modeIn
        dexIdIn orderFeeRatioIn coinSymbol assetSymbol amountIn memoRef pOperatorRegidIn;
      CDEXBuyMarketOrderTx.ctor txUidIn validHeightIn feeSymbol fees coinSymbol assetSymbol
        amountIn;
      CDEXBuyMarketOrderExTx.ctor txUidIn validHeightIn feeSymbol fees modeIn dexIdIn
        orderFeeRatioIn coinSymbol assetSymbol amountIn memoIn pOperatorRegidIn ]
  /\ Forall (named "SELL" "MARKET_PRICE")%string
    [ CDEXSellMarketOrderBaseTx.ctor nTxTypeIn txUidIn validHeightIn feeSymbol fees modeIn
        dexIdIn orderFeeRatioIn coinSymbol assetSymbol amountIn memoRef pOperatorRegidIn;
      CDEXSellMarketOrderTx.ctor txUidIn validHeightIn feeSymbol fees coinSymbol assetSymbol
        amountIn;
      CDEXSellMarketOrderExTx.ctor txUidIn validHeightIn feeSymbol fees modeIn dexIdIn
        orderFeeRatioIn coinSymbol assetSymbol amountIn memoIn pOperatorRegidIn ]
  /\ (forall baseIn : CBaseTx.t, (named "BUY" "LIMIT_PRICE" (CDEXOrderBaseTx.ctor1 baseIn))%string).
Proof.
  intros named. subst named. cbv beta.
  unfold CDEXBuyLimitOrderTx.ctor, CDEXBuyLimitOrderExTx.ctor,
    CDEXSellLimitOrderTx.ctor, CDEXSellLimitOrderExTx.ctor,
    CDEXBuyMarketOrderTx.ctor, CDEXBuyMarketOrderExTx.ctor,
    CDEXSellMarketOrderTx.ctor, CDEXSellMarketOrderExTx.ctor,
    CDEXBuyLimitOrderBaseTx.ctor, CDEXSellLimitOrderBaseTx.ctor,
    CDEXBuyMarketOrderBaseTx.ctor, CDEXSellMarketOrderBaseTx.ctor.
  repeat split; repeat apply Forall_cons; try apply Forall_nil;
    destruct pOperatorRegidIn; cbn; repeat split.
Qed.

(** X4: the constructor of an extended order class passes the tag of its
    class to [CBaseTx] and stores mode, dex_id, the fee ratio and the two
    symbols of its arguments; [GetOperatorRegid] then returns the regid
    [pOperatorRegidIn] points to, or nothing for a null pointer, and the
    operator pair holds no signature yet.  The memo is [memoIn] in three of
    the four classes. *)
Theorem extended_order_ctor_stores_arguments
    (txUidIn : CUserID) (validHeightIn : Z) (feeSymbol : TokenSymbol) (fees : Z)
    (modeIn : OrderOperatorMode.t) (dexIdIn : DexID) (orderFeeRatioIn : Z)
    (coinSymbol assetSymbol : TokenSymbol) (amountIn priceIn : Z) (memoIn : string)
    (pOperatorRegidIn : option CRegID) :
  let stored (tag : TxType) (tx : CDEXOrderBaseTx.t) :=
    CDEXOrderBaseTx.base tx = CBaseTx.ctor tag txUidIn validHeightIn feeSymbol fees
    /\ CDEXOrderBaseTx.mode tx = modeIn
    /\ CDEXOrderBaseTx.dex_id tx = dexIdIn
    /\ CDEXOrderBaseTx.operator_fee_ratio tx = orderFeeRatioIn
    /\ CDEXOrderBaseTx.coin_symbol tx = coinSymbol
    /\ CDEXOrderBaseTx.asset_symbol tx = assetSymbol
    /\ CDEXOrderBaseTx.GetOperatorRegid tx = pOperatorRegidIn
    /\ CDEXOrderBaseTx.operator_signature_pair tx
       = option_map CSignaturePair.ctor pOperatorRegidIn in
  let buy_limit := CDEXBuyLimitOrderExTx.ctor txUidIn validHeightIn feeSymbol fees modeIn
        dexIdIn orderFeeRatioIn coinSymbol assetSymbol amountIn priceIn memoIn
        pOperatorRegidIn in
  let sell_limit := CDEXSellLimitOrderExTx.ctor txUidIn validHeightIn feeSymbol fees modeIn
        dexIdIn orderFeeRatioIn coinSymbol assetSymbol amountIn priceIn memoIn
        pOperatorRegidIn in
  let buy_market := CDEXBuyMarketOrderExTx.ctor txUidIn validHeightIn feeSymbol fees modeIn
        dexIdIn orderFeeRatioIn coinSymbol assetSymbol amountIn memoIn pOperatorRegidIn in
  let sell_market := CDEXSellMarketOrderExTx.ctor txUidIn validHeightIn feeSymbol fees modeIn
        dexIdIn orderFeeRatioIn coinSymbol assetSymbol amountIn memoIn pOperatorRegidIn in
  stored DEX_LIMIT_BUY_ORDER_EX_TX buy_limit
  /\ stored DEX_LIMIT_SELL_ORDER_EX_TX sell_limit
  /\ stored DEX_MARKET_BUY_ORDER_EX_TX buy_market
  /\ stored DEX_MARKET_SELL_ORDER_EX_TX sell_market
  /\ Forall (fun tx => CDEXOrderBaseTx.memo tx = memoIn) [buy_limit; sell_limit; sell_market].
Proof.
  intros stored buy_limit sell_limit buy_market sell_market.
  subst stored buy_limit sell_limit buy_market sell_market. cbv beta.
  unfold CDEXBuyLimitOrderExTx.ctor, CDEXSellLimitOrderExTx.ctor,
    CDEXBuyMarketOrderExTx.ctor, CDEXSellMarketOrderExTx.ctor,
    CDEXBuyLimitOrderBaseTx.ctor, CDEXSellLimitOrderBaseTx.ctor,
    CDEXBuyMarketOrderBaseTx.ctor, CDEXSellMarketOrderBaseTx.ctor.
  repeat split; repeat apply Forall_cons; try apply Forall_nil;
    destruct pOperatorRegidIn; reflexivity.
Qed.

(** X5: [GetOperatorRegid] after [SetOperatorRegid] returns the regid that
    was passed, and what it returned before when a null pointer was passed.
    A call with a regid replaces the whole pair, so a signature the pair
    held is dropped; no other member changes, and a second call overrides
    the first unless it passes a null pointer. *)
Theorem SetOperatorRegid_then_GetOperatorRegid
    (tx : CDEXOrderBaseTx.t) (pOperatorRegidIn : option CRegID) :
  let tx' := CDEXOrderBaseTx.SetOperatorRegid pOperatorRegidIn tx in
  CDEXOrderBaseTx.GetOperatorRegid tx'
  = match pOperatorRegidIn with
    | Some regid => Some regid
    | None => CDEXOrderBaseTx.GetOperatorRegid tx
    end
  /\ CDEXOrderBaseTx.operator_signature_pair tx'
     = match pOperatorRegidIn with
       | Some regid => Some {| CSignaturePair.regid := regid; CSignaturePair.signature := [] |}
       | None => CDEXOrderBaseTx.operator_signature_pair tx
       end
  /\ CDEXOrderBaseTx.set_operator_signature_pair (CDEXOrderBaseTx.operator_signature_pair tx) tx'
     = tx
  /\ (forall regid, CDEXOrderBaseTx.SetOperatorRegid pOperatorRegidIn
                      (CDEXOrderBaseTx.SetOperatorRegid (Some regid) tx)
                    = CDEXOrderBaseTx.SetOperatorRegid
                        (match pOperatorRegidIn with
                         | Some regid' => Some regid'
                         | None => Some regid
                         end) tx).
Proof.
  destruct tx as [b ? ? ? ? ? ? ? ? ? ? ? p], pOperatorRegidIn as [r|]; cbn;
    repeat split; destruct p; reflexivity.
Qed.

End MoreConstructors.

(** ** tx/dextx.h: the cache of the signature hash *)

Section SignatureHashCache.
Context {E : External}.
Import (coercions) CDEXOrderBaseTx CDEXSettleBaseTx CDEXCancelOrderTx.

(** The body shared by every [ComputeSignatureHash], over any class whose
    stream does not read the cache. *)
Lemma cache_transparent_intro {T : Type} (sigHash : T -> uint256)
    (set_sigHash : uint256 -> T -> T) (stream : T -> list byte) :
  (forall h tx, sigHash (set_sigHash h tx) = h) ->
  (forall tx, set_sigHash (sigHash tx) tx = tx) ->
  (forall h h' tx, set_sigHash h (set_sigHash h' tx) = set_sigHash h tx) ->
  (forall h tx, stream (set_sigHash h tx) = stream tx) ->
  cache_transparent sigHash set_sigHash
    (fun recalculate this =>
       if recalculate || uint256_IsNull (sigHash this) then
         let ss := stream this in
         let this := set_sigHash (CHashWriter_GetHash ss) this in
         (sigHash this, this)
       else (sigHash this, this)).
Proof.
  intros Hget Hid Hset Hstream recalculate tx. cbv zeta.
  destruct (recalculate || uint256_IsNull (sigHash tx)) eqn:Hguard; cbn [fst snd].
  - rewrite !Hget, !Hstream, !Hset. cbn [orb]. repeat split.
    destruct (uint256_IsNull (CHashWriter_GetHash (stream tx))); [|reflexivity].
    reflexivity.
  - apply orb_false_iff in Hguard as [_ Hnull].
    rewrite Hid, Hnull. cbn [orb]. rewrite !Hget. repeat split.
Qed.

Lemma order_cache_laws :
  (forall h (tx : CDEXOrderBaseTx.t), CBaseTx.sigHash (CDEXOrderBaseTx.set_sigHash h tx) = h)
  /\ (forall tx : CDEXOrderBaseTx.t, CDEXOrderBaseTx.set_sigHash (CBaseTx.sigHash tx) tx = tx)
  /\ (forall h h' (tx : CDEXOrderBaseTx.t),
        CDEXOrderBaseTx.set_sigHash h (CDEXOrderBaseTx.set_sigHash h' tx)
        = CDEXOrderBaseTx.set_sigHash h tx).
Proof.
  repeat split; intros; destruct tx as [[] ]; reflexivity.
Qed.

Lemma settle_cache_laws :
  (forall h (tx : CDEXSettleBaseTx.t), CBaseTx.sigHash (CDEXSettleBaseTx.set_sigHash h tx) = h)
  /\ (forall tx : CDEXSettleBaseTx.t, CDEXSettleBaseTx.set_sigHash (CBaseTx.sigHash tx) tx = tx)
  /\ (forall h h' (tx : CDEXSettleBaseTx.t),
        CDEXSettleBaseTx.set_sigHash h (CDEXSettleBaseTx.set_sigHash h' tx)
        = CDEXSettleBaseTx.set_sigHash h tx).
Proof.
  repeat split; intros; destruct tx as [[] ]; reflexivity.
Qed.

Lemma cancel_cache_laws :
  (forall h (tx : CDEXCancelOrderTx.t), CBaseTx.sigHash (CDEXCancelOrderTx.set_sigHash h tx) = h)
  /\ (forall tx : CDEXCancelOrderTx.t, CDEXCancelOrderTx.set_sigHash (CBaseTx.sigHash tx) tx = tx)
  /\ (forall h h' (tx : CDEXCancelOrderTx.t),
        CDEXCancelOrderTx.set_sigHash h (CDEXCancelOrderTx.set_sigHash h' tx)
        = CDEXCancelOrderTx.set_sigHash h tx).
Proof.
  repeat split; intros; destruct tx as [[] ]; reflexivity.
Qed.

(** X6: in all eleven transaction classes [ComputeSignatureHash] changes no
    member but the cache [sigHash], which then holds the hash returned; a
    following call without [recalculate] returns the same hash and leaves
    the object as it is, and a following call with [recalculate] returns
    what a recalculation would have returned before. *)
Theorem ComputeSignatureHash_cache_transparent :
  Forall (cache_transparent (fun tx : CDEXOrderBaseTx.t => CBaseTx.sigHash tx)
            CDEXOrderBaseTx.set_sigHash)
    [ CDEXBuyLimitOrderTx.ComputeSignatureHash; CDEXBuyLimitOrderExTx.ComputeSignatureHash;
      CDEXSellLimitOrderTx.ComputeSignatureHash; CDEXSellLimitOrderExTx.ComputeSignatureHash;
      CDEXBuyMarketOrderTx.ComputeSignatureHash; CDEXBuyMarketOrderExTx.ComputeSignatureHash;
      CDEXSellMarketOrderTx.ComputeSignatureHash; CDEXSellMarketOrderExTx.ComputeSignatureHash ]
  /\ Forall (cache_transparent (fun tx : CDEXSettleBaseTx.t => CBaseTx.sigHash tx)
               CDEXSettleBaseTx.set_sigHash)
       [ CDEXSettleTx.ComputeSignatureHash; CDEXSettleExTx.ComputeSignatureHash ]
  /\ cache_transparent (fun tx : CDEXCancelOrderTx.t => CBaseTx.sigHash tx)
       CDEXCancelOrderTx.set_sigHash CDEXCancelOrderTx.ComputeSignatureHash.
Proof.
  destruct order_cache_laws as (Hget & Hid & Hset).
  destruct settle_cache_laws as (Hget' & Hid' & Hset').
  destruct cancel_cache_laws as (Hget'' & Hid'' & Hset'').
  split; [|split].
  - repeat apply Forall_cons; try apply Forall_nil.
    + refine (cache_transparent_intro (fun tx : CDEXOrderBaseTx.t => CBaseTx.sigHash tx)
                CDEXOrderBaseTx.set_sigHash CDEXBuyLimitOrderTx.signature_hash_stream Hget Hid Hset _);
        intros h [[] ]; reflexivity.
    + refine (cache_transparent_intro (fun tx : CDEXOrderBaseTx.t => CBaseTx.sigHash tx)
                CDEXOrderBaseTx.set_sigHash CDEXBuyLimitOrderExTx.signature_hash_stream Hget Hid Hset _);
        intros h [[] ]; reflexivity.
    + refine (cache_transparent_intro (fun tx : CDEXOrderBaseTx.t => CBaseTx.sigHash tx)
                CDEXOrderBaseTx.set_sigHash CDEXSellLimitOrderTx.signature_hash_stream Hget Hid Hset _);
        intros h [[] ]; reflexivity.
    + refine (cache_transparent_intro (fun tx : CDEXOrderBaseTx.t => CBaseTx.sigHash tx)
                CDEXOrderBaseTx.set_sigHash CDEXSellLimitOrderExTx.signature_hash_stream Hget Hid Hset _);
        intros h [[] ]; reflexivity.
    + refine (cache_transparent_intro (fun tx : CDEXOrderBaseTx.t => CBaseTx.sigHash tx)
                CDEXOrderBaseTx.set_sigHash CDEXBuyMarketOrderTx.signature_hash_stream Hget Hid Hset _);
        intros h [[] ]; reflexivity.
    + refine (cache_transparent_intro (fun tx : CDEXOrderBaseTx.t => CBaseTx.sigHash tx)
                CDEXOrderBaseTx.set_sigHash CDEXBuyMarketOrderExTx.signature_hash_stream Hget Hid Hset _);
        intros h [[] ]; reflexivity.
    + refine (cache_transparent_intro (fun tx : CDEXOrderBaseTx.t => CBaseTx.sigHash tx)
                CDEXOrderBaseTx.set_sigHash CDEXSellMarketOrderTx.signature_hash_stream Hget Hid Hset _);
        intros h [[] ]; reflexivity.
    + refine (cache_transparent_intro (fun tx : CDEXOrderBaseTx.t => CBaseTx.sigHash tx)
                CDEXOrderBaseTx.set_sigHash CDEXSellMarketOrderExTx.signature_hash_stream Hget Hid Hset _);
        intros h [[] ]; reflexivity.
  - repeat apply Forall_cons; try apply Forall_nil.
    + refine (cache_transparent_intro (fun tx : CDEXSettleBaseTx.t => CBaseTx.sigHash tx)
                CDEXSettleBaseTx.set_sigHash CDEXSettleTx.signature_hash_stream Hget' Hid' Hset' _);
        intros h [[] ]; reflexivity.
    + refine (cache_transparent_intro (fun tx : CDEXSettleBaseTx.t => CBaseTx.sigHash tx)
                CDEXSettleBaseTx.set_sigHash CDEXSettleExTx.signature_hash_stream Hget' Hid' Hset' _);
        intros h [[] ]; reflexivity.
  - refine (cache_transparent_intro (fun tx : CDEXCancelOrderTx.t => CBaseTx.sigHash tx)
              CDEXCancelOrderTx.set_sigHash CDEXCancelOrderTx.signature_hash_stream Hget'' Hid'' Hset'' _);
      intros h [[] ]; reflexivity.
Qed.

End SignatureHashCache.

(** ** tx/dextx.h: what the signature hash binds *)

Section Binding.
Context {E : External} {L : ExternalLaws E}.
Import (coercions) CDEXOrderBaseTx CDEXSettleBaseTx CDEXCancelOrderTx.
Hypothesis CUserID_codec_ok : codec_ok CUserID_codec.

(** The mode is the byte that VARINT writes for it. *)
Lemma mode_of_byte (m1 m2 : OrderOperatorMode.t) :
  Z_of_byte (OrderOperatorMode.value m1) = Z_of_byte (OrderOperatorMode.value m2) -> m1 = m2.
Proof.
  destruct m1 as [v1], m2 as [v2]. cbn. intros H.
  rewrite <- (byte_of_Z_of_byte v1), <- (byte_of_Z_of_byte v2), H. reflexivity.
Qed.

(** Class by class: equal bytes were written from equal members. *)
Lemma CDEXBuyLimitOrderTx_stream_inj (tx1 tx2 : CDEXOrderBaseTx.t) :
  CDEXOrderBaseTx.well_formed tx1 -> CDEXOrderBaseTx.well_formed tx2 ->
  CDEXBuyLimitOrderTx.signature_hash_stream tx1
  = CDEXBuyLimitOrderTx.signature_hash_stream tx2 ->
  same_prefix tx1 tx2
  /\ CDEXOrderBaseTx.coin_symbol tx1 = CDEXOrderBaseTx.coin_symbol tx2
  /\ CDEXOrderBaseTx.asset_symbol tx1 = CDEXOrderBaseTx.asset_symbol tx2
  /\ CDEXOrderBaseTx.asset_amount tx1 = CDEXOrderBaseTx.asset_amount tx2
  /\ CDEXOrderBaseTx.price tx1 = CDEXOrderBaseTx.price tx2.
Proof.
  intros Hwf1 Hwf2 H.
  unfold CDEXOrderBaseTx.well_formed, CBaseTx.well_formed in Hwf1, Hwf2. split_hyps.
  unfold CDEXBuyLimitOrderTx.signature_hash_stream in H. flatten_streams H.
  peel_stream @codec_ok_inj H.
  unfold same_prefix. repeat split; assumption.
Qed.

Lemma CDEXBuyMarketOrderTx_stream_inj (tx1 tx2 : CDEXOrderBaseTx.t) :
  CDEXOrderBaseTx.well_formed tx1 -> CDEXOrderBaseTx.well_formed tx2 ->
  CDEXBuyMarketOrderTx.signature_hash_stream tx1
  = CDEXBuyMarketOrderTx.signature_hash_stream tx2 ->
  same_prefix tx1 tx2
  /\ CDEXOrderBaseTx.coin_symbol tx1 = CDEXOrderBaseTx.coin_symbol tx2
  /\ CDEXOrderBaseTx.asset_symbol tx1 = CDEXOrderBaseTx.asset_symbol tx2
  /\ CDEXOrderBaseTx.coin_amount tx1 = CDEXOrderBaseTx.coin_amount tx2.
Proof.
  intros Hwf1 Hwf2 H.
  unfold CDEXOrderBaseTx.well_formed, CBaseTx.well_formed in Hwf1, Hwf2. split_hyps.
  unfold CDEXBuyMarketOrderTx.signature_hash_stream in H. flatten_streams H.
  peel_stream @codec_ok_inj H.
  unfold same_prefix. repeat split; assumption.
Qed.

Lemma CDEXSellMarketOrderTx_stream_inj (tx1 tx2 : CDEXOrderBaseTx.t) :
  CDEXOrderBaseTx.well_formed tx1 -> CDEXOrderBaseTx.well_formed tx2 ->
  CDEXSellMarketOrderTx.signature_hash_stream tx1
  = CDEXSellMarketOrderTx.signature_hash_stream tx2 ->
  same_prefix tx1 tx2
  /\ CDEXOrderBaseTx.coin_symbol tx1 = CDEXOrderBaseTx.coin_symbol tx2
  /\ CDEXOrderBaseTx.asset_symbol tx1 = CDEXOrderBaseTx.asset_symbol tx2
  /\ CDEXOrderBaseTx.asset_amount tx1 = CDEXOrderBaseTx.asset_amount tx2.
Proof.
  intros Hwf1 Hwf2 H.
  unfold CDEXOrderBaseTx.well_formed, CBaseTx.well_formed in Hwf1, Hwf2. split_hyps.
  unfold CDEXSellMarketOrderTx.signature_hash_stream in H. flatten_streams H.
  peel_stream @codec_ok_inj H.
  unfold same_prefix. repeat split; assumption.
Qed.

(** X9: two basic orders hash the same bytes exactly when they agree on the
    common prefix (version, type tag byte, valid_height, tx_uid, fee_symbol,
    fees), on both symbols and on the amounts their class hashes:
    asset_amount and price for the limit classes, coin_amount for the
    market buy, asset_amount for the market sell. *)
Theorem basic_order_hash_binds_hashed_members (tx1 tx2 : CDEXOrderBaseTx.t) :
  CDEXOrderBaseTx.well_formed tx1 -> CDEXOrderBaseTx.well_formed tx2 ->
  let symbols :=
    CDEXOrderBaseTx.coin_symbol tx1 = CDEXOrderBaseTx.coin_symbol tx2
    /\ CDEXOrderBaseTx.asset_symbol tx1 = CDEXOrderBaseTx.asset_symbol tx2 in
  let limit :=
    same_prefix tx1 tx2 /\ symbols
    /\ CDEXOrderBaseTx.asset_amount tx1 = CDEXOrderBaseTx.asset_amount tx2
    /\ CDEXOrderBaseTx.price tx1 = CDEXOrderBaseTx.price tx2 in
  (CDEXBuyLimitOrderTx.signature_hash_stream tx1
   = CDEXBuyLimitOrderTx.signature_hash_stream tx2 <-> limit)
  /\ (CDEXSellLimitOrderTx.signature_hash_stream tx1
      = CDEXSellLimitOrderTx.signature_hash_stream tx2 <-> limit)
  /\ (CDEXBuyMarketOrderTx.signature_hash_stream tx1
      = CDEXBuyMarketOrderTx.signature_hash_stream tx2
      <-> same_prefix tx1 tx2 /\ symbols
          /\ CDEXOrderBaseTx.coin_amount tx1 = CDEXOrderBaseTx.coin_amount tx2)
  /\ (CDEXSellMarketOrderTx.signature_hash_stream tx1
      = CDEXSellMarketOrderTx.signature_hash_stream tx2
      <-> same_prefix tx1 tx2 /\ symbols
          /\ CDEXOrderBaseTx.asset_amount tx1 = CDEXOrderBaseTx.asset_amount tx2).
Proof.
  intros Hwf1 Hwf2 symbols limit. subst symbols limit. cbv beta.
  split; [|split; [|split]]; split.
  - intros H. apply CDEXBuyLimitOrderTx_stream_inj in H; tauto.
  - unfold same_prefix, CDEXBuyLimitOrderTx.signature_hash_stream.
    intros ((?&?&?&?&?&?)&(?&?)&?&?). congruence.
  - intros H. apply CDEXBuyLimitOrderTx_stream_inj in H; tauto.
  - unfold same_prefix, CDEXSellLimitOrderTx.signature_hash_stream.
    intros ((?&?&?&?&?&?)&(?&?)&?&?). congruence.
  - intros H. apply CDEXBuyMarketOrderTx_stream_inj in H; tauto.
  - unfold same_prefix, CDEXBuyMarketOrderTx.signature_hash_stream.
    intros ((?&?&?&?&?&?)&(?&?)&?). congruence.
  - intros H. apply CDEXSellMarketOrderTx_stream_inj in H; tauto.
  - unfold same_prefix, CDEXSellMarketOrderTx.signature_hash_stream.
    intros ((?&?&?&?&?&?)&(?&?)&?). congruence.
Qed.


Lemma CDEXBuyLimitOrderExTx_stream_inj (tx1 tx2 : CDEXOrderBaseTx.t) :
  CDEXOrderBaseTx.well_formed tx1 -> CDEXOrderBaseTx.well_formed tx2 ->
  CDEXBuyLimitOrderExTx.signature_hash_stream tx1
  = CDEXBuyLimitOrderExTx.signature_hash_stream tx2 ->
  same_prefix tx1 tx2 /\ same_operator_terms tx1 tx2
  /\ CDEXOrderBaseTx.coin_symbol tx1 = CDEXOrderBaseTx.coin_symbol tx2
  /\ CDEXOrderBaseTx.asset_symbol tx1 = CDEXOrderBaseTx.asset_symbol tx2
  /\ CDEXOrderBaseTx.asset_amount tx1 = CDEXOrderBaseTx.asset_amount tx2
  /\ CDEXOrderBaseTx.price tx1 = CDEXOrderBaseTx.price tx2.
Proof.
  intros Hwf1 Hwf2 H.
  unfold CDEXOrderBaseTx.well_formed, CBaseTx.well_formed in Hwf1, Hwf2. split_hyps.
  pose proof (Z_of_byte_range (OrderOperatorMode.value (CDEXOrderBaseTx.mode tx1))).
  pose proof (Z_of_byte_range (OrderOperatorMode.value (CDEXOrderBaseTx.mode tx2))).
  unfold CDEXBuyLimitOrderExTx.signature_hash_stream in H. flatten_streams H.
  peel_stream @codec_ok_inj H.
  unfold same_prefix, same_operator_terms.
  repeat split; try assumption. now apply mode_of_byte.
Qed.

Lemma CDEXBuyMarketOrderExTx_stream_inj (tx1 tx2 : CDEXOrderBaseTx.t) :
  CDEXOrderBaseTx.well_formed tx1 -> CDEXOrderBaseTx.well_formed tx2 ->
  CDEXBuyMarketOrderExTx.signature_hash_stream tx1
  = CDEXBuyMarketOrderExTx.signature_hash_stream tx2 ->
  same_prefix tx1 tx2 /\ same_operator_terms tx1 tx2
  /\ CDEXOrderBaseTx.coin_symbol tx1 = CDEXOrderBaseTx.coin_symbol tx2
  /\ CDEXOrderBaseTx.asset_symbol tx1 = CDEXOrderBaseTx.asset_symbol tx2
  /\ CDEXOrderBaseTx.coin_amount tx1 = CDEXOrderBaseTx.coin_amount tx2.
Proof.
  intros Hwf1 Hwf2 H.
  unfold CDEXOrderBaseTx.well_formed, CBaseTx.well_formed in Hwf1, Hwf2. split_hyps.
  pose proof (Z_of_byte_range (OrderOperatorMode.value (CDEXOrderBaseTx.mode tx1))).
  pose proof (Z_of_byte_range (OrderOperatorMode.value (CDEXOrderBaseTx.mode tx2))).
  unfold CDEXBuyMarketOrderExTx.signature_hash_stream in H. flatten_streams H.
  peel_stream @codec_ok_inj H.
  unfold same_prefix, same_operator_terms.
  repeat split; try assumption. now apply mode_of_byte.
Qed.

Lemma CDEXSellMarketOrderExTx_stream_inj (tx1 tx2 : CDEXOrderBaseTx.t) :
  CDEXOrderBaseTx.well_formed tx1 -> CDEXOrderBaseTx.well_formed tx2 ->
  CDEXSellMarketOrderExTx.signature_hash_stream tx1
  = CDEXSellMarketOrderExTx.signature_hash_stream tx2 ->
  same_prefix tx1 tx2 /\ same_operator_terms tx1 tx2
  /\ CDEXOrderBaseTx.coin_symbol tx1 = CDEXOrderBaseTx.coin_symbol tx2
  /\ CDEXOrderBaseTx.asset_symbol tx1 = CDEXOrderBaseTx.asset_symbol tx2
  /\ CDEXOrderBaseTx.asset_amount tx1 = CDEXOrderBaseTx.asset_amount tx2.
Proof.
  intros Hwf1 Hwf2 H.
  unfold CDEXOrderBaseTx.well_formed, CBaseTx.well_formed in Hwf1, Hwf2. split_hyps.
  pose proof (Z_of_byte_range (OrderOperatorMode.value (CDEXOrderBaseTx.mode tx1))).
  pose proof (Z_of_byte_range (OrderOperatorMode.value (CDEXOrderBaseTx.mode tx2))).
  unfold CDEXSellMarketOrderExTx.signature_hash_stream in H. flatten_streams H.
  peel_stream @codec_ok_inj H.
  unfold same_prefix, same_operator_terms.
  repeat split; try assumption. now apply mode_of_byte.
Qed.

(** X10: two extended orders hash the same bytes exactly when they agree on
    the common prefix, on mode, dex_id, operator_fee_ratio, memo and the
    operator regid, on both symbols and on the amounts their class hashes. *)
Theorem extended_order_hash_binds_hashed_members (tx1 tx2 : CDEXOrderBaseTx.t) :
  CDEXOrderBaseTx.well_formed tx1 -> CDEXOrderBaseTx.well_formed tx2 ->
  let common :=
    same_prefix tx1 tx2 /\ same_operator_terms tx1 tx2
    /\ CDEXOrderBaseTx.coin_symbol tx1 = CDEXOrderBaseTx.coin_symbol tx2
    /\ CDEXOrderBaseTx.asset_symbol tx1 = CDEXOrderBaseTx.asset_symbol tx2 in
  let limit :=
    common
    /\ CDEXOrderBaseTx.asset_amount tx1 = CDEXOrderBaseTx.asset_amount tx2
    /\ CDEXOrderBaseTx.price tx1 = CDEXOrderBaseTx.price tx2 in
  (CDEXBuyLimitOrderExTx.signature_hash_stream tx1
   = CDEXBuyLimitOrderExTx.signature_hash_stream tx2 <-> limit)
  /\ (CDEXSellLimitOrderExTx.signature_hash_stream tx1
      = CDEXSellLimitOrderExTx.signature_hash_stream tx2 <-> limit)
  /\ (CDEXBuyMarketOrderExTx.signature_hash_stream tx1
      = CDEXBuyMarketOrderExTx.signature_hash_stream tx2
      <-> common /\ CDEXOrderBaseTx.coin_amount tx1 = CDEXOrderBaseTx.coin_amount tx2)
  /\ (CDEXSellMarketOrderExTx.signature_hash_stream tx1
      = CDEXSellMarketOrderExTx.signature_hash_stream tx2
      <-> common /\ CDEXOrderBaseTx.asset_amount tx1 = CDEXOrderBaseTx.asset_amount tx2).
Proof.
  intros Hwf1 Hwf2 common limit. subst common limit. cbv beta.
  split; [|split; [|split]]; split.
  - intros H. apply CDEXBuyLimitOrderExTx_stream_inj in H; tauto.
  - unfold same_prefix, same_operator_terms, CDEXBuyLimitOrderExTx.signature_hash_stream.
    intros (((?&?&?&?&?&?)&(?&?&?&?&?)&?&?)&?&?). congruence.
  - intros H. apply CDEXBuyLimitOrderExTx_stream_inj in H; tauto.
  - unfold same_prefix, same_operator_terms, CDEXSellLimitOrderExTx.signature_hash_stream.
    intros (((?&?&?&?&?&?)&(?&?&?&?&?)&?&?)&?&?). congruence.
  - intros H. apply CDEXBuyMarketOrderExTx_stream_inj in H; tauto.
  - unfold same_prefix, same_operator_terms, CDEXBuyMarketOrderExTx.signature_hash_stream.
    intros (((?&?&?&?&?&?)&(?&?&?&?&?)&?&?)&?). congruence.
  - intros H. apply CDEXSellMarketOrderExTx_stream_inj in H; tauto.
  - unfold same_prefix, same_operator_terms, CDEXSellMarketOrderExTx.signature_hash_stream.
    intros (((?&?&?&?&?&?)&(?&?&?&?&?)&?&?)&?). congruence.
Qed.

Lemma settle_stream_inj (tx1 tx2 : CDEXSettleBaseTx.t) :
  CDEXSettleBaseTx.well_formed tx1 -> CDEXSettleBaseTx.well_formed tx2 ->
  CDEXSettleExTx.signature_hash_stream tx1 = CDEXSettleExTx.signature_hash_stream tx2 ->
  same_prefix tx1 tx2
  /\ CDEXSettleBaseTx.GetDealItems tx1 = CDEXSettleBaseTx.GetDealItems tx2.
Proof.
  intros Hwf1 Hwf2 H.
  unfold CDEXSettleBaseTx.well_formed, CBaseTx.well_formed in Hwf1, Hwf2. split_hyps.
  assert (representable (vector MAX_SIZE DEXDealItem.codec) (CDEXSettleBaseTx.dealItems tx1))
    by now apply dealItems_representable.
  assert (representable (vector MAX_SIZE DEXDealItem.codec) (CDEXSettleBaseTx.dealItems tx2))
    by now apply dealItems_representable.
  unfold CDEXSettleExTx.signature_hash_stream in H. flatten_streams H.
  peel_stream @codec_ok_inj H.
  unfold same_prefix, CDEXSettleBaseTx.GetDealItems. repeat split; assumption.
Qed.

(** X11: two settle transactions, basic or extended, hash the same bytes
    exactly when they agree on the common prefix and on the deal items. *)
Theorem settle_hash_binds_prefix_and_deal_items (tx1 tx2 : CDEXSettleBaseTx.t) :
  CDEXSettleBaseTx.well_formed tx1 -> CDEXSettleBaseTx.well_formed tx2 ->
  (CDEXSettleTx.signature_hash_stream tx1 = CDEXSettleTx.signature_hash_stream tx2
   <-> same_prefix tx1 tx2
       /\ CDEXSettleBaseTx.GetDealItems tx1 = CDEXSettleBaseTx.GetDealItems tx2)
  /\ (CDEXSettleExTx.signature_hash_stream tx1 = CDEXSettleExTx.signature_hash_stream tx2
      <-> same_prefix tx1 tx2
          /\ CDEXSettleBaseTx.GetDealItems tx1 = CDEXSettleBaseTx.GetDealItems tx2).
Proof.
  intros Hwf1 Hwf2. split; split.
  - intros H. now apply settle_stream_inj.
  - unfold same_prefix, CDEXSettleBaseTx.GetDealItems, CDEXSettleTx.signature_hash_stream.
    intros ((?&?&?&?&?&?)&?). congruence.
  - intros H. now apply settle_stream_inj.
  - unfold same_prefix, CDEXSettleBaseTx.GetDealItems, CDEXSettleExTx.signature_hash_stream.
    intros ((?&?&?&?&?&?)&?). congruence.
Qed.

(** X12: two cancel transactions hash the same bytes exactly when they
    agree on the common prefix and on the order id. *)
Theorem cancel_hash_binds_prefix_and_order_id (tx1 tx2 : CDEXCancelOrderTx.t) :
  CDEXCancelOrderTx.well_formed tx1 -> CDEXCancelOrderTx.well_formed tx2 ->
  (CDEXCancelOrderTx.signature_hash_stream tx1 = CDEXCancelOrderTx.signature_hash_stream tx2
   <-> same_prefix tx1 tx2 /\ CDEXCancelOrderTx.orderId tx1 = CDEXCancelOrderTx.orderId tx2).
Proof.
  intros Hwf1 Hwf2. split.
  - intros H.
    unfold CDEXCancelOrderTx.well_formed, CBaseTx.well_formed in Hwf1, Hwf2. split_hyps.
    unfold CDEXCancelOrderTx.signature_hash_stream in H. flatten_streams H.
    peel_stream @codec_ok_inj H.
    unfold same_prefix. repeat split; assumption.
  - unfold same_prefix, CDEXCancelOrderTx.signature_hash_stream.
    intros ((?&?&?&?&?&?)&?). congruence.
Qed.

End Binding.

(** ** tx/dextx.h: changes after the hash was cached *)

Section StaleCache.
Context {E : External} {L : ExternalLaws E}.
Import (coercions) CDEXOrderBaseTx CDEXSettleBaseTx.

(** For any class that hashes the operator regid and returns the digest of
    its stream or the cache. *)
Lemma stale_after_SetOperatorRegid
    (stream : CDEXOrderBaseTx.t -> list byte)
    (ComputeSignatureHash : bool -> CDEXOrderBaseTx.t -> uint256 * CDEXOrderBaseTx.t)
    (tx : CDEXOrderBaseTx.t) (regid : CRegID) :
  returns_digest_of stream ComputeSignatureHash ->
  includes_operator_regid stream ComputeSignatureHash ->
  representable CRegID_codec regid ->
  representable (optional CRegID_codec) (CDEXOrderBaseTx.GetOperatorRegid tx) ->
  CDEXOrderBaseTx.GetOperatorRegid tx <> Some regid ->
  let tx' := CDEXOrderBaseTx.SetOperatorRegid (Some regid) tx in
  stream tx' <> stream tx
  /\ (uint256_IsNull (CBaseTx.sigHash tx) = false ->
      fst (ComputeSignatureHash false tx') = CBaseTx.sigHash tx)
  /\ fst (ComputeSignatureHash true tx') = CHashWriter_GetHash (stream tx').
Proof.
  intros Hdigest Hincl Hregid Hrep Hne tx'. subst tx'.
  assert (Hsame : CDEXOrderBaseTx.set_operator_signature_pair
                    (CDEXOrderBaseTx.operator_signature_pair tx) tx = tx)
    by (destruct tx; reflexivity).
  split; [|split].
  - pose proof (Hincl tx (Some (CSignaturePair.ctor regid))
                  (CDEXOrderBaseTx.operator_signature_pair tx)) as H.
    cbv zeta in H. rewrite Hsame in H.
    unfold CDEXOrderBaseTx.SetOperatorRegid.
    apply H.
    + destruct tx. exact Hregid.
    + exact Hrep.
    + intros Heq. apply Hne. rewrite <- Heq. destruct tx. reflexivity.
  - intros Hnull. rewrite Hdigest. unfold CDEXOrderBaseTx.SetOperatorRegid.
    rewrite sigHash_set_operator_signature_pair, Hnull. reflexivity.
  - rewrite Hdigest. reflexivity.
Qed.

(** X7: in the four extended order classes, [SetOperatorRegid] with
    another operator changes the bytes that are hashed but leaves a cached
    hash in place: [ComputeSignatureHash] without [recalculate] still
    returns the hash of before, and only with [recalculate] the digest of
    the new bytes. *)
Theorem SetOperatorRegid_keeps_cached_hash (tx : CDEXOrderBaseTx.t) (regid : CRegID) :
  representable CRegID_codec regid ->
  representable (optional CRegID_codec) (CDEXOrderBaseTx.GetOperatorRegid tx) ->
  CDEXOrderBaseTx.GetOperatorRegid tx <> Some regid ->
  uint256_IsNull (CBaseTx.sigHash tx) = false ->
  let tx' := CDEXOrderBaseTx.SetOperatorRegid (Some regid) tx in
  Forall (fun class : (CDEXOrderBaseTx.t -> list byte)
                      * (bool -> CDEXOrderBaseTx.t -> uint256 * CDEXOrderBaseTx.t) =>
            let stream := fst class in
            let ComputeSignatureHash := snd class in
            stream tx' <> stream tx
            /\ fst (ComputeSignatureHash false tx') = CBaseTx.sigHash tx
            /\ fst (ComputeSignatureHash false tx') = fst (ComputeSignatureHash false tx)
            /\ fst (ComputeSignatureHash true tx') = CHashWriter_GetHash (stream tx'))
    [ (CDEXBuyLimitOrderExTx.signature_hash_stream, CDEXBuyLimitOrderExTx.ComputeSignatureHash);
      (CDEXSellLimitOrderExTx.signature_hash_stream, CDEXSellLimitOrderExTx.ComputeSignatureHash);
      (CDEXBuyMarketOrderExTx.signature_hash_stream, CDEXBuyMarketOrderExTx.ComputeSignatureHash);
      (CDEXSellMarketOrderExTx.signature_hash_stream,
       CDEXSellMarketOrderExTx.ComputeSignatureHash) ].
Proof.
  intros Hregid Hrep Hne Hnull tx'. subst tx'.
  repeat apply Forall_cons; try apply Forall_nil; cbn [fst snd].
  - destruct (stale_after_SetOperatorRegid _ _ tx regid
                CDEXBuyLimitOrderExTx_returns_digest
                CDEXBuyLimitOrderExTx_includes_operator_regid Hregid Hrep Hne)
      as (Hs & Hf & Ht).
    split; [exact Hs|]. split; [exact (Hf Hnull)|]. split; [|exact Ht].
    rewrite (Hf Hnull), CDEXBuyLimitOrderExTx_returns_digest, Hnull. reflexivity.
  - destruct (stale_after_SetOperatorRegid _ _ tx regid
                CDEXSellLimitOrderExTx_returns_digest
                CDEXSellLimitOrderExTx_includes_operator_regid Hregid Hrep Hne)
      as (Hs & Hf & Ht).
    split; [exact Hs|]. split; [exact (Hf Hnull)|]. split; [|exact Ht].
    rewrite (Hf Hnull), CDEXSellLimitOrderExTx_returns_digest, Hnull. reflexivity.
  - destruct (stale_after_SetOperatorRegid _ _ tx regid
                CDEXBuyMarketOrderExTx_returns_digest
                CDEXBuyMarketOrderExTx_includes_operator_regid Hregid Hrep Hne)
      as (Hs & Hf & Ht).
    split; [exact Hs|]. split; [exact (Hf Hnull)|]. split; [|exact Ht].
    rewrite (Hf Hnull), CDEXBuyMarketOrderExTx_returns_digest, Hnull. reflexivity.
  - destruct (stale_after_SetOperatorRegid _ _ tx regid
                CDEXSellMarketOrderExTx_returns_digest
                CDEXSellMarketOrderExTx_includes_operator_regid Hregid Hrep Hne)
      as (Hs & Hf & Ht).
    split; [exact Hs|]. split; [exact (Hf Hnull)|]. split; [|exact Ht].
    rewrite (Hf Hnull), CDEXSellMarketOrderExTx_returns_digest, Hnull. reflexivity.
Qed.

(** A vector and the vector with one more element are written
    differently. *)
Lemma vector_longer_written_apart {A} (c : Codec A) (max_size : Z) (items : list A)
    (item : A) (ss : list byte) :
  codec_ok c -> representable (vector max_size c) (items ++ [item]) ->
  ss <<[vector max_size c] (items ++ [item]) <> ss <<[vector max_size c] items.
Proof.
  intros Hc Hrep Heq. unfold stream_write in Heq. apply app_inv_head in Heq.
  assert (Hrep' : representable (vector max_size c) items).
  { cbn [vector representable] in *. destruct Hrep as (H1 & H2 & H3).
    rewrite length_app in H1, H2. cbn [List.length] in H1, H2.
    apply Forall_app in H3 as [H3 _]. repeat split; [lia | lia | exact H3]. }
  apply (codec_ok_inj_nil (vector max_size c)) in Heq;
    [|apply vector_ok; exact Hc|exact Hrep|exact Hrep'].
  apply (f_equal (@List.length A)) in Heq. rewrite length_app in Heq.
  cbn [List.length] in Heq. lia.
Qed.

(** X8: [AddDealItem] appends the item at the end of what [GetDealItems]
    returns and changes no other member.  The bytes hashed change, but a
    cached hash stays: the basic and the extended [ComputeSignatureHash]
    without [recalculate] still return the hash of before, and with
    [recalculate] the digest of the new bytes. *)
Theorem AddDealItem_appends_and_keeps_cached_hash
    (tx : CDEXSettleBaseTx.t) (item : DEXDealItem.t) :
  CDEXSettleBaseTx.well_formed (CDEXSettleBaseTx.AddDealItem item tx) ->
  let tx' := CDEXSettleBaseTx.AddDealItem item tx in
  CDEXSettleBaseTx.GetDealItems tx' = CDEXSettleBaseTx.GetDealItems tx ++ [item]
  /\ CDEXSettleBaseTx.set_dealItems (CDEXSettleBaseTx.GetDealItems tx) tx' = tx
  /\ CDEXSettleTx.signature_hash_stream tx' <> CDEXSettleTx.signature_hash_stream tx
  /\ CDEXSettleExTx.signature_hash_stream tx' <> CDEXSettleExTx.signature_hash_stream tx
  /\ (uint256_IsNull (CBaseTx.sigHash tx) = false ->
      fst (CDEXSettleTx.ComputeSignatureHash false tx') = CBaseTx.sigHash tx
      /\ fst (CDEXSettleExTx.ComputeSignatureHash false tx') = CBaseTx.sigHash tx)
  /\ fst (CDEXSettleTx.ComputeSignatureHash true tx')
     = CHashWriter_GetHash (CDEXSettleTx.signature_hash_stream tx')
  /\ fst (CDEXSettleExTx.ComputeSignatureHash true tx')
     = CHashWriter_GetHash (CDEXSettleExTx.signature_hash_stream tx').
Proof.
  intros Hwf tx'. subst tx'.
  assert (Hstream : CDEXSettleExTx.signature_hash_stream (CDEXSettleBaseTx.AddDealItem item tx)
                    <> CDEXSettleExTx.signature_hash_stream tx).
  { unfold CDEXSettleBaseTx.well_formed in Hwf. destruct Hwf as (_ & _ & H1 & H2 & H3 & _).
    destruct tx as [b d items m]. unfold CDEXSettleBaseTx.AddDealItem in *.
    cbn [CDEXSettleBaseTx.dealItems CDEXSettleBaseTx.set_dealItems] in *.
    unfold CDEXSettleExTx.signature_hash_stream.
    cbn [CDEXSettleBaseTx.dealItems CDEXSettleBaseTx.base].
    apply vector_longer_written_apart; [exact DEXDealItem_codec_ok|].
    now apply dealItems_representable. }
  split; [destruct tx; reflexivity|]. split; [destruct tx; reflexivity|].
  split; [exact Hstream|]. split; [exact Hstream|].
  split; [|split].
  - intros Hnull.
    rewrite CDEXSettleTx_ComputeSignatureHash_value, CDEXSettleExTx_ComputeSignatureHash_value.
    assert (Hsame : CBaseTx.sigHash (CDEXSettleBaseTx.AddDealItem item tx) = CBaseTx.sigHash tx)
      by (destruct tx; reflexivity).
    rewrite Hsame, Hnull. split; reflexivity.
  - now rewrite CDEXSettleTx_ComputeSignatureHash_value.
  - now rewrite CDEXSettleExTx_ComputeSignatureHash_value.
Qed.

End StaleCache.

(** ** tx/dextx.h: wire forms *)

Section WireRoundTrip.
Context {E : External} {L : ExternalLaws E}.
Import (coercions) CDEXOrderBaseTx CDEXSettleBaseTx CDEXCancelOrderTx.
Hypothesis CUserID_codec_ok : codec_ok CUserID_codec.

(** Class by class: reading the wire form of [x] into [this] assigns to
    [this] what every statement of [IMPLEMENT_SERIALIZE] reads. *)
Lemma CDEXBuyLimitOrderTx_wire (this x : CDEXOrderBaseTx.t) (rest : list byte) :
  CDEXOrderBaseTx.well_formed x ->
  CDEXBuyLimitOrderTx.Unserialize this (CDEXBuyLimitOrderTx.Serialize x ++ rest)
  = Some (assign_fields CDEXBuyLimitOrderTx.fields x this, rest).
Proof.
  intros Hwf.
  unfold CDEXOrderBaseTx.well_formed, CBaseTx.well_formed in Hwf. split_hyps.
  assert (Hsig : representable (vector MAX_SIZE uint8) (CBaseTx.signature x))
    by now apply signature_representable.
  unfold CDEXBuyLimitOrderTx.Unserialize, CDEXBuyLimitOrderTx.Serialize.
  apply UnserializeFields_SerializeFields.
  - unfold CDEXBuyLimitOrderTx.fields. fields_ok.
  - unfold CDEXBuyLimitOrderTx.fields. fields_rep; assumption.
Qed.

Lemma CDEXSellLimitOrderTx_wire (this x : CDEXOrderBaseTx.t) (rest : list byte) :
  CDEXOrderBaseTx.well_formed x ->
  CDEXSellLimitOrderTx.Unserialize this (CDEXSellLimitOrderTx.Serialize x ++ rest)
  = Some (assign_fields CDEXSellLimitOrderTx.fields x this, rest).
Proof.
  intros Hwf.
  unfold CDEXOrderBaseTx.well_formed, CBaseTx.well_formed in Hwf. split_hyps.
  assert (Hsig : representable (vector MAX_SIZE uint8) (CBaseTx.signature x))
    by now apply signature_representable.
  unfold CDEXSellLimitOrderTx.Unserialize, CDEXSellLimitOrderTx.Serialize.
  apply UnserializeFields_SerializeFields.
  - unfold CDEXSellLimitOrderTx.fields. fields_ok.
  - unfold CDEXSellLimitOrderTx.fields. fields_rep; assumption.
Qed.

Lemma CDEXBuyMarketOrderTx_wire (this x : CDEXOrderBaseTx.t) (rest : list byte) :
  CDEXOrderBaseTx.well_formed x ->
  CDEXBuyMarketOrderTx.Unserialize this (CDEXBuyMarketOrderTx.Serialize x ++ rest)
  = Some (assign_fields CDEXBuyMarketOrderTx.fields x this, rest).
Proof.
  intros Hwf.
  unfold CDEXOrderBaseTx.well_formed, CBaseTx.well_formed in Hwf. split_hyps.
  assert (Hsig : representable (vector MAX_SIZE uint8) (CBaseTx.signature x))
    by now apply signature_representable.
  unfold CDEXBuyMarketOrderTx.Unserialize, CDEXBuyMarketOrderTx.Serialize.
  apply UnserializeFields_SerializeFields.
  - unfold CDEXBuyMarketOrderTx.fields. fields_ok.
  - unfold CDEXBuyMarketOrderTx.fields. fields_rep; assumption.
Qed.

Lemma CDEXSellMarketOrderTx_wire (this x : CDEXOrderBaseTx.t) (rest : list byte) :
  CDEXOrderBaseTx.well_formed x ->
  CDEXSellMarketOrderTx.Unserialize this (CDEXSellMarketOrderTx.Serialize x ++ rest)
  = Some (assign_fields CDEXSellMarketOrderTx.fields x this, rest).
Proof.
  intros Hwf.
  unfold CDEXOrderBaseTx.well_formed, CBaseTx.well_formed in Hwf. split_hyps.
  assert (Hsig : representable (vector MAX_SIZE uint8) (CBaseTx.signature x))
    by now apply signature_representable.
  unfold CDEXSellMarketOrderTx.Unserialize, CDEXSellMarketOrderTx.Serialize.
  apply UnserializeFields_SerializeFields.
  - unfold CDEXSellMarketOrderTx.fields. fields_ok.
  - unfold CDEXSellMarketOrderTx.fields. fields_rep; assumption.
Qed.

Lemma CDEXSettleTx_wire (this x : CDEXSettleBaseTx.t) (rest : list byte) :
  CDEXSettleBaseTx.well_formed x ->
  CDEXSettleTx.Unserialize this (CDEXSettleTx.Serialize x ++ rest)
  = Some (assign_fields CDEXSettleTx.fields x this, rest).
Proof.
  intros Hwf.
  unfold CDEXSettleBaseTx.well_formed, CBaseTx.well_formed in Hwf. split_hyps.
  assert (Hsig : representable (vector MAX_SIZE uint8) (CBaseTx.signature x))
    by now apply signature_representable.
  assert (Hitems : representable (vector MAX_SIZE DEXDealItem.codec)
                     (CDEXSettleBaseTx.dealItems x))
    by now apply dealItems_representable.
  unfold CDEXSettleTx.Unserialize, CDEXSettleTx.Serialize.
  apply UnserializeFields_SerializeFields.
  - unfold CDEXSettleTx.fields. fields_ok.
  - unfold CDEXSettleTx.fields. fields_rep; assumption.
Qed.

Lemma CDEXSettleExTx_wire (this x : CDEXSettleBaseTx.t) (rest : list byte) :
  CDEXSettleBaseTx.well_formed x ->
  CDEXSettleExTx.Unserialize this (CDEXSettleExTx.Serialize x ++ rest)
  = Some (assign_fields CDEXSettleExTx.fields x this, rest).
Proof.
  intros Hwf.
  unfold CDEXSettleBaseTx.well_formed, CBaseTx.well_formed in Hwf. split_hyps.
  assert (Hsig : representable (vector MAX_SIZE uint8) (CBaseTx.signature x))
    by now apply signature_representable.
  assert (Hitems : representable (vector MAX_SIZE DEXDealItem.codec)
                     (CDEXSettleBaseTx.dealItems x))
    by now apply dealItems_representable.
  unfold CDEXSettleExTx.Unserialize, CDEXSettleExTx.Serialize.
  apply UnserializeFields_SerializeFields.
  - unfold CDEXSettleExTx.fields. fields_ok.
  - unfold CDEXSettleExTx.fields. fields_rep; assumption.
Qed.

Lemma CDEXCancelOrderTx_wire (this x : CDEXCancelOrderTx.t) (rest : list byte) :
  CDEXCancelOrderTx.well_formed x ->
  CDEXCancelOrderTx.Unserialize this (CDEXCancelOrderTx.Serialize x ++ rest)
  = Some (assign_fields CDEXCancelOrderTx.fields x this, rest).
Proof.
  intros Hwf.
  unfold CDEXCancelOrderTx.well_formed, CBaseTx.well_formed in Hwf. split_hyps.
  assert (Hsig : representable (vector MAX_SIZE uint8) (CBaseTx.signature x))
    by now apply signature_representable.
  unfold CDEXCancelOrderTx.Unserialize, CDEXCancelOrderTx.Serialize.
  apply UnserializeFields_SerializeFields.
  - unfold CDEXCancelOrderTx.fields. fields_ok.
  - unfold CDEXCancelOrderTx.fields. fields_rep; assumption.
Qed.

(** Equal wire forms were written from equal serialized members. *)
Lemma wire_inj {T} (Serialize : T -> list byte) (Unserialize : T -> Reader T)
    (fields : list (Field T)) (well_formed : T -> Prop) :
  (forall this x rest, well_formed x ->
     Unserialize this (Serialize x ++ rest) = Some (assign_fields fields x this, rest)) ->
  forall x y, well_formed x -> well_formed y -> Serialize x = Serialize y ->
    assign_fields fields x x = assign_fields fields y x.
Proof.
  intros Hwire x y Hx Hy Heq.
  pose proof (Hwire x x [] Hx) as H1. pose proof (Hwire x y [] Hy) as H2.
  rewrite Heq, H2 in H1. now injection H1.
Qed.

(** X13: reading the wire form of a basic order [x] into an object [this]
    succeeds, leaves the rest of the stream, and assigns the members the
    class serializes: the common members and the signature, both symbols,
    and asset_amount and price (limit), coin_amount (market buy) or
    asset_amount (market sell).  Every other member keeps the value it has
    in [this]: the type tag, the cached hash, mode, dex_id,
    operator_fee_ratio, order_type, order_side, the other amounts, memo and
    the operator pair. *)
Theorem basic_order_wire_roundtrip (this x : CDEXOrderBaseTx.t) (rest : list byte) :
  CDEXOrderBaseTx.well_formed x ->
  let received (coinAmount assetAmount priceRead : Z) : CDEXOrderBaseTx.t :=
    {| CDEXOrderBaseTx.base := received_base x this;
       CDEXOrderBaseTx.mode := CDEXOrderBaseTx.mode this;
       CDEXOrderBaseTx.dex_id := CDEXOrderBaseTx.dex_id this;
       CDEXOrderBaseTx.operator_fee_ratio := CDEXOrderBaseTx.operator_fee_ratio this;
       CDEXOrderBaseTx.order_type := CDEXOrderBaseTx.order_type this;
       CDEXOrderBaseTx.order_side := CDEXOrderBaseTx.order_side this;
       CDEXOrderBaseTx.coin_symbol := CDEXOrderBaseTx.coin_symbol x;
       CDEXOrderBaseTx.asset_symbol := CDEXOrderBaseTx.asset_symbol x;
       CDEXOrderBaseTx.coin_amount := coinAmount;
       CDEXOrderBaseTx.asset_amount := assetAmount;
       CDEXOrderBaseTx.price := priceRead;
       CDEXOrderBaseTx.memo := CDEXOrderBaseTx.memo this;
       CDEXOrderBaseTx.operator_signature_pair :=
         CDEXOrderBaseTx.operator_signature_pair this |} in
  CDEXBuyLimitOrderTx.Unserialize this (CDEXBuyLimitOrderTx.Serialize x ++ rest)
  = Some (received (CDEXOrderBaseTx.coin_amount this) (CDEXOrderBaseTx.asset_amount x)
            (CDEXOrderBaseTx.price x), rest)
  /\ CDEXSellLimitOrderTx.Unserialize this (CDEXSellLimitOrderTx.Serialize x ++ rest)
     = Some (received (CDEXOrderBaseTx.coin_amount this) (CDEXOrderBaseTx.asset_amount x)
               (CDEXOrderBaseTx.price x), rest)
  /\ CDEXBuyMarketOrderTx.Unserialize this (CDEXBuyMarketOrderTx.Serialize x ++ rest)
     = Some (received (CDEXOrderBaseTx.coin_amount x) (CDEXOrderBaseTx.asset_amount this)
               (CDEXOrderBaseTx.price this), rest)
  /\ CDEXSellMarketOrderTx.Unserialize this (CDEXSellMarketOrderTx.Serialize x ++ rest)
     = Some (received (CDEXOrderBaseTx.coin_amount this) (CDEXOrderBaseTx.asset_amount x)
               (CDEXOrderBaseTx.price this), rest).
Proof.
  intros Hwf received. subst received. cbv beta.
  rewrite CDEXBuyLimitOrderTx_wire, CDEXSellLimitOrderTx_wire, CDEXBuyMarketOrderTx_wire,
    CDEXSellMarketOrderTx_wire by exact Hwf.
  destruct x as [[] ], this as [[] ]. repeat split.
Qed.


(** X17: a basic order built by its constructor and signed, written to the
    wire and read into a default-constructed object of its class.  The
    buy limit order is read back as it was, up to the type tag and the
    cached hash of the receiving base object.  order_type and order_side
    are not on the wire and the default constructor leaves them at
    ORDER_LIMIT_PRICE and ORDER_BUY: a sell limit order is read back with
    the side ORDER_BUY, a market buy order with the type ORDER_LIMIT_PRICE,
    and a market sell order with both. *)
Theorem constructed_basic_order_read_back
    (txUidIn : CUserID) (validHeightIn : Z) (feeSymbol : TokenSymbol) (fees : Z)
    (coinSymbol assetSymbol : TokenSymbol) (amountIn priceIn : Z)
    (userSignature : list byte) (baseIn : CBaseTx.t) (rest : list byte) :
  let buy_limit := CDEXOrderBaseTx.set_signature userSignature
        (CDEXBuyLimitOrderTx.ctor txUidIn validHeightIn feeSymbol fees coinSymbol
           assetSymbol amountIn priceIn) in
  let sell_limit := CDEXOrderBaseTx.set_signature userSignature
        (CDEXSellLimitOrderTx.ctor txUidIn validHeightIn feeSymbol fees coinSymbol
           assetSymbol amountIn priceIn) in
  let buy_market := CDEXOrderBaseTx.set_signature userSignature
        (CDEXBuyMarketOrderTx.ctor txUidIn validHeightIn feeSymbol fees coinSymbol
           assetSymbol amountIn) in
  let sell_market := CDEXOrderBaseTx.set_signature userSignature
        (CDEXSellMarketOrderTx.ctor txUidIn validHeightIn feeSymbol fees coinSymbol
           assetSymbol amountIn) in
  let read (x : CDEXOrderBaseTx.t) := CDEXOrderBaseTx.set_base (received_base x baseIn) x in
  Forall CDEXOrderBaseTx.well_formed [buy_limit; sell_limit; buy_market; sell_market] ->
  CDEXBuyLimitOrderTx.Unserialize (CDEXOrderBaseTx.ctor1 baseIn)
    (CDEXBuyLimitOrderTx.Serialize buy_limit ++ rest)
  = Some (read buy_limit, rest)
  /\ CDEXSellLimitOrderTx.Unserialize (CDEXOrderBaseTx.ctor1 baseIn)
       (CDEXSellLimitOrderTx.Serialize sell_limit ++ rest)
     = Some (CDEXOrderBaseTx.set_order_side ORDER_BUY (read sell_limit), rest)
  /\ CDEXBuyMarketOrderTx.Unserialize (CDEXOrderBaseTx.ctor1 baseIn)
       (CDEXBuyMarketOrderTx.Serialize buy_market ++ rest)
     = Some (CDEXOrderBaseTx.set_order_type ORDER_LIMIT_PRICE (read buy_market), rest)
  /\ CDEXSellMarketOrderTx.Unserialize (CDEXOrderBaseTx.ctor1 baseIn)
       (CDEXSellMarketOrderTx.Serialize sell_market ++ rest)
     = Some (CDEXOrderBaseTx.set_order_type ORDER_LIMIT_PRICE
               (CDEXOrderBaseTx.set_order_side ORDER_BUY (read sell_market)), rest)
  /\ CDEXOrderBaseTx.order_side (read sell_limit) = ORDER_SELL
  /\ CDEXOrderBaseTx.order_type (read buy_market) = ORDER_MARKET_PRICE
  /\ CDEXOrderBaseTx.order_side (read sell_market) = ORDER_SELL
  /\ CDEXOrderBaseTx.order_type (read sell_market) = ORDER_MARKET_PRICE.
Proof.
  intros buy_limit sell_limit buy_market sell_market read Hwf.
  inversion Hwf as [|? ? Hbl Hwf1]; subst. inversion Hwf1 as [|? ? Hsl Hwf2]; subst.
  inversion Hwf2 as [|? ? Hbm Hwf3]; subst. inversion Hwf3 as [|? ? Hsm _]; subst.
  rewrite CDEXBuyLimitOrderTx_wire, CDEXSellLimitOrderTx_wire, CDEXBuyMarketOrderTx_wire,
    CDEXSellMarketOrderTx_wire by assumption.
  clear. subst read buy_limit sell_limit buy_market sell_market.
  destruct baseIn. repeat split.
Qed.

Section Extended.
Variable CSignaturePair_codec : Codec CSignaturePair.t.
Hypothesis CSignaturePair_codec_ok : codec_ok CSignaturePair_codec.

(** Reading the mode as a number assigns the mode. *)
Lemma mode_byte_read (x this : CDEXOrderBaseTx.t) :
  CDEXOrderBaseTx.set_mode_byte (CDEXOrderBaseTx.mode_byte x) this
  = CDEXOrderBaseTx.set_mode (CDEXOrderBaseTx.mode x) this.
Proof.
  unfold CDEXOrderBaseTx.set_mode_byte, CDEXOrderBaseTx.mode_byte.
  rewrite byte_of_Z_of_byte. destruct (CDEXOrderBaseTx.mode x). reflexivity.
Qed.

Lemma CDEXBuyLimitOrderExTx_wire (this x : CDEXOrderBaseTx.t) (rest : list byte) :
  CDEXOrderBaseTx.well_formed x ->
  representable (optional CSignaturePair_codec) (CDEXOrderBaseTx.operator_signature_pair x) ->
  CDEXBuyLimitOrderExTx.Unserialize CSignaturePair_codec this
    (CDEXBuyLimitOrderExTx.Serialize CSignaturePair_codec x ++ rest)
  = Some (assign_fields (CDEXBuyLimitOrderExTx.fields CSignaturePair_codec) x this, rest).
Proof.
  intros Hwf Hpair.
  unfold CDEXOrderBaseTx.well_formed, CBaseTx.well_formed in Hwf. split_hyps.
  assert (Hsig : representable (vector MAX_SIZE uint8) (CBaseTx.signature x))
    by now apply signature_representable.
  assert (Hmode : representable (VARINT 8) (CDEXOrderBaseTx.mode_byte x)).
  { unfold CDEXOrderBaseTx.mode_byte. cbn [VARINT representable].
    pose proof (Z_of_byte_range (OrderOperatorMode.value (CDEXOrderBaseTx.mode x))). lia. }
  unfold CDEXBuyLimitOrderExTx.Unserialize, CDEXBuyLimitOrderExTx.Serialize.
  apply UnserializeFields_SerializeFields.
  - unfold CDEXBuyLimitOrderExTx.fields. fields_ok.
  - unfold CDEXBuyLimitOrderExTx.fields. fields_rep; assumption.
Qed.

Lemma CDEXSellLimitOrderExTx_wire (this x : CDEXOrderBaseTx.t) (rest : list byte) :
  CDEXOrderBaseTx.well_formed x ->
  representable (optional CSignaturePair_codec) (CDEXOrderBaseTx.operator_signature_pair x) ->
  CDEXSellLimitOrderExTx.Unserialize CSignaturePair_codec this
    (CDEXSellLimitOrderExTx.Serialize CSignaturePair_codec x ++ rest)
  = Some (assign_fields (CDEXSellLimitOrderExTx.fields CSignaturePair_codec) x this, rest).
Proof.
  intros Hwf Hpair.
  unfold CDEXOrderBaseTx.well_formed, CBaseTx.well_formed in Hwf. split_hyps.
  assert (Hsig : representable (vector MAX_SIZE uint8) (CBaseTx.signature x))
    by now apply signature_representable.
  assert (Hmode : representable (VARINT 8) (CDEXOrderBaseTx.mode_byte x)).
  { unfold CDEXOrderBaseTx.mode_byte. cbn [VARINT representable].
    pose proof (Z_of_byte_range (OrderOperatorMode.value (CDEXOrderBaseTx.mode x))). lia. }
  unfold CDEXSellLimitOrderExTx.Unserialize, CDEXSellLimitOrderExTx.Serialize.
  apply UnserializeFields_SerializeFields.
  - unfold CDEXSellLimitOrderExTx.fields. fields_ok.
  - unfold CDEXSellLimitOrderExTx.fields. fields_rep; assumption.
Qed.

Lemma CDEXBuyMarketOrderExTx_wire (this x : CDEXOrderBaseTx.t) (rest : list byte) :
  CDEXOrderBaseTx.well_formed x ->
  representable (optional CSignaturePair_codec) (CDEXOrderBaseTx.operator_signature_pair x) ->
  CDEXBuyMarketOrderExTx.Unserialize CSignaturePair_codec this
    (CDEXBuyMarketOrderExTx.Serialize CSignaturePair_codec x ++ rest)
  = Some (assign_fields (CDEXBuyMarketOrderExTx.fields CSignaturePair_codec) x this, rest).
Proof.
  intros Hwf Hpair.
  unfold CDEXOrderBaseTx.well_formed, CBaseTx.well_formed in Hwf. split_hyps.
  assert (Hsig : representable (vector MAX_SIZE uint8) (CBaseTx.signature x))
    by now apply signature_representable.
  assert (Hmode : representable (VARINT 8) (CDEXOrderBaseTx.mode_byte x)).
  { unfold CDEXOrderBaseTx.mode_byte. cbn [VARINT representable].
    pose proof (Z_of_byte_range (OrderOperatorMode.value (CDEXOrderBaseTx.mode x))). lia. }
  unfold CDEXBuyMarketOrderExTx.Unserialize, CDEXBuyMarketOrderExTx.Serialize.
  apply UnserializeFields_SerializeFields.
  - unfold CDEXBuyMarketOrderExTx.fields. fields_ok.
  - unfold CDEXBuyMarketOrderExTx.fields. fields_rep; assumption.
Qed.

Lemma CDEXSellMarketOrderExTx_wire (this x : CDEXOrderBaseTx.t) (rest : list byte) :
  CDEXOrderBaseTx.well_formed x ->
  representable (optional CSignaturePair_codec) (CDEXOrderBaseTx.operator_signature_pair x) ->
  CDEXSellMarketOrderExTx.Unserialize CSignaturePair_codec this
    (CDEXSellMarketOrderExTx.Serialize CSignaturePair_codec x ++ rest)
  = Some (assign_fields (CDEXSellMarketOrderExTx.fields CSignaturePair_codec) x this, rest).
Proof.
  intros Hwf Hpair.
  unfold CDEXOrderBaseTx.well_formed, CBaseTx.well_formed in Hwf. split_hyps.
  assert (Hsig : representable (vector MAX_SIZE uint8) (CBaseTx.signature x))
    by now apply signature_representable.
  assert (Hmode : representable (VARINT 8) (CDEXOrderBaseTx.mode_byte x)).
  { unfold CDEXOrderBaseTx.mode_byte. cbn [VARINT representable].
    pose proof (Z_of_byte_range (OrderOperatorMode.value (CDEXOrderBaseTx.mode x))). lia. }
  unfold CDEXSellMarketOrderExTx.Unserialize, CDEXSellMarketOrderExTx.Serialize.
  apply UnserializeFields_SerializeFields.
  - unfold CDEXSellMarketOrderExTx.fields. fields_ok.
  - unfold CDEXSellMarketOrderExTx.fields. fields_rep; assumption.
Qed.

(** X14: reading the wire form of an extended order [x] into an object
    [this] succeeds, leaves the rest of the stream, and assigns the common
    members and the signature, mode, dex_id, operator_fee_ratio, both
    symbols, the amounts of the class, memo and the operator pair.  The
    type tag, the cached hash, order_type, order_side and the amounts the
    class does not serialize keep the values they have in [this]. *)
Theorem extended_order_wire_roundtrip (this x : CDEXOrderBaseTx.t) (rest : list byte) :
  CDEXOrderBaseTx.well_formed x ->
  representable (optional CSignaturePair_codec) (CDEXOrderBaseTx.operator_signature_pair x) ->
  let received (coinAmount assetAmount priceRead : Z) : CDEXOrderBaseTx.t :=
    {| CDEXOrderBaseTx.base := received_base x this;
       CDEXOrderBaseTx.mode := CDEXOrderBaseTx.mode x;
       CDEXOrderBaseTx.dex_id := CDEXOrderBaseTx.dex_id x;
       CDEXOrderBaseTx.operator_fee_ratio := CDEXOrderBaseTx.operator_fee_ratio x;
       CDEXOrderBaseTx.order_type := CDEXOrderBaseTx.order_type this;
       CDEXOrderBaseTx.order_side := CDEXOrderBaseTx.order_side this;
       CDEXOrderBaseTx.coin_symbol := CDEXOrderBaseTx.coin_symbol x;
       CDEXOrderBaseTx.asset_symbol := CDEXOrderBaseTx.asset_symbol x;
       CDEXOrderBaseTx.coin_amount := coinAmount;
       CDEXOrderBaseTx.asset_amount := assetAmount;
       CDEXOrderBaseTx.price := priceRead;
       CDEXOrderBaseTx.memo := CDEXOrderBaseTx.memo x;
       CDEXOrderBaseTx.operator_signature_pair :=
         CDEXOrderBaseTx.operator_signature_pair x |} in
  CDEXBuyLimitOrderExTx.Unserialize CSignaturePair_codec this
    (CDEXBuyLimitOrderExTx.Serialize CSignaturePair_codec x ++ rest)
  = Some (received (CDEXOrderBaseTx.coin_amount this) (CDEXOrderBaseTx.asset_amount x)
            (CDEXOrderBaseTx.price x), rest)
  /\ CDEXSellLimitOrderExTx.Unserialize CSignaturePair_codec this
       (CDEXSellLimitOrderExTx.Serialize CSignaturePair_codec x ++ rest)
     = Some (received (CDEXOrderBaseTx.coin_amount this) (CDEXOrderBaseTx.asset_amount x)
               (CDEXOrderBaseTx.price x), rest)
  /\ CDEXBuyMarketOrderExTx.Unserialize CSignaturePair_codec this
       (CDEXBuyMarketOrderExTx.Serialize CSignaturePair_codec x ++ rest)
     = Some (received (CDEXOrderBaseTx.coin_amount x) (CDEXOrderBaseTx.asset_amount this)
               (CDEXOrderBaseTx.price this), rest)
  /\ CDEXSellMarketOrderExTx.Unserialize CSignaturePair_codec this
       (CDEXSellMarketOrderExTx.Serialize CSignaturePair_codec x ++ rest)
     = Some (received (CDEXOrderBaseTx.coin_amount this) (CDEXOrderBaseTx.asset_amount x)
               (CDEXOrderBaseTx.price this), rest).
Proof.
  intros Hwf Hpair received. subst received. cbv beta.
  rewrite CDEXBuyLimitOrderExTx_wire, CDEXSellLimitOrderExTx_wire,
    CDEXBuyMarketOrderExTx_wire, CDEXSellMarketOrderExTx_wire by assumption.
  unfold assign_fields, CDEXBuyLimitOrderExTx.fields, CDEXSellLimitOrderExTx.fields,
    CDEXBuyMarketOrderExTx.fields, CDEXSellMarketOrderExTx.fields.
  cbn [fold_left field_set field_get]. rewrite !mode_byte_read.
  destruct x as [[] ], this as [[] ]. repeat split.
Qed.

(** X21: every member that is hashed, the type tag apart, is on the wire:
    two transactions of one class with the same type tag byte and the same
    wire form hash the same bytes.  This holds for the eight order classes,
    the two settle classes and the cancel class. *)
Theorem hashed_members_are_on_the_wire :
  (forall x y : CDEXOrderBaseTx.t,
     CDEXOrderBaseTx.well_formed x -> CDEXOrderBaseTx.well_formed y ->
     TxType_code (CBaseTx.nTxType x) = TxType_code (CBaseTx.nTxType y) ->
     (CDEXBuyLimitOrderTx.Serialize x = CDEXBuyLimitOrderTx.Serialize y ->
      CDEXBuyLimitOrderTx.signature_hash_stream x = CDEXBuyLimitOrderTx.signature_hash_stream y)
     /\ (CDEXSellLimitOrderTx.Serialize x = CDEXSellLimitOrderTx.Serialize y ->
      CDEXSellLimitOrderTx.signature_hash_stream x = CDEXSellLimitOrderTx.signature_hash_stream y)
     /\ (CDEXBuyMarketOrderTx.Serialize x = CDEXBuyMarketOrderTx.Serialize y ->
      CDEXBuyMarketOrderTx.signature_hash_stream x = CDEXBuyMarketOrderTx.signature_hash_stream y)
     /\ (CDEXSellMarketOrderTx.Serialize x = CDEXSellMarketOrderTx.Serialize y ->
      CDEXSellMarketOrderTx.signature_hash_stream x = CDEXSellMarketOrderTx.signature_hash_stream y))
  /\ (forall x y : CDEXOrderBaseTx.t,
        CDEXOrderBaseTx.well_formed x -> CDEXOrderBaseTx.well_formed y ->
        representable (optional CSignaturePair_codec)
          (CDEXOrderBaseTx.operator_signature_pair x) ->
        representable (optional CSignaturePair_codec)
          (CDEXOrderBaseTx.operator_signature_pair y) ->
        TxType_code (CBaseTx.nTxType x) = TxType_code (CBaseTx.nTxType y) ->
        (CDEXBuyLimitOrderExTx.Serialize CSignaturePair_codec x = CDEXBuyLimitOrderExTx.Serialize CSignaturePair_codec y ->
         CDEXBuyLimitOrderExTx.signature_hash_stream x = CDEXBuyLimitOrderExTx.signature_hash_stream y)
        /\ (CDEXSellLimitOrderExTx.Serialize CSignaturePair_codec x = CDEXSellLimitOrderExTx.Serialize CSignaturePair_codec y ->
         CDEXSellLimitOrderExTx.signature_hash_stream x = CDEXSellLimitOrderExTx.signature_hash_stream y)
        /\ (CDEXBuyMarketOrderExTx.Serialize CSignaturePair_codec x = CDEXBuyMarketOrderExTx.Serialize CSignaturePair_codec y ->
         CDEXBuyMarketOrderExTx.signature_hash_stream x = CDEXBuyMarketOrderExTx.signature_hash_stream y)
        /\ (CDEXSellMarketOrderExTx.Serialize CSignaturePair_codec x = CDEXSellMarketOrderExTx.Serialize CSignaturePair_codec y ->
         CDEXSellMarketOrderExTx.signature_hash_stream x = CDEXSellMarketOrderExTx.signature_hash_stream y))
  /\ (forall x y : CDEXSettleBaseTx.t,
        CDEXSettleBaseTx.well_formed x -> CDEXSettleBaseTx.well_formed y ->
        TxType_code (CBaseTx.nTxType x) = TxType_code (CBaseTx.nTxType y) ->
        (CDEXSettleTx.Serialize x = CDEXSettleTx.Serialize y ->
      CDEXSettleTx.signature_hash_stream x = CDEXSettleTx.signature_hash_stream y)
        /\ (CDEXSettleExTx.Serialize x = CDEXSettleExTx.Serialize y ->
      CDEXSettleExTx.signature_hash_stream x = CDEXSettleExTx.signature_hash_stream y))
  /\ (forall x y : CDEXCancelOrderTx.t,
        CDEXCancelOrderTx.well_formed x -> CDEXCancelOrderTx.well_formed y ->
        TxType_code (CBaseTx.nTxType x) = TxType_code (CBaseTx.nTxType y) ->
        CDEXCancelOrderTx.Serialize x = CDEXCancelOrderTx.Serialize y ->
        CDEXCancelOrderTx.signature_hash_stream x = CDEXCancelOrderTx.signature_hash_stream y).
Proof.
  split; [|split; [|split]].
  - intros x y Hx Hy Htag. split; [|split; [|split]]; intros Hser.
    + apply (wire_inj _ _ _ _ CDEXBuyLimitOrderTx_wire x y Hx Hy) in Hser.
      destruct x as [[] ], y as [[] ]. cbn in Htag.
      unfold CDEXBuyLimitOrderTx.signature_hash_stream. cbn in Hser. injection Hser; intros; subst.
      cbn -[Serialize TxType_code Z_of_byte]. rewrite Htag. reflexivity.
    + apply (wire_inj _ _ _ _ CDEXSellLimitOrderTx_wire x y Hx Hy) in Hser.
      destruct x as [[] ], y as [[] ]. cbn in Htag.
      unfold CDEXSellLimitOrderTx.signature_hash_stream. cbn in Hser. injection Hser; intros; subst.
      cbn -[Serialize TxType_code Z_of_byte]. rewrite Htag. reflexivity.
    + apply (wire_inj _ _ _ _ CDEXBuyMarketOrderTx_wire x y Hx Hy) in Hser.
      destruct x as [[] ], y as [[] ]. cbn in Htag.
      unfold CDEXBuyMarketOrderTx.signature_hash_stream. cbn in Hser. injection Hser; intros; subst.
      cbn -[Serialize TxType_code Z_of_byte]. rewrite Htag. reflexivity.
    + apply (wire_inj _ _ _ _ CDEXSellMarketOrderTx_wire x y Hx Hy) in Hser.
      destruct x as [[] ], y as [[] ]. cbn in Htag.
      unfold CDEXSellMarketOrderTx.signature_hash_stream. cbn in Hser. injection Hser; intros; subst.
      cbn -[Serialize TxType_code Z_of_byte]. rewrite Htag. reflexivity.
  - intros x y Hx Hy Hpx Hpy Htag.
    assert (Hwire : forall (fields : list (Field CDEXOrderBaseTx.t))
                (Ser : CDEXOrderBaseTx.t -> list byte)
                (Unser : CDEXOrderBaseTx.t -> Reader CDEXOrderBaseTx.t),
              (forall this x rest, CDEXOrderBaseTx.well_formed x ->
                 representable (optional CSignaturePair_codec)
                   (CDEXOrderBaseTx.operator_signature_pair x) ->
                 Unser this (Ser x ++ rest) = Some (assign_fields fields x this, rest)) ->
              Ser x = Ser y -> assign_fields fields x x = assign_fields fields y x).
    { intros fields Ser Unser Hrt Heq.
      apply (wire_inj Ser Unser fields
               (fun x => CDEXOrderBaseTx.well_formed x
                         /\ representable (optional CSignaturePair_codec)
                              (CDEXOrderBaseTx.operator_signature_pair x)));
        [intros this z rest [Hz Hpz]; now apply Hrt|split; assumption|split; assumption
        |exact Heq]. }
    split; [|split; [|split]]; intros Hser.
    + apply (Hwire _ _ _ CDEXBuyLimitOrderExTx_wire) in Hser.
      unfold assign_fields, CDEXBuyLimitOrderExTx.fields in Hser.
      cbn [fold_left field_set field_get] in Hser. rewrite !mode_byte_read in Hser.
      destruct x as [[] ], y as [[] ]. cbn in Htag.
      unfold CDEXBuyLimitOrderExTx.signature_hash_stream. cbn in Hser. injection Hser; intros; subst.
      cbn -[Serialize TxType_code Z_of_byte]. rewrite Htag. reflexivity.
    + apply (Hwire _ _ _ CDEXSellLimitOrderExTx_wire) in Hser.
      unfold assign_fields, CDEXSellLimitOrderExTx.fields in Hser.
      cbn [fold_left field_set field_get] in Hser. rewrite !mode_byte_read in Hser.
      destruct x as [[] ], y as [[] ]. cbn in Htag.
      unfold CDEXSellLimitOrderExTx.signature_hash_stream. cbn in Hser. injection Hser; intros; subst.
      cbn -[Serialize TxType_code Z_of_byte]. rewrite Htag. reflexivity.
    + apply (Hwire _ _ _ CDEXBuyMarketOrderExTx_wire) in Hser.
      unfold assign_fields, CDEXBuyMarketOrderExTx.fields in Hser.
      cbn [fold_left field_set field_get] in Hser. rewrite !mode_byte_read in Hser.
      destruct x as [[] ], y as [[] ]. cbn in Htag.
      unfold CDEXBuyMarketOrderExTx.signature_hash_stream. cbn in Hser. injection Hser; intros; subst.
      cbn -[Serialize TxType_code Z_of_byte]. rewrite Htag. reflexivity.
    + apply (Hwire _ _ _ CDEXSellMarketOrderExTx_wire) in Hser.
      unfold assign_fields, CDEXSellMarketOrderExTx.fields in Hser.
      cbn [fold_left field_set field_get] in Hser. rewrite !mode_byte_read in Hser.
      destruct x as [[] ], y as [[] ]. cbn in Htag.
      unfold CDEXSellMarketOrderExTx.signature_hash_stream. cbn in Hser. injection Hser; intros; subst.
      cbn -[Serialize TxType_code Z_of_byte]. rewrite Htag. reflexivity.
  - intros x y Hx Hy Htag. split; intros Hser.
    + apply (wire_inj _ _ _ _ CDEXSettleTx_wire x y Hx Hy) in Hser.
      destruct x as [[] ], y as [[] ]. cbn in Htag.
      unfold CDEXSettleTx.signature_hash_stream. cbn in Hser. injection Hser; intros; subst.
      cbn -[Serialize TxType_code Z_of_byte]. rewrite Htag. reflexivity.
    + apply (wire_inj _ _ _ _ CDEXSettleExTx_wire x y Hx Hy) in Hser.
      destruct x as [[] ], y as [[] ]. cbn in Htag.
      unfold CDEXSettleExTx.signature_hash_stream. cbn in Hser. injection Hser; intros; subst.
      cbn -[Serialize TxType_code Z_of_byte]. rewrite Htag. reflexivity.
  - intros x y Hx Hy Htag Hser.
    apply (wire_inj _ _ _ _ CDEXCancelOrderTx_wire x y Hx Hy) in Hser.
    destruct x as [[] ], y as [[] ]. cbn in Htag.
    unfold CDEXCancelOrderTx.signature_hash_stream. cbn in Hser. injection Hser; intros; subst.
    cbn -[Serialize TxType_code Z_of_byte]. rewrite Htag. reflexivity.
Qed.

End Extended.


(** X15: reading the wire form of a settle transaction [x] into an object
    [this] succeeds and leaves the rest of the stream.  The basic class
    assigns the common members, the deal items and the signature, and
    keeps dex_id and memo of [this]; the extended class assigns dex_id and
    memo as well.  The type tag and the cached hash are those of [this]. *)
Theorem settle_wire_roundtrip (this x : CDEXSettleBaseTx.t) (rest : list byte) :
  CDEXSettleBaseTx.well_formed x ->
  CDEXSettleTx.Unserialize this (CDEXSettleTx.Serialize x ++ rest)
  = Some ({| CDEXSettleBaseTx.base := received_base x this;
             CDEXSettleBaseTx.dex_id := CDEXSettleBaseTx.dex_id this;
             CDEXSettleBaseTx.dealItems := CDEXSettleBaseTx.dealItems x;
             CDEXSettleBaseTx.memo := CDEXSettleBaseTx.memo this |}, rest)
  /\ CDEXSettleExTx.Unserialize this (CDEXSettleExTx.Serialize x ++ rest)
     = Some ({| CDEXSettleBaseTx.base := received_base x this;
                CDEXSettleBaseTx.dex_id := CDEXSettleBaseTx.dex_id x;
                CDEXSettleBaseTx.dealItems := CDEXSettleBaseTx.dealItems x;
                CDEXSettleBaseTx.memo := CDEXSettleBaseTx.memo x |}, rest).
Proof.
  intros Hwf. rewrite CDEXSettleTx_wire, CDEXSettleExTx_wire by exact Hwf.
  destruct x as [[] ], this as [[] ]. split; reflexivity.
Qed.

(** X16: reading the wire form of a cancel transaction [x] into an object
    [this] succeeds, leaves the rest of the stream, and gives [x] with the
    type tag and the cached hash of [this]. *)
Theorem cancel_wire_roundtrip (this x : CDEXCancelOrderTx.t) (rest : list byte) :
  CDEXCancelOrderTx.well_formed x ->
  CDEXCancelOrderTx.Unserialize this (CDEXCancelOrderTx.Serialize x ++ rest)
  = Some ({| CDEXCancelOrderTx.base := received_base x this;
             CDEXCancelOrderTx.orderId := CDEXCancelOrderTx.orderId x |}, rest).
Proof.
  intros Hwf. rewrite CDEXCancelOrderTx_wire by exact Hwf.
  destruct x as [[] ], this as [[] ]. reflexivity.
Qed.

End WireRoundTrip.

(** ** vm/wasm/abi_serializer.cpp: type names and typedefs *)

Section TypeNames.
Import abi_serializer.

(** Prefixes, suffixes and lengths of strings. *)
Lemma substring_0_length (s : string) : substring 0 (String.length s) s = s.
Proof.
  induction s as [|c s IH]; cbn; [reflexivity|]. now rewrite IH.
Qed.

Lemma substring_0_append (s t : string) :
  substring 0 (String.length s) (s ++ t) = s.
Proof.
  induction s as [|c s IH]; cbn.
  - destruct t; reflexivity.
  - now rewrite IH.
Qed.

Lemma substring_skip_append (s t : string) :
  substring (String.length s) (String.length t) (s ++ t) = t.
Proof.
  induction s as [|c s IH]; cbn.
  - apply substring_0_length.
  - exact IH.
Qed.

Lemma length_append (s t : string) :
  String.length (s ++ t) = (String.length s + String.length t)%nat.
Proof.
  induction s as [|c s IH]; cbn; [reflexivity|]. now rewrite IH.
Qed.

Lemma substring_split (n : nat) (s : string) :
  (n <= String.length s)%nat ->
  s = (substring 0 n s ++ substring n (String.length s - n) s)%string.
Proof.
  revert n. induction s as [|c s IH]; intros n Hn.
  - destruct n; [reflexivity|cbn in Hn; lia].
  - destruct n as [|n].
    + cbn. now rewrite substring_0_length.
    + cbn in Hn. cbn. f_equal. apply IH. lia.
Qed.

Lemma ends_with_append (s t : string) : ends_with (s ++ t) t = true.
Proof.
  unfold ends_with. rewrite length_append.
  replace (String.length s + String.length t - String.length t)%nat
    with (String.length s) by lia.
  rewrite substring_skip_append, String.eqb_refl.
  rewrite andb_true_r. apply Nat.leb_le. lia.
Qed.

Lemma ends_with_spec (s t : string) :
  ends_with s t = true
  <-> s = (substring 0 (String.length s - String.length t) s ++ t)%string.
Proof.
  split.
  - unfold ends_with. intros H. apply andb_true_iff in H as [Hlen Heq].
    apply Nat.leb_le in Hlen. apply String.eqb_eq in Heq.
    pose proof (substring_split (String.length s - String.length t) s) as Hs.
    replace (String.length s - (String.length s - String.length t))%nat
      with (String.length t) in Hs by lia.
    rewrite Heq in Hs. apply Hs. lia.
  - intros H. rewrite H. apply ends_with_append.
Qed.

Lemma append_inj_r (s1 s2 t : string) : (s1 ++ t = s2 ++ t)%string -> s1 = s2.
Proof.
  revert s2. induction s1 as [|c s1 IH]; intros s2 H.
  - destruct s2 as [|d s2]; [reflexivity|]. exfalso.
    apply (f_equal String.length) in H. cbn in H. rewrite length_append in H. lia.
  - destruct s2 as [|d s2].
    + exfalso. apply (f_equal String.length) in H. cbn in H.
      rewrite length_append in H. lia.
    + cbn in H. injection H as -> H. f_equal. now apply IH.
Qed.

Lemma optional_suffix_not_array (s1 s2 : string) :
  (s1 ++ "?")%string <> (s2 ++ "[]")%string.
Proof.
  revert s2. induction s1 as [|c s1 IH]; intros s2 H.
  - destruct s2 as [|d s2]; cbn in H; [discriminate H|].
    injection H as _ H. destruct s2; discriminate H.
  - destruct s2 as [|d s2]; cbn in H.
    + injection H as _ H. destruct s1 as [|e s1]; cbn in H; [discriminate H|].
      injection H as _ H. destruct s1; discriminate H.
    + injection H as _ H. now apply IH in H.
Qed.

(** X22: [fundamental_type] strips one suffix: a name that ends in "[]" is
    an array and loses the "[]"; a name that ends in "?" is optional, is no
    array, and loses the "?"; any other name is returned as it is.  So a
    name is its fundamental type followed by "[]", by "?" or by nothing,
    and the fundamental type is never longer than the name. *)
Theorem fundamental_type_strips_one_suffix (base type : type_name) :
  (is_array (base ++ "[]")%string = true /\ fundamental_type (base ++ "[]")%string = base)
  /\ (is_optional (base ++ "?")%string = true /\ is_array (base ++ "?")%string = false
      /\ fundamental_type (base ++ "?")%string = base)
  /\ (is_array type = false -> is_optional type = false -> fundamental_type type = type)
  /\ (type = fundamental_type type ++ "[]"
      \/ type = fundamental_type type ++ "?"
      \/ type = fundamental_type type)%string
  /\ (String.length (fundamental_type type) <= String.length type)%nat.
Proof.
  assert (Harr : is_array (base ++ "[]")%string = true) by apply ends_with_append.
  assert (Hopt : is_optional (base ++ "?")%string = true) by apply ends_with_append.
  assert (Hno : is_array (base ++ "?")%string = false).
  { destruct (is_array (base ++ "?")%string) eqn:H; [|reflexivity]. exfalso.
    apply ends_with_spec in H. now apply optional_suffix_not_array in H. }
  split; [|split; [|split; [|split]]].
  - split; [exact Harr|]. unfold fundamental_type. rewrite Harr, length_append. cbn.
    replace (String.length base + 2 - 2)%nat with (String.length base) by lia.
    apply substring_0_append.
  - split; [exact Hopt|]. split; [exact Hno|].
    unfold fundamental_type. rewrite Hno, Hopt, length_append. cbn.
    replace (String.length base + 1 - 1)%nat with (String.length base) by lia.
    apply substring_0_append.
  - intros H1 H2. unfold fundamental_type. now rewrite H1, H2.
  - unfold fundamental_type.
    destruct (is_array type) eqn:H1.
    + left. now apply ends_with_spec in H1.
    + destruct (is_optional type) eqn:H2.
      * right. left. now apply ends_with_spec in H2.
      * right. right. reflexivity.
  - unfold fundamental_type.
    destruct (is_array type) eqn:H1; [|destruct (is_optional type) eqn:H2]; [| |lia].
    + apply ends_with_spec in H1. apply (f_equal String.length) in H1.
      rewrite length_append in H1. cbn [String.length] in H1. lia.
    + apply ends_with_spec in H2. apply (f_equal String.length) in H2.
      rewrite length_append in H2. cbn [String.length] in H2. lia.
Qed.

Lemma starts_with_spec (input test : string) :
  starts_with input test = true <-> exists rest, input = (test ++ rest)%string.
Proof.
  unfold starts_with. rewrite prefix_correct. split.
  - intros H.
    destruct (Nat.le_gt_cases (String.length test) (String.length input)) as [Hle|Hgt].
    + exists (substring (String.length test) (String.length input - String.length test) input).
      pose proof (substring_split (String.length test) input Hle) as Hs.
      rewrite H in Hs. exact Hs.
    + exfalso. apply (f_equal String.length) in H.
      assert (Hlen : forall n s, (String.length (substring 0 n s) <= String.length s)%nat).
      { induction n as [|n IH]; intros [|c s]; cbn; try lia. specialize (IH s). lia. }
      specialize (Hlen (String.length test) input). lia.
  - intros [rest ->]. apply substring_0_append.
Qed.

(** X23: [is_integer] holds exactly for the names that start with "uint" or
    with "int", whatever follows.  [_remove_bin_extension] removes one
    trailing "$" and returns a name without it unchanged. *)
Theorem type_name_prefix_and_extension (base type : type_name) :
  (is_integer type = true
   <-> (exists rest, type = "uint" ++ rest)%string \/ (exists rest, type = "int" ++ rest)%string)
  /\ _remove_bin_extension (base ++ "$")%string = base
  /\ (ends_with type "$" = false -> _remove_bin_extension type = type)
  /\ (type = _remove_bin_extension type ++ "$" \/ type = _remove_bin_extension type)%string.
Proof.
  split; [|split; [|split]].
  - unfold is_integer. rewrite orb_true_iff, !starts_with_spec. reflexivity.
  - unfold _remove_bin_extension. rewrite ends_with_append, length_append. cbn.
    replace (String.length base + 1 - 1)%nat with (String.length base) by lia.
    apply substring_0_append.
  - intros H. unfold _remove_bin_extension. now rewrite H.
  - unfold _remove_bin_extension. destruct (ends_with type "$") eqn:H.
    + left. now apply ends_with_spec in H.
    + right. reflexivity.
Qed.

Lemma resolve_type_loop_result (typedefs : type_map) (i : nat) (type second : type_name) :
  resolve_type_loop typedefs i type second = type
  \/ find typedefs (resolve_type_loop typedefs i type second) = None.
Proof.
  revert second. induction i as [|i IH]; intros second; cbn.
  - left. reflexivity.
  - destruct (find typedefs second) eqn:H.
    + apply IH.
    + right. exact H.
Qed.

(** X24: [resolve_type] returns a name that is no typedef, or the name it
    was given.  A name that is no typedef resolves to itself; a typedef of
    a name that is no typedef resolves to that name; a typedef of itself
    resolves to itself; and resolving twice gives what resolving once
    gives. *)
Theorem resolve_type_fixed_point (typedefs : type_map) (type : type_name) :
  (find typedefs type = None -> resolve_type typedefs type = type)
  /\ (resolve_type typedefs type = type
      \/ find typedefs (resolve_type typedefs type) = None)
  /\ resolve_type typedefs (resolve_type typedefs type) = resolve_type typedefs type
  /\ (forall second, find typedefs type = Some second -> find typedefs second = None ->
        resolve_type typedefs type = second)
  /\ (find typedefs type = Some type -> resolve_type typedefs type = type).
Proof.
  assert (Hres : resolve_type typedefs type = type
                 \/ find typedefs (resolve_type typedefs type) = None).
  { unfold resolve_type. destruct (find typedefs type) eqn:H.
    - apply resolve_type_loop_result.
    - left. reflexivity. }
  split; [|split; [exact Hres|split; [|split]]].
  - intros H. unfold resolve_type. now rewrite H.
  - destruct Hres as [H|H].
    + now rewrite H.
    + unfold resolve_type at 1. now rewrite H.
  - intros second H1 H2. unfold resolve_type. rewrite H1.
    destruct typedefs as [|e typedefs]; [discriminate H1|].
    cbn [size List.length resolve_type_loop]. now rewrite H2.
  - intros H. unfold resolve_type. rewrite H.
    induction (size typedefs) as [|i IH]; cbn; [reflexivity|]. now rewrite H.
Qed.

(** Every key that [find] finds is a key of an entry. *)
Lemma find_In (typedefs : type_map) (key second : type_name) :
  find typedefs key = Some second -> In key (map fst typedefs).
Proof.
  induction typedefs as [|[k v] typedefs IH]; cbn; [discriminate|].
  destruct (String.eqb k key) eqn:H.
  - apply String.eqb_eq in H. intros _. now left.
  - intros Hf. right. now apply IH.
Qed.

(** With typedefs that a rank orders, the loop cannot use up its rounds:
    the names it has been through are distinct keys of the map. *)
Lemma resolve_type_loop_ranked (typedefs : type_map) (rank : type_name -> nat)
    (type : type_name) :
  (forall a b, find typedefs a = Some b -> (rank b < rank a)%nat) ->
  forall (i : nat) (second : type_name) (seen : list type_name),
    NoDup seen -> incl seen (map fst typedefs) ->
    (forall s, In s seen -> (rank second < rank s)%nat) ->
    (List.length seen + i = S (size typedefs))%nat ->
    find typedefs (resolve_type_loop typedefs i type second) = None.
Proof.
  intros Hrank. induction i as [|i IH]; intros second seen Hnd Hincl Hlt Hlen.
  - exfalso. pose proof (NoDup_incl_length Hnd Hincl) as Hle.
    rewrite length_map in Hle. unfold size in Hlen. lia.
  - cbn. destruct (find typedefs second) as [second'|] eqn:Hfind; [|exact Hfind].
    apply (IH second' (second :: seen)).
    + constructor; [|exact Hnd]. intros Hin. apply Hlt in Hin. lia.
    + intros s [<-|Hin]; [now apply find_In in Hfind|now apply Hincl].
    + intros s [<-|Hin]; [now apply Hrank|].
      apply Hrank in Hfind. apply Hlt in Hin. lia.
    + cbn [List.length]. lia.
Qed.

(** X25: with typedefs that contain no cycle (a rank decreases along every
    typedef), the rounds of [resolve_type], as many as there are typedefs,
    are enough: the name returned is no typedef, and a typedef resolves to
    what its target resolves to, which is never the typedef itself. *)
Theorem resolve_type_reaches_end_of_acyclic_typedefs
    (typedefs : type_map) (rank : type_name -> nat) (type : type_name) :
  (forall a b, find typedefs a = Some b -> (rank b < rank a)%nat) ->
  find typedefs (resolve_type typedefs type) = None
  /\ (forall second, find typedefs type = Some second ->
        resolve_type typedefs type = resolve_type typedefs second
        /\ resolve_type typedefs type <> type).
Proof.
  intros Hrank.
  assert (Hend : forall t, find typedefs (resolve_type typedefs t) = None).
  { intros t. unfold resolve_type. destruct (find typedefs t) as [second|] eqn:Hfind.
    - apply (resolve_type_loop_ranked typedefs rank t Hrank (size typedefs) second [t]).
      + constructor; [intros []|constructor].
      + intros s [<-|[]]. now apply find_In in Hfind.
      + intros s [<-|[]]. now apply Hrank.
      + cbn. lia.
    - exact Hfind. }
  split; [apply Hend|].
  intros second Hfind. split.
  - (* A round more than the loop needs changes nothing. *)
    assert (Hmono : forall i t s, find typedefs (resolve_type_loop typedefs i t s) = None ->
              forall t', (resolve_type_loop typedefs i t s = t /\ find typedefs t = None)
                         \/ resolve_type_loop typedefs (S i) t' s
                            = resolve_type_loop typedefs i t s).
    { induction i as [|i IH]; intros t s Hnone t'.
      - cbn in Hnone. left. split; [reflexivity|exact Hnone].
      - cbn in Hnone |- *. destruct (find typedefs s) as [s'|] eqn:Hs.
        + destruct (IH t s' Hnone t') as [Hl|Hr]; [left; exact Hl|right].
          cbn in Hr. exact Hr.
        + right. reflexivity. }
    pose proof (Hend type) as Htype. pose proof (Hend second) as Hsecond.
    unfold resolve_type in Htype, Hsecond |- *. rewrite Hfind in Htype |- *.
    destruct (find typedefs second) as [third|] eqn:Hthird.
    + destruct (size typedefs) as [|n] eqn:Hsize; [cbn in Htype; congruence|].
      cbn [resolve_type_loop] in Htype |- *. rewrite Hthird in Htype |- *.
      destruct (Hmono n type third Htype second) as [[_ Hbad]|Hr]; [congruence|].
      symmetry. exact Hr.
    + destruct (size typedefs) as [|n] eqn:Hsize.
      * destruct typedefs; [discriminate Hfind|discriminate Hsize].
      * cbn. now rewrite Hthird.
  - intros Heq. pose proof (Hend type) as Htype. rewrite Heq in Htype. congruence.
Qed.

End TypeNames.

(** ** vm/wasm/abi_serializer.cpp: fields by index *)

Section FieldByIndex.
Import abi_serializer.

(** X26: the bounds check of [get_field_variant] with an index computes
    [a.size() - 1] in an unsigned type.  For an array that is not empty it
    throws exactly when the index is not below the size, and an element is
    returned otherwise; for an empty array the subtraction wraps around, no
    index makes the check throw, and [a[index]] is evaluated past the end
    of the array.  A JSON value that is no array makes the call throw. *)
Theorem get_field_variant_bounds_check {V} (size_bits : Z) (a : list V) (index : Z) :
  32 <= size_bits -> 0 <= index < 2 ^ 32 -> Z.of_nat (List.length a) < 2 ^ size_bits ->
  (a = [] -> get_field_variant size_bits (Some a) index = reads_past_the_end)
  /\ (a <> [] ->
      (index < Z.of_nat (List.length a) ->
       exists x, nth_error a (Z.to_nat index) = Some x
                 /\ get_field_variant size_bits (Some a) index = returns x)
      /\ (Z.of_nat (List.length a) <= index ->
          get_field_variant size_bits (Some a) index = throws))
  /\ get_field_variant size_bits (@None (list V)) index = throws.
Proof.
  intros Hbits Hindex Hsize.
  assert (Hpow : 2 ^ 32 <= 2 ^ size_bits) by (apply Z.pow_le_mono_r; lia).
  split; [|split; [|reflexivity]].
  - intros ->. unfold get_field_variant. cbn [List.length Z.of_nat].
    replace ((0 - 1) mod 2 ^ size_bits) with (2 ^ size_bits - 1).
    + destruct (Z.gtb_spec index (2 ^ size_bits - 1)) as [Hgt|_]; [lia|].
      destruct (Z.to_nat index); reflexivity.
    + apply Z.mod_unique with (q := -1); [left; lia|lia].
  - intros Hne. assert (Hlen : 0 < Z.of_nat (List.length a)).
    { destruct a; [contradiction|]. cbn [List.length]. lia. }
    unfold get_field_variant. rewrite Z.mod_small by lia. split.
    + intros Hlt. destruct (Z.gtb_spec index (Z.of_nat (List.length a) - 1)) as [Hgt|_]; [lia|].
      destruct (nth_error a (Z.to_nat index)) as [x|] eqn:Hnth.
      * exists x. split; reflexivity.
      * apply nth_error_None in Hnth. lia.
    + intros Hge. destruct (Z.gtb_spec index (Z.of_nat (List.length a) - 1)) as [_|Hle]; [reflexivity|lia].
Qed.

End FieldByIndex.

(** ** The further theorems at the fixture's values *)

Lemma Fixture_CUserID_codec_ok : codec_ok (@CUserID_codec Fixture.external).
Proof.
  apply pair_codec_ok; apply VARINT_ok.
Qed.

Lemma Fixture_signature_pair_codec_ok : codec_ok Fixture.signature_pair_codec.
Proof.
  intros p rest Hp. cbn [Fixture.signature_pair_codec Serialize Unserialize representable] in *.
  rewrite UnserializeFields_SerializeFields.
  - destruct p. reflexivity.
  - unfold Fixture.signature_pair_fields.
    repeat apply Forall_cons; try apply Forall_nil; cbn [field_codec].
    + apply pair_codec_ok; apply VARINT_ok.
    + apply vector_ok, uint8_ok.
  - exact Hp.
Qed.

Lemma SetOperatorRegid_keeps_cached_hash_witness :
  fst (CDEXBuyLimitOrderExTx.ComputeSignatureHash false
         (@CDEXOrderBaseTx.SetOperatorRegid Fixture.external (Some (10, 3))
            Fixture.limit_buy_ex_hashed))
  = CBaseTx.sigHash (CDEXOrderBaseTx.base Fixture.limit_buy_ex_hashed)
  /\ CDEXBuyLimitOrderExTx.signature_hash_stream
       (@CDEXOrderBaseTx.SetOperatorRegid Fixture.external (Some (10, 3))
            Fixture.limit_buy_ex_hashed)
     <> CDEXBuyLimitOrderExTx.signature_hash_stream Fixture.limit_buy_ex_hashed.
Proof.
  assert (H1 : representable (@CRegID_codec Fixture.external) (10, 3))
    by decide_well_formed.
  assert (H2 : representable (optional (@CRegID_codec Fixture.external))
                 (CDEXOrderBaseTx.GetOperatorRegid Fixture.limit_buy_ex_hashed))
    by decide_well_formed.
  assert (H3 : CDEXOrderBaseTx.GetOperatorRegid Fixture.limit_buy_ex_hashed
               <> Some ((10, 3) : @CRegID Fixture.external))
    by (vm_compute; discriminate).
  assert (H4 : @uint256_IsNull Fixture.external
                 (CBaseTx.sigHash (CDEXOrderBaseTx.base Fixture.limit_buy_ex_hashed)) = false)
    by (vm_compute; reflexivity).
  pose proof (@SetOperatorRegid_keeps_cached_hash Fixture.external Fixture_laws
                Fixture.limit_buy_ex_hashed (10, 3) H1 H2 H3 H4) as H.
  apply Forall_inv in H. cbn [fst snd] in H. destruct H as (Hs & Hf & _).
  split; assumption.
Defined.

Lemma AddDealItem_appends_and_keeps_cached_hash_witness :
  CDEXSettleBaseTx.GetDealItems
    (CDEXSettleBaseTx.AddDealItem Fixture.deal_item Fixture.settle_ex_hashed)
  = [Fixture.deal_item; Fixture.deal_item]
  /\ fst (CDEXSettleExTx.ComputeSignatureHash false
            (CDEXSettleBaseTx.AddDealItem Fixture.deal_item Fixture.settle_ex_hashed))
     = CBaseTx.sigHash (CDEXSettleBaseTx.base Fixture.settle_ex_hashed)
  /\ CDEXSettleExTx.signature_hash_stream
       (CDEXSettleBaseTx.AddDealItem Fixture.deal_item Fixture.settle_ex_hashed)
     <> CDEXSettleExTx.signature_hash_stream Fixture.settle_ex_hashed.
Proof.
  assert (Hwf : CDEXSettleBaseTx.well_formed
                  (CDEXSettleBaseTx.AddDealItem Fixture.deal_item Fixture.settle_ex_hashed))
    by decide_ranges.
  destruct (@AddDealItem_appends_and_keeps_cached_hash Fixture.external Fixture_laws
              Fixture.settle_ex_hashed Fixture.deal_item Hwf)
    as (Hitems & _ & _ & Hstream & Hstale & _).
  split; [exact Hitems|]. split; [|exact Hstream].
  apply Hstale. vm_compute. reflexivity.
Defined.

Lemma basic_order_hash_binds_hashed_members_witness :
  CDEXOrderBaseTx.well_formed Fixture.limit_buy
  /\ CDEXOrderBaseTx.well_formed Fixture.limit_sell
  /\ CDEXBuyLimitOrderTx.signature_hash_stream Fixture.limit_buy
     <> CDEXBuyLimitOrderTx.signature_hash_stream Fixture.limit_sell.
Proof.
  assert (H1 : CDEXOrderBaseTx.well_formed Fixture.limit_buy) by decide_well_formed.
  assert (H2 : CDEXOrderBaseTx.well_formed Fixture.limit_sell) by decide_well_formed.
  split; [exact H1|]. split; [exact H2|].
  destruct (@basic_order_hash_binds_hashed_members Fixture.external
              Fixture_CUserID_codec_ok Fixture.limit_buy Fixture.limit_sell H1 H2)
    as ([Hto _] & _).
  intros Heq. apply Hto in Heq. destruct Heq as ((_ & Htag & _) & _).
  vm_compute in Htag. discriminate Htag.
Defined.

Lemma extended_order_hash_binds_hashed_members_witness :
  CDEXOrderBaseTx.well_formed Fixture.limit_buy_ex
  /\ CDEXOrderBaseTx.well_formed Fixture.limit_buy_ex_signed
  /\ CDEXBuyLimitOrderExTx.signature_hash_stream Fixture.limit_buy_ex
     = CDEXBuyLimitOrderExTx.signature_hash_stream Fixture.limit_buy_ex_signed.
Proof.
  assert (H1 : CDEXOrderBaseTx.well_formed Fixture.limit_buy_ex) by decide_well_formed.
  assert (H2 : CDEXOrderBaseTx.well_formed Fixture.limit_buy_ex_signed) by decide_well_formed.
  split; [exact H1|]. split; [exact H2|].
  destruct (@extended_order_hash_binds_hashed_members Fixture.external Fixture_laws
              Fixture_CUserID_codec_ok Fixture.limit_buy_ex Fixture.limit_buy_ex_signed H1 H2)
    as ([_ Hfrom] & _).
  apply Hfrom. repeat split.
Defined.

Lemma settle_hash_binds_prefix_and_deal_items_witness :
  CDEXSettleBaseTx.well_formed Fixture.settle_ex_1
  /\ CDEXSettleBaseTx.well_formed Fixture.settle_ex_2
  /\ CDEXSettleExTx.signature_hash_stream Fixture.settle_ex_1
     = CDEXSettleExTx.signature_hash_stream Fixture.settle_ex_2.
Proof.
  assert (H1 : CDEXSettleBaseTx.well_formed Fixture.settle_ex_1) by decide_ranges.
  assert (H2 : CDEXSettleBaseTx.well_formed Fixture.settle_ex_2) by decide_ranges.
  split; [exact H1|]. split; [exact H2|].
  destruct (@settle_hash_binds_prefix_and_deal_items Fixture.external Fixture_laws
              Fixture_CUserID_codec_ok Fixture.settle_ex_1 Fixture.settle_ex_2 H1 H2)
    as (_ & [_ Hfrom]).
  apply Hfrom. repeat split.
Defined.

Lemma cancel_hash_binds_prefix_and_order_id_witness :
  CDEXCancelOrderTx.well_formed Fixture.cancel
  /\ CDEXCancelOrderTx.well_formed Fixture.cancel_other
  /\ CDEXCancelOrderTx.signature_hash_stream Fixture.cancel
     <> CDEXCancelOrderTx.signature_hash_stream Fixture.cancel_other.
Proof.
  assert (H1 : CDEXCancelOrderTx.well_formed Fixture.cancel) by decide_well_formed.
  assert (H2 : CDEXCancelOrderTx.well_formed Fixture.cancel_other) by decide_well_formed.
  split; [exact H1|]. split; [exact H2|].
  destruct (@cancel_hash_binds_prefix_and_order_id Fixture.external Fixture_laws
              Fixture_CUserID_codec_ok Fixture.cancel Fixture.cancel_other H1 H2)
    as [Hto _].
  intros Heq. apply Hto in Heq. destruct Heq as (_ & Hid).
  vm_compute in Hid. discriminate Hid.
Defined.

Lemma basic_order_wire_roundtrip_witness :
  CDEXOrderBaseTx.well_formed Fixture.limit_buy
  /\ CDEXBuyLimitOrderTx.Unserialize
       (CDEXOrderBaseTx.ctor1 (Fixture.default_base DEX_LIMIT_BUY_ORDER_TX))
       (CDEXBuyLimitOrderTx.Serialize Fixture.limit_buy ++ [xff])
     = Some (Fixture.limit_buy, [xff]).
Proof.
  assert (H1 : CDEXOrderBaseTx.well_formed Fixture.limit_buy) by decide_well_formed.
  split; [exact H1|].
  destruct (@basic_order_wire_roundtrip Fixture.external
              Fixture_CUserID_codec_ok
              (CDEXOrderBaseTx.ctor1 (Fixture.default_base DEX_LIMIT_BUY_ORDER_TX))
              Fixture.limit_buy [xff] H1) as (Hread & _).
  exact Hread.
Defined.

Lemma extended_order_wire_roundtrip_witness :
  CDEXOrderBaseTx.well_formed Fixture.limit_buy_ex_signed
  /\ CDEXBuyLimitOrderExTx.Unserialize Fixture.signature_pair_codec
       (CDEXOrderBaseTx.ctor1 (Fixture.default_base DEX_LIMIT_BUY_ORDER_EX_TX))
       (CDEXBuyLimitOrderExTx.Serialize Fixture.signature_pair_codec
          Fixture.limit_buy_ex_signed ++ [xff])
     = Some (Fixture.limit_buy_ex_signed, [xff]).
Proof.
  assert (H1 : CDEXOrderBaseTx.well_formed Fixture.limit_buy_ex_signed)
    by decide_well_formed.
  assert (H2 : representable (optional Fixture.signature_pair_codec)
                 (CDEXOrderBaseTx.operator_signature_pair Fixture.limit_buy_ex_signed))
    by decide_ranges.
  split; [exact H1|].
  destruct (@extended_order_wire_roundtrip Fixture.external
              Fixture_CUserID_codec_ok Fixture.signature_pair_codec
              Fixture_signature_pair_codec_ok
              (CDEXOrderBaseTx.ctor1 (Fixture.default_base DEX_LIMIT_BUY_ORDER_EX_TX))
              Fixture.limit_buy_ex_signed [xff] H1 H2) as (Hread & _).
  exact Hread.
Defined.

Lemma settle_wire_roundtrip_witness :
  CDEXSettleBaseTx.well_formed Fixture.settle_ex_1
  /\ CDEXSettleExTx.Unserialize Fixture.settle_basic
       (CDEXSettleExTx.Serialize Fixture.settle_ex_1 ++ [xff])
     = Some (Fixture.settle_ex_1, [xff])
  /\ CDEXSettleTx.Unserialize Fixture.settle_ex_2
       (CDEXSettleTx.Serialize Fixture.settle_ex_1 ++ [xff])
     = Some (Fixture.settle_ex_2, [xff]).
Proof.
  assert (H1 : CDEXSettleBaseTx.well_formed Fixture.settle_ex_1) by decide_ranges.
  split; [exact H1|]. split.
  - destruct (@settle_wire_roundtrip Fixture.external Fixture_laws
                Fixture_CUserID_codec_ok Fixture.settle_basic Fixture.settle_ex_1 [xff] H1)
      as (_ & Hread).
    exact Hread.
  - destruct (@settle_wire_roundtrip Fixture.external Fixture_laws
                Fixture_CUserID_codec_ok Fixture.settle_ex_2 Fixture.settle_ex_1 [xff] H1)
      as (Hread & _).
    exact Hread.
Defined.

Lemma cancel_wire_roundtrip_witness :
  CDEXCancelOrderTx.well_formed Fixture.cancel
  /\ CDEXCancelOrderTx.Unserialize Fixture.cancel_other
       (CDEXCancelOrderTx.Serialize Fixture.cancel ++ [xff])
     = Some (Fixture.cancel, [xff]).
Proof.
  assert (H1 : CDEXCancelOrderTx.well_formed Fixture.cancel) by decide_well_formed.
  split; [exact H1|].
  exact (@cancel_wire_roundtrip Fixture.external Fixture_laws Fixture_CUserID_codec_ok
           Fixture.cancel_other Fixture.cancel [xff] H1).
Defined.

Lemma constructed_basic_order_read_back_witness :
  CDEXOrderBaseTx.order_side Fixture.limit_sell = ORDER_SELL
  /\ CDEXSellLimitOrderTx.Unserialize
       (CDEXOrderBaseTx.ctor1 (Fixture.default_base DEX_LIMIT_SELL_ORDER_TX))
       (CDEXSellLimitOrderTx.Serialize Fixture.limit_sell ++ [xff])
     = Some (CDEXOrderBaseTx.set_order_side ORDER_BUY Fixture.limit_sell, [xff]).
Proof.
  split; [reflexivity|].
  assert (Hwf : Forall (@CDEXOrderBaseTx.well_formed Fixture.external)
            [ CDEXOrderBaseTx.set_signature []
                (@CDEXBuyLimitOrderTx.ctor Fixture.external (1000, 2) 1500 "WICC"%string 10000
                   "WUSD"%string "WICC"%string 5 1000000000);
              CDEXOrderBaseTx.set_signature []
                (@CDEXSellLimitOrderTx.ctor Fixture.external (1000, 2) 1500 "WICC"%string 10000
                   "WUSD"%string "WICC"%string 5 1000000000);
              CDEXOrderBaseTx.set_signature []
                (@CDEXBuyMarketOrderTx.ctor Fixture.external (1000, 2) 1500 "WICC"%string 10000
                   "WUSD"%string "WICC"%string 5);
              CDEXOrderBaseTx.set_signature []
                (@CDEXSellMarketOrderTx.ctor Fixture.external (1000, 2) 1500 "WICC"%string 10000
                   "WUSD"%string "WICC"%string 5) ])
    by (repeat apply Forall_cons; try apply Forall_nil; decide_well_formed).
  destruct (@constructed_basic_order_read_back Fixture.external
              Fixture_CUserID_codec_ok (1000, 2) 1500 "WICC"%string 10000
              "WUSD"%string "WICC"%string 5 1000000000 []
              (Fixture.default_base DEX_LIMIT_SELL_ORDER_TX) [xff] Hwf)
    as (_ & Hsell & _).
  exact Hsell.
Defined.

Lemma hashed_members_are_on_the_wire_witness :
  CDEXOrderBaseTx.well_formed Fixture.limit_buy
  /\ (CDEXBuyLimitOrderTx.Serialize Fixture.limit_buy
      = CDEXBuyLimitOrderTx.Serialize
          (CDEXOrderBaseTx.set_order_side ORDER_SELL Fixture.limit_buy)
      /\ CDEXBuyLimitOrderTx.signature_hash_stream Fixture.limit_buy
         = CDEXBuyLimitOrderTx.signature_hash_stream
             (CDEXOrderBaseTx.set_order_side ORDER_SELL Fixture.limit_buy)).
Proof.
  assert (H1 : CDEXOrderBaseTx.well_formed Fixture.limit_buy) by decide_well_formed.
  assert (H2 : CDEXOrderBaseTx.well_formed
                 (CDEXOrderBaseTx.set_order_side ORDER_SELL Fixture.limit_buy))
    by decide_well_formed.
  split; [exact H1|]. split; [reflexivity|].
  destruct (@hashed_members_are_on_the_wire Fixture.external Fixture_laws
              Fixture_CUserID_codec_ok Fixture.signature_pair_codec
              Fixture_signature_pair_codec_ok) as (Horder & _).
  destruct (Horder Fixture.limit_buy
              (CDEXOrderBaseTx.set_order_side ORDER_SELL Fixture.limit_buy) H1 H2 eq_refl)
    as (Hbuy & _).
  apply Hbuy. reflexivity.
Defined.

Lemma dex_entities_written_apart_witness :
  CDEXActiveOrder.well_formed Fixture.active_order
  /\ CDEXActiveOrder.Serialize Fixture.active_order ++ [xff]
     <> CDEXActiveOrder.Serialize (CDEXActiveOrder.SetEmpty Fixture.active_order) ++ [xff].
Proof.
  assert (H1 : CDEXActiveOrder.well_formed Fixture.active_order) by decide_well_formed.
  assert (H2 : CDEXActiveOrder.well_formed (CDEXActiveOrder.SetEmpty Fixture.active_order))
    by decide_well_formed.
  split; [exact H1|].
  destruct (@dex_entities_written_apart Fixture.external Fixture_laws [xff] [xff])
    as (_ & Hactive & _).
  intros Heq. apply Hactive in Heq; [|exact H1|exact H2].
  destruct Heq as [Heq _]. apply (f_equal CDEXActiveOrder.generate_type) in Heq.
  vm_compute in Heq. discriminate Heq.
Defined.

Lemma resolve_type_reaches_end_of_acyclic_typedefs_witness :
  abi_serializer.find Fixture.typedefs (abi_serializer.resolve_type Fixture.typedefs "owner"%string) = None
  /\ abi_serializer.resolve_type Fixture.typedefs "owner"%string = "name"%string.
Proof.
  assert (Hrank : forall a b, abi_serializer.find Fixture.typedefs a = Some b ->
                    (Fixture.typedef_rank b < Fixture.typedef_rank a)%nat).
  { intros a b. cbn [Fixture.typedefs abi_serializer.find].
    destruct (String.eqb "account_name" a) eqn:H1.
    - apply String.eqb_eq in H1. subst a. intros H. injection H as <-. cbn. lia.
    - destruct (String.eqb "owner" a) eqn:H2; [|discriminate].
      apply String.eqb_eq in H2. subst a. intros H. injection H as <-. cbn. lia. }
  destruct (resolve_type_reaches_end_of_acyclic_typedefs Fixture.typedefs
              Fixture.typedef_rank "owner"%string Hrank) as (Hend & _).
  split; [exact Hend|reflexivity].
Defined.

Lemma get_field_variant_bounds_check_witness :
  abi_serializer.get_field_variant 64 (Some (@nil nat)) 0 = abi_serializer.reads_past_the_end
  /\ abi_serializer.get_field_variant 64 (Some [7%nat; 8%nat]) 2 = abi_serializer.throws.
Proof.
  split.
  - apply (get_field_variant_bounds_check 64 (@nil nat) 0); [lia|lia|cbn; lia|reflexivity].
  - destruct (get_field_variant_bounds_check 64 [7%nat; 8%nat] 2) as (_ & H & _);
      [lia|lia|cbn; lia|].
    apply H; [discriminate|cbn; lia].
Defined.
